(** * Apple Pay relay and Authorize.Net translator: a shallow embedding

    The development embeds the server side of the repository:
    - [server/services/authorizeNet.js]: [escapeXml], [createXmlRequest],
      [parseXmlResponse] and [processApplePayTransaction];
    - the route handlers of [POST /validate] and [POST /process];
    - the classification done by the [errorHandler] middleware;
    - [server/config/applepay.js]: the class [Config];
    - the handler of [POST /webhook];
    - of the page: the buffers of its [Logger] and the request bodies that
      [src/app.js] sends to the server.

    JavaScript values are the JSON data model plus [undefined]; numbers
    stand for integers below 2^53 in magnitude (those are printed in full
    and compared exactly), strings are sequences of code units below 256.
    The objects are those of JSON data: their properties are never
    functions, which is what makes [String] throw on an object with a
    property [toString].  [JSON.parse], where the server calls it, is a
    function of the world, like the file system, the network and the
    clock.  Console logging is left out. *)

From Stdlib Require Import String Ascii List ZArith NArith Lia Bool Arith.
From Stdlib Require Strings.Byte.
From Stdlib Require Import DecimalString DecimalZ DecimalN DecimalFacts.
Import ListNotations.
Open Scope string_scope.
#[local] Set Warnings "-register-all".

(* ================================================================== *)
(** * Strings *)
(* ================================================================== *)

Module Str.

(** The double quote, which no literal of this file contains. *)
Definition dquote : ascii := "034"%char.
Definition dq : string := String dquote EmptyString.

(** [s.slice(0, n)]. *)
Fixpoint take (n : nat) (s : string) : string :=
  match n, s with
  | S n', String c r => String c (take n' r)
  | _, _ => EmptyString
  end.

Fixpoint drop (n : nat) (s : string) : string :=
  match n, s with
  | S n', String _ r => drop n' r
  | _, _ => s
  end.

(** [p] is a prefix of [s]?  On success the remainder of [s]. *)
Fixpoint strip_prefix (p s : string) : option string :=
  match p, s with
  | EmptyString, _ => Some s
  | String a p', String b s' =>
      if Ascii.eqb a b then strip_prefix p' s' else None
  | String _ _, EmptyString => None
  end.

(** [needle] occurs in [hay]. *)
Definition occurs (needle hay : string) : Prop :=
  exists pre post, hay = pre ++ needle ++ post.

Fixpoint count (c : ascii) (s : string) : nat :=
  match s with
  | EmptyString => 0
  | String b r => (if Ascii.eqb c b then 1 else 0) + count c r
  end.

Fixpoint mem (c : ascii) (s : string) : bool :=
  match s with
  | EmptyString => false
  | String b r => Ascii.eqb c b || mem c r
  end.

Fixpoint forallb (p : ascii -> bool) (s : string) : bool :=
  match s with
  | EmptyString => true
  | String b r => p b && forallb p r
  end.

(** White space of [String.prototype.trim] among the code units below 256:
    TAB, LF, VT, FF, CR, SP and NBSP. *)
Definition is_space (c : ascii) : bool :=
  let n := nat_of_ascii c in
  (Nat.leb 9 n && Nat.leb n 13) || Nat.eqb n 32 || Nat.eqb n 160.

Fixpoint trim_start (s : string) : string :=
  match s with
  | String c r => if is_space c then trim_start r else s
  | EmptyString => EmptyString
  end.

Fixpoint trim_end (s : string) : string :=
  match s with
  | EmptyString => EmptyString
  | String c r =>
      match trim_end r with
      | EmptyString => if is_space c then EmptyString else String c EmptyString
      | r' => String c r'
      end
  end.

Definition trim (s : string) : string := trim_end (trim_start s).

(** [Array.prototype.join]. *)
Fixpoint join (sep : string) (l : list string) : string :=
  match l with
  | [] => EmptyString
  | [x] => x
  | x :: r => x ++ sep ++ join sep r
  end.

(** [str.replace(/c/g, by)] for a one-character pattern. *)
Fixpoint replace_all (c : ascii) (by_ : string) (s : string) : string :=
  match s with
  | EmptyString => EmptyString
  | String b r =>
      if Ascii.eqb b c then by_ ++ replace_all c by_ r
      else String b (replace_all c by_ r)
  end.

(** The search for [n] in [s], as a function. *)
Fixpoint occursb (n s : string) : bool :=
  match strip_prefix n s with
  | Some _ => true
  | None => match s with String _ r => occursb n r | EmptyString => false end
  end.



(** Text without markup and line ends: no [<], no LF, no CR. *)
Definition plain (s : string) : bool :=
  forallb (fun c => negb (Ascii.eqb c "<" || Ascii.eqb c "010" || Ascii.eqb c "013")) s.

Fixpoint concat (l : list string) : string :=
  match l with
  | [] => EmptyString
  | x :: r => x ++ concat r
  end.

(** Decimal notation of an integer, as a template literal prints it. *)
Definition of_Z (z : Z) : string := NilZero.string_of_int (Z.to_int z).

End Str.

(* ================================================================== *)
(** * JavaScript values *)
(* ================================================================== *)

Inductive jsval : Type :=
| JUndefined
| JNull
| JBool (b : bool)
| JNum (n : Z)
| JStr (s : string)
| JArr (items : list jsval)
| JObj (fields : list (string * jsval)).

(** ToBoolean. *)
Definition truthy (v : jsval) : bool :=
  match v with
  | JUndefined | JNull => false
  | JBool b => b
  | JNum n => negb (n =? 0)%Z
  | JStr s => negb (s =? EmptyString)
  | JArr _ | JObj _ => true
  end.

(** [a || b]. *)
Definition js_or (a b : jsval) : jsval := if truthy a then a else b.

Inductive jstype := TUndefined | TObject | TBoolean | TNumber | TString.

Definition typeof (v : jsval) : jstype :=
  match v with
  | JUndefined => TUndefined
  | JNull | JArr _ | JObj _ => TObject
  | JBool _ => TBoolean
  | JNum _ => TNumber
  | JStr _ => TString
  end.

Fixpoint assoc (k : string) (fields : list (string * jsval)) : option jsval :=
  match fields with
  | [] => None
  | (k', v) :: r => if k =? k' then Some v else assoc k r
  end.

(** [v?.k] for the property names the server reads (none of them is a
    property of a primitive's or an array's prototype). *)
Definition get_opt (v : jsval) (k : string) : jsval :=
  match v with
  | JObj fields => match assoc k fields with Some x => x | None => JUndefined end
  | _ => JUndefined
  end.

(** [String(v)], and the conversion of a template literal: [None] stands
    for the TypeError of a value that has no primitive.  The objects here
    are those of JSON data, so an own property [toString] is never a
    function: the conversion then finds neither it nor a [valueOf] that
    gives a primitive, and throws.  Without one, [Object.prototype.toString]
    answers.  An array is joined, each element converted in turn, with
    [undefined] and [null] printed as nothing. *)
Fixpoint to_String (v : jsval) : option string :=
  match v with
  | JUndefined => Some "undefined"
  | JNull => Some "null"
  | JBool true => Some "true"
  | JBool false => Some "false"
  | JNum n => Some (Str.of_Z n)
  | JStr s => Some s
  | JArr items =>
      option_map (Str.join ",")
        ((fix elements (l : list jsval) : option (list string) :=
            match l with
            | [] => Some []
            | x :: r =>
                match match x with
                      | JUndefined | JNull => Some EmptyString
                      | _ => to_String x
                      end, elements r with
                | Some s, Some t => Some (s :: t)
                | _, _ => None
                end
            end) items)
  | JObj fields =>
      match assoc "toString" fields with
      | Some _ => None
      | None => Some "[object Object]"
      end
  end.

(** The message of the TypeError that [String] throws. *)
Definition cannot_convert : string := "Cannot convert object to primitive value".

(** [undefined] and [null] as the message of a TypeError names them. *)
Definition nullish (v : jsval) : string :=
  match v with JNull => "null" | _ => "undefined" end.

(** [x <- m ;; k] for a step that may throw the TypeError of [String]. *)
Notation "'let?' x ':=' m 'in' k" :=
  (match m with Some x => k | None => None end)
  (at level 10, x name, m at level 100, k at level 200).

(* ================================================================== *)
(** * The gateway request document *)
(* ================================================================== *)

Record AuthorizeNetService := {
  apiLoginId : string;
  transactionKey : string;
  baseUrl : string
}.

(** The object literal [transactionData] of [processApplePayTransaction]. *)
Record transactionData := {
  refId : jsval;
  amount : jsval;
  dataDescriptor : jsval;
  dataValue : jsval;
  invoiceNumber : jsval;
  description : jsval;
  customerId : jsval;
  email : jsval;
  billingAddress : jsval
}.

(** [escapeXml(str)]: five global replacements, the ampersand first, of
    [String(str)]; [None] when that conversion throws. *)
Definition escapeXml (str : jsval) : option string :=
  if negb (truthy str) then Some EmptyString
  else
    let? text := to_String str in
    Some (Str.replace_all "'" "&apos;"
            (Str.replace_all Str.dquote "&quot;"
               (Str.replace_all ">" "&gt;"
                  (Str.replace_all "<" "&lt;"
                     (Str.replace_all "&" "&amp;" text))))).

(** Escaping as the specification words it: each of the five reserved
    characters is replaced by its entity, in one pass. *)
Definition entity_of (c : ascii) : string :=
  if Ascii.eqb c "&" then "&amp;"
  else if Ascii.eqb c "<" then "&lt;"
  else if Ascii.eqb c ">" then "&gt;"
  else if Ascii.eqb c Str.dquote then "&quot;"
  else if Ascii.eqb c "'" then "&apos;"
  else String c EmptyString.

Fixpoint escaped_text (s : string) : string :=
  match s with
  | EmptyString => EmptyString
  | String c r => entity_of c ++ escaped_text r
  end.

(** The reserved characters other than the ampersand. *)
Definition reserved (c : ascii) : bool :=
  Ascii.eqb c "<" || Ascii.eqb c ">" || Ascii.eqb c Str.dquote || Ascii.eqb c "'".

(** Every ampersand of [s] starts one of the five entities. *)
Fixpoint entities_only (s : string) : bool :=
  match s with
  | EmptyString => true
  | String c r =>
      (if Ascii.eqb c "&" then
         match Str.strip_prefix "amp;" r, Str.strip_prefix "lt;" r,
               Str.strip_prefix "gt;" r, Str.strip_prefix "quot;" r,
               Str.strip_prefix "apos;" r with
         | None, None, None, None, None => false
         | _, _, _, _, _ => true
         end
       else true)
      && entities_only r
  end.

(** [createXmlRequest(transactionData)]: the interpolations of the template
    literal are evaluated from first to last, each through [escapeXml]; the
    document is [None] when one of them throws. *)
Definition createXmlRequest (this : AuthorizeNetService) (td : transactionData)
  : option string :=
  let dq := Str.dq in
  let e := JStr EmptyString in
  let? name := escapeXml (JStr (apiLoginId this)) in
  let? key := escapeXml (JStr (transactionKey this)) in
  let? refId := escapeXml (js_or (refId td) e) in
  let? amount := escapeXml (amount td) in
  let? dataDescriptor := escapeXml (dataDescriptor td) in
  let? dataValue := escapeXml (dataValue td) in
  let? invoiceNumber := escapeXml (js_or (invoiceNumber td) e) in
  let? description := escapeXml (js_or (description td) (JStr "Apple Pay Payment")) in
  let? id := escapeXml (js_or (customerId td) e) in
  let? email := escapeXml (js_or (email td) e) in
  let? firstName := escapeXml (js_or (get_opt (billingAddress td) "firstName") e) in
  let? lastName := escapeXml (js_or (get_opt (billingAddress td) "lastName") e) in
  let? company := escapeXml (js_or (get_opt (billingAddress td) "company") e) in
  let? address := escapeXml (js_or (get_opt (billingAddress td) "address") e) in
  let? city := escapeXml (js_or (get_opt (billingAddress td) "city") e) in
  let? state := escapeXml (js_or (get_opt (billingAddress td) "state") e) in
  let? zip := escapeXml (js_or (get_opt (billingAddress td) "zip") e) in
  let? country := escapeXml (js_or (get_opt (billingAddress td) "country") e) in
  Some ("<?xml version=" ++ dq ++ "1.0" ++ dq ++ " encoding=" ++ dq ++ "utf-8" ++ dq ++ "?>
<createTransactionRequest xmlns=" ++ dq ++ "AnetApi/xml/v1/schema/AnetApiSchema.xsd" ++ dq ++ ">
  <merchantAuthentication>
    <name>" ++ name ++ "</name>
    <transactionKey>" ++ key ++ "</transactionKey>
  </merchantAuthentication>
  <refId>" ++ refId ++ "</refId>
  <transactionRequest>
    <transactionType>authCaptureTransaction</transactionType>
    <amount>" ++ amount ++ "</amount>
    <payment>
      <opaqueData>
        <dataDescriptor>" ++ dataDescriptor ++ "</dataDescriptor>
        <dataValue>" ++ dataValue ++ "</dataValue>
      </opaqueData>
    </payment>
    <order>
      <invoiceNumber>" ++ invoiceNumber ++ "</invoiceNumber>
      <description>" ++ description ++ "</description>
    </order>
    <customer>
      <id>" ++ id ++ "</id>
      <email>" ++ email ++ "</email>
    </customer>
    <billTo>
      <firstName>" ++ firstName ++ "</firstName>
      <lastName>" ++ lastName ++ "</lastName>
      <company>" ++ company ++ "</company>
      <address>" ++ address ++ "</address>
      <city>" ++ city ++ "</city>
      <state>" ++ state ++ "</state>
      <zip>" ++ zip ++ "</zip>
      <country>" ++ country ++ "</country>
    </billTo>
  </transactionRequest>
</createTransactionRequest>").

(** The values that [createXmlRequest] passes to [escapeXml], in the order
    of the template. *)
Definition interpolated (this : AuthorizeNetService) (td : transactionData)
  : list jsval :=
  let e := JStr EmptyString in
  [JStr (apiLoginId this); JStr (transactionKey this); js_or (refId td) e;
   amount td; dataDescriptor td; dataValue td; js_or (invoiceNumber td) e;
   js_or (description td) (JStr "Apple Pay Payment");
   js_or (customerId td) e; js_or (email td) e;
   js_or (get_opt (billingAddress td) "firstName") e;
   js_or (get_opt (billingAddress td) "lastName") e;
   js_or (get_opt (billingAddress td) "company") e;
   js_or (get_opt (billingAddress td) "address") e;
   js_or (get_opt (billingAddress td) "city") e;
   js_or (get_opt (billingAddress td) "state") e;
   js_or (get_opt (billingAddress td) "zip") e;
   js_or (get_opt (billingAddress td) "country") e].

(** [String(v)] returns. *)
Definition converts (v : jsval) : bool :=
  match to_String v with Some _ => true | None => false end.

(** A value that [escapeXml] accepts: it is falsy, or [String] converts
    it. *)
Definition printable (v : jsval) : bool := negb (truthy v) || converts v.

(* ================================================================== *)
(** * JSON text *)
(* ================================================================== *)

Module Json.

Local Open Scope N_scope.

Definition bslash : ascii := "092"%char.

Definition hex_digit (n : N) : ascii :=
  match n with
  | 0 => "0" | 1 => "1" | 2 => "2" | 3 => "3" | 4 => "4" | 5 => "5"
  | 6 => "6" | 7 => "7" | 8 => "8" | 9 => "9" | 10 => "a" | 11 => "b"
  | 12 => "c" | 13 => "d" | 14 => "e" | _ => "f"
  end%N%char.

(** A hexadecimal digit of either case. *)
Definition hex_val (c : ascii) : option N :=
  let n := N_of_ascii c in
  if (48 <=? n) && (n <=? 57) then Some (n - 48)
  else if (97 <=? n) && (n <=? 102) then Some (n - 87)
  else if (65 <=? n) && (n <=? 70) then Some (n - 55)
  else None.

(** QuoteJSONString, one code unit. *)
Definition escape_char (c : ascii) : string :=
  let n := N_of_ascii c in
  if Ascii.eqb c Str.dquote then String bslash Str.dq
  else if Ascii.eqb c bslash then String bslash (String bslash EmptyString)
  else if n =? 8 then String bslash "b"
  else if n =? 12 then String bslash "f"
  else if n =? 10 then String bslash "n"
  else if n =? 13 then String bslash "r"
  else if n =? 9 then String bslash "t"
  else if n <? 32 then
    String bslash
      (String "u" (String "0" (String "0"
         (String (hex_digit (n / 16)) (String (hex_digit (n mod 16)) EmptyString)))))
  else String c EmptyString.

Fixpoint escape (s : string) : string :=
  match s with
  | EmptyString => EmptyString
  | String c r => escape_char c ++ escape r
  end.

Definition quote (s : string) : string := Str.dq ++ escape s ++ Str.dq.

(** SerializeJSONProperty with no indentation.  [undefined] is printed
    as an array element; as a property value it drops the property. *)
Fixpoint stringify (v : jsval) : string :=
  match v with
  | JUndefined | JNull => "null"
  | JBool true => "true"
  | JBool false => "false"
  | JNum n => Str.of_Z n
  | JStr s => quote s
  | JArr items => "[" ++ Str.join "," (map stringify items) ++ "]"
  | JObj fields =>
      "{" ++
      Str.join ","
        ((fix members (fs : list (string * jsval)) : list string :=
            match fs with
            | [] => []
            | (k, x) :: r =>
                match x with
                | JUndefined => members r
                | _ => (quote k ++ ":" ++ stringify x) :: members r
                end
            end) fields)
      ++ "}"
  end.

(** [JSON.stringify(v)]: [None] stands for the result [undefined]. *)
Definition JSON_stringify (v : jsval) : option string :=
  match v with
  | JUndefined => None
  | _ => Some (stringify v)
  end.

(** ** Reading

    The reader of the texts that this development prints, and the
    [JSON.parse] of the scenario worlds.  The [JSON.parse] that the server
    calls is a function of the world. *)

Definition is_ws (c : ascii) : bool :=
  let n := N_of_ascii c in (n =? 32) || (n =? 9) || (n =? 10) || (n =? 13).

Fixpoint skip_ws (s : string) : string :=
  match s with
  | String c r => if is_ws c then skip_ws r else s
  | EmptyString => EmptyString
  end.

Definition is_digit (c : ascii) : bool :=
  let n := N_of_ascii c in (48 <=? n) && (n <=? 57).

(** The longest prefix of digits, and what follows it. *)
Fixpoint span_digits (s : string) : string * string :=
  match s with
  | String c r =>
      if is_digit c then let (d, rest) := span_digits r in (String c d, rest)
      else (EmptyString, s)
  | EmptyString => (EmptyString, EmptyString)
  end.

(** A JSON number without fraction and exponent; one with either is
    outside the integers of [jsval] and is not read. *)
Definition parse_number (s : string) : option (jsval * string) :=
  let (neg, s1) :=
    match s with
    | String "-" r => (true, r)
    | _ => (false, s)
    end in
  let (ds, rest) := span_digits s1 in
  let integral :=
    match rest with
    | String c _ => negb (Ascii.eqb c "." || Ascii.eqb c "e" || Ascii.eqb c "E")
    | EmptyString => true
    end in
  match ds with
  | EmptyString => None
  | String "0" (String _ _) => None
  | _ =>
      if integral then
        match NilEmpty.uint_of_string ds with
        | Some u =>
            let n := Z.of_uint u in
            Some (JNum (if neg then - n else n)%Z, rest)
        | None => None
        end
      else None
  end.

(** The characters of a string literal after its opening quote, up to the
    closing one. *)
Fixpoint parse_chars (s : string) : option (string * string) :=
  match s with
  | EmptyString => None
  | String c r =>
      if Ascii.eqb c Str.dquote then Some (EmptyString, r)
      else if Ascii.eqb c bslash then
        match r with
        | String e r1 =>
            if Ascii.eqb e "u" then
              match r1 with
              | String h1 (String h2 (String h3 (String h4 r2))) =>
                  match hex_val h1, hex_val h2, hex_val h3, hex_val h4 with
                  | Some a, Some b, Some c', Some d =>
                      let n := (((a * 16 + b) * 16 + c') * 16 + d)%N in
                      if (n <? 256)%N then
                        match parse_chars r2 with
                        | Some (body, rest) => Some (String (ascii_of_N n) body, rest)
                        | None => None
                        end
                      else None
                  | _, _, _, _ => None
                  end
              | _ => None
              end
            else
              let simple :=
                if Ascii.eqb e Str.dquote then Some Str.dquote
                else if Ascii.eqb e bslash then Some bslash
                else if Ascii.eqb e "/" then Some "/"%char
                else if Ascii.eqb e "b" then Some "008"%char
                else if Ascii.eqb e "f" then Some "012"%char
                else if Ascii.eqb e "n" then Some "010"%char
                else if Ascii.eqb e "r" then Some "013"%char
                else if Ascii.eqb e "t" then Some "009"%char
                else None in
              match simple with
              | Some x =>
                  match parse_chars r1 with
                  | Some (body, rest) => Some (String x body, rest)
                  | None => None
                  end
              | None => None
              end
        | EmptyString => None
        end
      else if (N_of_ascii c <? 32)%N then None
      else
        match parse_chars r with
        | Some (body, rest) => Some (String c body, rest)
        | None => None
        end
  end.

(** Defining a property: an existing key keeps its place. *)
Fixpoint obj_set (k : string) (v : jsval) (fields : list (string * jsval))
  : list (string * jsval) :=
  match fields with
  | [] => [(k, v)]
  | (k', v') :: r =>
      if String.eqb k k' then (k, v) :: r else (k', v') :: obj_set k v r
  end.

Definition obj_of_members (ms : list (string * jsval)) : jsval :=
  JObj (fold_left (fun acc kv => obj_set (fst kv) (snd kv) acc) ms []).

Fixpoint parse_value (fuel : nat) (s : string) {struct fuel}
  : option (jsval * string) :=
  match fuel with
  | O => None
  | S f =>
      match skip_ws s with
      | EmptyString => None
      | String c r as s' =>
          if Ascii.eqb c Str.dquote then
            match parse_chars r with
            | Some (body, rest) => Some (JStr body, rest)
            | None => None
            end
          else if Ascii.eqb c "[" then
            match skip_ws r with
            | String "]" rest => Some (JArr [], rest)
            | _ =>
                match parse_elements f r with
                | Some (items, rest) => Some (JArr items, rest)
                | None => None
                end
            end
          else if Ascii.eqb c "{" then
            match skip_ws r with
            | String "}" rest => Some (JObj [], rest)
            | _ =>
                match parse_members f r with
                | Some (ms, rest) => Some (obj_of_members ms, rest)
                | None => None
                end
            end
          else if Ascii.eqb c "-" || is_digit c then parse_number s'
          else
            match Str.strip_prefix "null" s' with
            | Some rest => Some (JNull, rest)
            | None =>
                match Str.strip_prefix "true" s' with
                | Some rest => Some (JBool true, rest)
                | None =>
                    match Str.strip_prefix "false" s' with
                    | Some rest => Some (JBool false, rest)
                    | None => None
                    end
                end
            end
      end
  end

with parse_elements (fuel : nat) (s : string) {struct fuel}
  : option (list jsval * string) :=
  match fuel with
  | O => None
  | S f =>
      match parse_value f s with
      | Some (v, rest) =>
          match skip_ws rest with
          | String "," rest' =>
              match parse_elements f rest' with
              | Some (vs, rest'') => Some (v :: vs, rest'')
              | None => None
              end
          | String "]" rest' => Some ([v], rest')
          | _ => None
          end
      | None => None
      end
  end

with parse_members (fuel : nat) (s : string) {struct fuel}
  : option (list (string * jsval) * string) :=
  match fuel with
  | O => None
  | S f =>
      match skip_ws s with
      | String c r =>
          if Ascii.eqb c Str.dquote then
            match parse_chars r with
            | Some (k, rest) =>
                match skip_ws rest with
                | String ":" rest1 =>
                    match parse_value f rest1 with
                    | Some (v, rest2) =>
                        match skip_ws rest2 with
                        | String "," rest3 =>
                            match parse_members f rest3 with
                            | Some (ms, rest4) => Some ((k, v) :: ms, rest4)
                            | None => None
                            end
                        | String "}" rest3 => Some ([(k, v)], rest3)
                        | _ => None
                        end
                    | None => None
                    end
                | _ => None
                end
            | None => None
            end
          else None
      | EmptyString => None
      end
  end.

(** The reader: [None] on a text that is no JSON text, or whose value is
    none of [jsval] (a number with a fraction or an exponent, an escape of
    a code unit above 255). *)
Definition JSON_parse (s : string) : option jsval :=
  match parse_value (S (String.length s)) s with
  | Some (v, rest) =>
      match skip_ws rest with
      | EmptyString => Some v
      | _ => None
      end
  | None => None
  end.

(** The reader as the [JSON.parse] of a world: a text that is not read is
    reported with a message. *)
Definition parse_or_message (s : string) : string + jsval :=
  match JSON_parse s with
  | Some v => inr v
  | None => inl "Unexpected token in JSON"
  end.

(** What may follow a value inside a JSON text: nothing, or one of the
    three separators. *)
Definition delimited (rest : string) : bool :=
  match rest with
  | EmptyString => true
  | String c _ => Ascii.eqb c "," || Ascii.eqb c "]" || Ascii.eqb c "}"
  end.

(** The first character of a value is no white space and closes no
    array. *)
Definition starts_value (s : string) : bool :=
  match s with
  | EmptyString => false
  | String c _ => negb (is_ws c) && negb (Ascii.eqb c "]")
  end.

(** Values that [JSON.stringify] prints in full: no [undefined] inside,
    and the keys of an object are distinct. *)
Fixpoint distinct (l : list string) : bool :=
  match l with
  | [] => true
  | k :: r => negb (existsb (String.eqb k) r) && distinct r
  end.

Fixpoint serializable (v : jsval) : bool :=
  match v with
  | JUndefined => false
  | JNull | JBool _ | JNum _ | JStr _ => true
  | JArr items => forallb serializable items
  | JObj fields =>
      distinct (map fst fields)
      && forallb (fun kv => serializable (snd kv)) fields
  end.

End Json.

(* ================================================================== *)
(** * Buffers: UTF-8 and base64 *)
(* ================================================================== *)

Module Buffer.

Local Open Scope N_scope.

Definition byte_of_N (n : N) : Byte.byte := byte_of_ascii (ascii_of_N n).
Definition N_of_byte (b : Byte.byte) : N := N_of_ascii (ascii_of_byte b).

(** [Buffer.from(s, 'utf8')] on code units below 256: one byte below 128,
    two bytes from there on. *)
Fixpoint from_utf8 (s : string) : list Byte.byte :=
  match s with
  | EmptyString => []
  | String c r =>
      let n := N_of_ascii c in
      if n <? 128 then byte_of_N n :: from_utf8 r
      else byte_of_N (192 + n / 64) :: byte_of_N (128 + n mod 64) :: from_utf8 r
  end.

(** Decoding UTF-8 into code units below 256; [None] on a byte sequence
    that is malformed or encodes a larger code point. *)
Fixpoint to_utf8 (bs : list Byte.byte) : option string :=
  match bs with
  | [] => Some EmptyString
  | b :: r =>
      let n := N_of_byte b in
      if n <? 128 then option_map (String (ascii_of_N n)) (to_utf8 r)
      else if (n =? 194) || (n =? 195) then
        match r with
        | b2 :: r' =>
            let m := N_of_byte b2 in
            if (128 <=? m) && (m <? 192) then
              option_map (String (ascii_of_N ((n - 192) * 64 + (m - 128))))
                         (to_utf8 r')
            else None
        | [] => None
        end
      else None
  end.

Definition alphabet : string :=
  "ABCDEFGHIJKLMNOPQRSTUVWXYZabcdefghijklmnopqrstuvwxyz0123456789+/".

Definition b64_char (n : N) : ascii :=
  match String.get (N.to_nat n) alphabet with
  | Some c => c
  | None => "="%char
  end.

Definition b64_val (c : ascii) : option N :=
  let n := N_of_ascii c in
  if (65 <=? n) && (n <=? 90) then Some (n - 65)
  else if (97 <=? n) && (n <=? 122) then Some (n - 71)
  else if (48 <=? n) && (n <=? 57) then Some (n + 4)
  else if n =? 43 then Some 62
  else if n =? 47 then Some 63
  else None.

(** [buf.toString('base64')]: RFC 4648 with padding. *)
Fixpoint to_base64 (bs : list Byte.byte) : string :=
  match bs with
  | [] => EmptyString
  | [a] =>
      let a := N_of_byte a in
      String (b64_char (a / 4))
        (String (b64_char (a mod 4 * 16)) "==")
  | [a; b] =>
      let a := N_of_byte a in
      let b := N_of_byte b in
      String (b64_char (a / 4))
        (String (b64_char (a mod 4 * 16 + b / 16))
           (String (b64_char (b mod 16 * 4)) "="))
  | a :: b :: c :: r =>
      let a := N_of_byte a in
      let b := N_of_byte b in
      let c := N_of_byte c in
      String (b64_char (a / 4))
        (String (b64_char (a mod 4 * 16 + b / 16))
           (String (b64_char (b mod 16 * 4 + c / 64))
              (String (b64_char (c mod 64)) (to_base64 r))))
  end.

(** Decoding padded base64; [None] outside the alphabet or on a length
    that is no multiple of four. *)
Fixpoint from_base64 (s : string) : option (list Byte.byte) :=
  match s with
  | EmptyString => Some []
  | String c1 (String c2 (String c3 (String c4 r))) =>
      match b64_val c1, b64_val c2 with
      | Some v1, Some v2 =>
          let b1 := byte_of_N (v1 * 4 + v2 / 16) in
          if Ascii.eqb c3 "=" then
            if Ascii.eqb c4 "=" then
              match r with EmptyString => Some [b1] | _ => None end
            else None
          else
            match b64_val c3 with
            | Some v3 =>
                let b2 := byte_of_N (v2 mod 16 * 16 + v3 / 4) in
                if Ascii.eqb c4 "=" then
                  match r with EmptyString => Some [b1; b2] | _ => None end
                else
                  match b64_val c4, from_base64 r with
                  | Some v4, Some bs =>
                      Some (b1 :: b2 :: byte_of_N (v3 mod 4 * 64 + v4) :: bs)
                  | _, _ => None
                  end
            | None => None
            end
      | _, _ => None
      end
  | _ => None
  end.

End Buffer.

(** The opaque payment value of the gateway request:
    [Buffer.from(JSON.stringify(paymentData), 'utf8').toString('base64')]. *)
Definition encode_paymentData (paymentData : jsval) : option string :=
  match Json.JSON_stringify paymentData with
  | Some text => Some (Buffer.to_base64 (Buffer.from_utf8 text))
  | None => None
  end.

(** What the receiver of the opaque value does with it: base64, then UTF-8,
    then the JSON text. *)
Definition decode_paymentData (dataValue : string) : option jsval :=
  match Buffer.from_base64 dataValue with
  | Some bytes =>
      match Buffer.to_utf8 bytes with
      | Some text => Json.JSON_parse text
      | None => None
      end
  | None => None
  end.

(* ================================================================== *)
(** * Regular expressions of the response parser *)
(* ================================================================== *)

Module Regex.

(** The patterns of [parseXmlResponse] are sequences of literal text,
    [cls*] (greedy) and one capturing [(cls*?)] (lazy). *)
Inductive item :=
| Lit (s : string)
| Many (cls : ascii -> bool)
| Group (cls : ascii -> bool).

Definition regex := list item.

(** [[\s\S]] *)
Definition any (c : ascii) : bool := true.
(** [.], which matches no line terminator *)
Definition dot (c : ascii) : bool :=
  negb (Ascii.eqb c "010" || Ascii.eqb c "013").
(** [[^>]] *)
Definition not_gt (c : ascii) : bool := negb (Ascii.eqb c ">").

(** A backtracking match of [re] at the start of [s]: the captures and
    the text after the match.  A greedy star tries the longest run first,
    a lazy one the shortest. *)
Fixpoint match_here (re : regex) (s : string) : option (list string * string) :=
  match re with
  | [] => Some ([], s)
  | Lit l :: k =>
      match Str.strip_prefix l s with
      | Some r => match_here k r
      | None => None
      end
  | Many cls :: k =>
      (fix greedy (s : string) : option (list string * string) :=
         match s with
         | String c r =>
             if cls c then
               match greedy r with
               | Some x => Some x
               | None => match_here k s
               end
             else match_here k s
         | EmptyString => match_here k s
         end) s
  | Group cls :: k =>
      (fix lazy (s : string) : option (list string * string) :=
         match match_here k s with
         | Some (caps, rest) => Some (EmptyString :: caps, rest)
         | None =>
             match s with
             | String c r =>
                 if cls c then
                   match lazy r with
                   | Some (cap :: caps, rest) => Some (String c cap :: caps, rest)
                   | _ => None
                   end
                 else None
             | EmptyString => None
             end
         end) s
  end.

(** The leftmost match: [RegExp.prototype.exec] from the start of [s]. *)
Fixpoint exec (re : regex) (s : string) : option (list string * string) :=
  match match_here re s with
  | Some r => Some r
  | None =>
      match s with
      | String _ r => exec re r
      | EmptyString => None
      end
  end.

(** [s.match(re)[1]] *)
Definition match1 (re : regex) (s : string) : option string :=
  match exec re s with
  | Some (cap :: _, _) => Some cap
  | _ => None
  end.

Fixpoint match_all_from (fuel : nat) (re : regex) (s : string) : list string :=
  match fuel with
  | O => []
  | S f =>
      match exec re s with
      | Some (cap :: _, rest) => cap :: match_all_from f re rest
      | _ => []
      end
  end.

(** The first groups of [s.matchAll(re)], every match starting where the
    one before ended.  The patterns used match no empty text, so there are
    at most [length s] matches. *)
Definition matchAll1 (re : regex) (s : string) : list string :=
  match_all_from (S (String.length s)) re s.

(** [<name>(cls*?)</name>] *)
Definition element (cls : ascii -> bool) (name : string) : regex :=
  [Lit ("<" ++ name ++ ">"); Group cls; Lit ("</" ++ name ++ ">")].

(** [<name[^>]*>([\s\S]*?)</name>] *)
Definition section (name : string) : regex :=
  [Lit ("<" ++ name); Many not_gt; Lit ">"; Group any; Lit ("</" ++ name ++ ">")].

End Regex.

(* ================================================================== *)
(** * The parsed gateway response *)
(* ================================================================== *)

Record transactionError := {
  errorCode : string;
  errorText : string
}.

Record messageError := {
  code : string;
  text : string
}.

(** [result.transactionResponse]; [None] is a property that was never set. *)
Record transactionResponse := {
  responseCode : option string;
  authCode : option string;
  transId : option string;
  errors : option (list transactionError)
}.

(** [result.messages] *)
Record messages := {
  resultCode : option string;
  message : option (list messageError)
}.

Record parsedResponse := {
  transactionResponse_ : transactionResponse;
  messages_ : messages
}.

Definition no_transactionResponse : transactionResponse :=
  {| responseCode := None; authCode := None; transId := None; errors := None |}.

Definition no_messages : messages :=
  {| resultCode := None; message := None |}.

Definition or_empty {A} (l : option (list A)) : list A :=
  match l with Some x => x | None => [] end.

(** [if (xs.length > 0) result.field = xs] *)
Definition when_nonempty {A} (l : list A) : option (list A) :=
  match l with [] => None | _ => Some l end.

(** The entry that the loop over the matches of [<error>] pushes. *)
Definition error_of (errorXml : string) : transactionError :=
  {| errorCode :=
       match Regex.match1 (Regex.element Regex.dot "errorCode") errorXml with
       | Some c => c
       | None => EmptyString
       end;
     errorText :=
       match Regex.match1 (Regex.element Regex.dot "errorText") errorXml with
       | Some t => t
       | None => EmptyString
       end |}.

(** The entry that the loop over the matches of [<message>] pushes. *)
Definition message_of (messageErrorXml : string) : messageError :=
  {| code :=
       match Regex.match1 (Regex.element Regex.dot "code") messageErrorXml with
       | Some c => c
       | None => EmptyString
       end;
     text :=
       match Regex.match1 (Regex.element Regex.dot "text") messageErrorXml with
       | Some t => t
       | None => EmptyString
       end |}.

(** What is extracted from the text inside [<transactionResponse>]. *)
Definition transaction_of (transXml : string) : transactionResponse :=
  {| responseCode := Regex.match1 (Regex.element Regex.dot "responseCode") transXml;
     authCode := Regex.match1 (Regex.element Regex.dot "authCode") transXml;
     transId := Regex.match1 (Regex.element Regex.dot "transId") transXml;
     errors :=
       when_nonempty
         (map error_of (Regex.matchAll1 (Regex.element Regex.any "error") transXml)) |}.

(** What is extracted from the text inside [<messages>]. *)
Definition messages_of (messagesXml : string) : messages :=
  {| resultCode := Regex.match1 (Regex.element Regex.dot "resultCode") messagesXml;
     message :=
       when_nonempty
         (map message_of
            (Regex.matchAll1 (Regex.element Regex.any "message") messagesXml)) |}.

(** The body of [parseXmlResponse] on a string. *)
Definition parse_document (xmlString : string) : parsedResponse :=
  {| transactionResponse_ :=
       match Regex.match1 (Regex.section "transactionResponse") xmlString with
       | Some transXml => transaction_of transXml
       | None => no_transactionResponse
       end;
     messages_ :=
       match Regex.match1 (Regex.section "messages") xmlString with
       | Some messagesXml => messages_of messagesXml
       | None => no_messages
       end |}.

(** ** Response documents

    The documents of a gateway stub: the two sections in either order, each
    field present or not, any number of entries at both levels. *)
Module Render.

Definition element (name : string) (v : option string) : string :=
  match v with
  | Some x => ("<" ++ name ++ ">") ++ x ++ ("</" ++ name ++ ">")
  | None => EmptyString
  end.

Definition error_body (e : transactionError) : string :=
  "<errorCode>" ++ errorCode e ++ "</errorCode><errorText>" ++ errorText e
    ++ "</errorText>".

Definition message_body (m : messageError) : string :=
  "<code>" ++ code m ++ "</code><text>" ++ text m ++ "</text>".

Definition error_entry (e : transactionError) : string :=
  "<error>" ++ error_body e ++ "</error>".

Definition message_entry (m : messageError) : string :=
  "<message>" ++ message_body m ++ "</message>".




Definition plain_option (v : option string) : bool :=
  match v with Some x => Str.plain x | None => true end.

(** A parsed response that a document can stand for: its texts are plain
    and a list that is present has an entry. *)
Definition printable (p : parsedResponse) : bool :=
  plain_option (resultCode (messages_ p))
  && plain_option (responseCode (transactionResponse_ p))
  && plain_option (authCode (transactionResponse_ p))
  && plain_option (transId (transactionResponse_ p))
  && forallb (fun m => Str.plain (code m) && Str.plain (text m))
       (or_empty (message (messages_ p)))
  && forallb (fun e => Str.plain (errorCode e) && Str.plain (errorText e))
       (or_empty (errors (transactionResponse_ p)))
  && match message (messages_ p) with Some [] => false | _ => true end
  && match errors (transactionResponse_ p) with Some [] => false | _ => true end.

End Render.

(* ================================================================== *)
(** * Errors *)
(* ================================================================== *)

(** An element of [allErrors]: the spread of the envelope-level messages
    followed by that of the transaction-level errors. *)
Inductive gatewayError :=
| OfMessage (m : messageError)
| OfTransaction (e : transactionError).

(** [error.response] of a rejected [axios.post]. *)
Record axiosResponse := {
  ax_status : Z;
  ax_statusText : string;
  ax_data : jsval
}.

(** The objects assigned to [error.authorizeNetError]; [None] is a property
    the object literal does not have, or one whose value is [undefined]. *)
Module AuthorizeNetError.
Record t := {
  status : option Z;
  statusText : option string;
  resultCode : option string;
  errors : list gatewayError;
  messageErrors : option (list messageError);
  transactionErrors : option (list transactionError);
  responseCode : option string;
  response : parsedResponse;
  rawResponse : option jsval
}.
End AuthorizeNetError.

(** The objects assigned to [error.applePayError]. *)
Module ApplePayError.
Record t := {
  type : option string;
  message : option string;
  path : option string;
  statusCode : option Z;
  statusMessage : option string;
  response : option string
}.
Definition empty : t :=
  {| type := None; message := None; path := None; statusCode := None;
     statusMessage := None; response := None |}.
End ApplePayError.

Record fieldViolation := {
  fv_field : string;
  fv_constraint : string;
  fv_message : string
}.

(** The [Error] that the [error] event of [https.request] carries: its
    message, and the own properties that [res.json] prints of it ([code],
    [errno], [syscall] and the like). *)
Record requestError := {
  re_message : string;
  re_properties : list (string * jsval)
}.

(** What the validation handler assigns to [error.originalError]: the
    message of the error of [JSON.parse], or the error of the request
    itself. *)
Inductive original :=
| OriginalMessage (message : string)
| OriginalError (error : requestError).

(** A JavaScript [Error] with the properties the server sets and reads. *)
Module Err.
Record t := {
  name : string;
  message : string;
  type : option string;
  details : option (string * string);
  fields : option (list fieldViolation);
  code : option string;
  statusCode : option Z;
  status : option Z;
  originalError : option original;
  applePayError : option ApplePayError.t;
  authorizeNetError : option AuthorizeNetError.t;
  response : option axiosResponse
}.

Definition make (name message : string) : t :=
  {| name := name; message := message; type := None; details := None;
     fields := None; code := None; statusCode := None; status := None;
     originalError := None; applePayError := None;
     authorizeNetError := None; response := None |}.

(** [new Error(message)] *)
Definition new (message : string) : t := make "Error" message.
Definition TypeError (message : string) : t := make "TypeError" message.
Definition SyntaxError (message : string) : t := make "SyntaxError" message.

Definition set_type (v : string) (e : t) : t :=
  {| name := name e; message := message e; type := Some v;
     details := details e; fields := fields e; code := code e;
     statusCode := statusCode e; status := status e;
     originalError := originalError e; applePayError := applePayError e;
     authorizeNetError := authorizeNetError e; response := response e |}.
Definition set_details (v : string * string) (e : t) : t :=
  {| name := name e; message := message e; type := type e;
     details := Some v; fields := fields e; code := code e;
     statusCode := statusCode e; status := status e;
     originalError := originalError e; applePayError := applePayError e;
     authorizeNetError := authorizeNetError e; response := response e |}.
Definition set_fields (v : list fieldViolation) (e : t) : t :=
  {| name := name e; message := message e; type := type e;
     details := details e; fields := Some v; code := code e;
     statusCode := statusCode e; status := status e;
     originalError := originalError e; applePayError := applePayError e;
     authorizeNetError := authorizeNetError e; response := response e |}.
Definition set_code (v : string) (e : t) : t :=
  {| name := name e; message := message e; type := type e;
     details := details e; fields := fields e; code := Some v;
     statusCode := statusCode e; status := status e;
     originalError := originalError e; applePayError := applePayError e;
     authorizeNetError := authorizeNetError e; response := response e |}.
Definition set_originalError (v : original) (e : t) : t :=
  {| name := name e; message := message e; type := type e;
     details := details e; fields := fields e; code := code e;
     statusCode := statusCode e; status := status e;
     originalError := Some v; applePayError := applePayError e;
     authorizeNetError := authorizeNetError e; response := response e |}.
Definition set_applePayError (v : ApplePayError.t) (e : t) : t :=
  {| name := name e; message := message e; type := type e;
     details := details e; fields := fields e; code := code e;
     statusCode := statusCode e; status := status e;
     originalError := originalError e; applePayError := Some v;
     authorizeNetError := authorizeNetError e; response := response e |}.
Definition set_authorizeNetError (v : AuthorizeNetError.t) (e : t) : t :=
  {| name := name e; message := message e; type := type e;
     details := details e; fields := fields e; code := code e;
     statusCode := statusCode e; status := status e;
     originalError := originalError e; applePayError := applePayError e;
     authorizeNetError := Some v; response := response e |}.
End Err.

(* ================================================================== *)
(** * Effects *)
(* ================================================================== *)

(** How [https.request] to the wallet provider settles the promise of the
    validation handler: the first of its events, or the error that the call
    itself throws before any request is made. *)
Inductive upstream :=
| UpResponse (statusCode : Z) (statusMessage : string) (data : string)
| UpError (error : requestError)
| UpTimeout
| UpThrows (e : Err.t).

(** How [axios.post] to the gateway settles. *)
Inductive axiosOutcome :=
| AxResolved (data : jsval)
| AxRejected (e : Err.t).

(** A computation of the server: it returns, throws, or performs one of
    the effects of the two handlers and goes on with the answer.
    [JsonParse] is a call of [JSON.parse], answered with the value or
    with the message of the SyntaxError. *)
Inductive io (A : Type) : Type :=
| Ret (a : A)
| Throw (e : Err.t)
| ReadFileSync (path : string) (k : string + string -> io A)
| HttpsRequest (url : jsval) (key cert : string) (body : string) (timeout : Z)
    (k : upstream -> io A)
| AxiosPost (url : string) (body : string) (timeout : Z)
    (k : axiosOutcome -> io A)
| DateNow (k : Z -> io A)
| JsonParse (text : string) (k : string + jsval -> io A).

Arguments Ret {A} a.
Arguments Throw {A} e.
Arguments ReadFileSync {A} path k.
Arguments HttpsRequest {A} url key cert body timeout k.
Arguments AxiosPost {A} url body timeout k.
Arguments DateNow {A} k.
Arguments JsonParse {A} text k.

Fixpoint bind {A B} (m : io A) (f : A -> io B) : io B :=
  match m with
  | Ret a => f a
  | Throw e => Throw e
  | ReadFileSync p k => ReadFileSync p (fun r => bind (k r) f)
  | HttpsRequest u ky c b t k => HttpsRequest u ky c b t (fun r => bind (k r) f)
  | AxiosPost u b t k => AxiosPost u b t (fun r => bind (k r) f)
  | DateNow k => DateNow (fun r => bind (k r) f)
  | JsonParse s k => JsonParse s (fun r => bind (k r) f)
  end.

(** [try { m } catch (error) { h error }] *)
Fixpoint try_catch {A} (m : io A) (h : Err.t -> io A) : io A :=
  match m with
  | Ret a => Ret a
  | Throw e => h e
  | ReadFileSync p k => ReadFileSync p (fun r => try_catch (k r) h)
  | HttpsRequest u ky c b t k => HttpsRequest u ky c b t (fun r => try_catch (k r) h)
  | AxiosPost u b t k => AxiosPost u b t (fun r => try_catch (k r) h)
  | DateNow k => DateNow (fun r => try_catch (k r) h)
  | JsonParse s k => JsonParse s (fun r => try_catch (k r) h)
  end.

Notation "x <- m ;; k" := (bind m (fun x => k))
  (at level 61, m at next level, right associativity).

(** The world a computation runs in, and what it did there.  [json] is
    [JSON.parse] of the platform: the message of its SyntaxError, or the
    value. *)
Record world := {
  files : string -> string + string;
  wallet : jsval -> string -> upstream;
  gateway : string -> string -> axiosOutcome;
  clock : Z;
  json : string -> string + jsval
}.

Inductive event :=
| FileRead (path : string)
| WalletRequest (url : jsval) (body : string)
| GatewayRequest (url : string) (body : string)
| ClockRead.

Definition is_network (e : event) : bool :=
  match e with
  | WalletRequest _ _ | GatewayRequest _ _ => true
  | _ => false
  end.

Fixpoint run {A} (w : world) (m : io A) : list event * (Err.t + A) :=
  match m with
  | Ret a => ([], inr a)
  | Throw e => ([], inl e)
  | ReadFileSync p k =>
      let (tr, r) := run w (k (files w p)) in (FileRead p :: tr, r)
  | HttpsRequest u _ _ b _ k =>
      let (tr, r) := run w (k (wallet w u b)) in
      (match wallet w u b with
       | UpThrows _ => tr
       | _ => WalletRequest u b :: tr
       end, r)
  | AxiosPost u b _ k =>
      let (tr, r) := run w (k (gateway w u b)) in (GatewayRequest u b :: tr, r)
  | DateNow k =>
      let (tr, r) := run w (k (clock w)) in (ClockRead :: tr, r)
  | JsonParse s k => run w (k (json w s))
  end.

Definition returned {A} (r : Err.t + A) : option A :=
  match r with inr a => Some a | inl _ => None end.

Definition thrown {A} (r : Err.t + A) : option Err.t :=
  match r with inl e => Some e | inr _ => None end.

Definition trace {A} (w : world) (m : io A) : list event := fst (run w m).

(** A computation that reaches neither the network nor the file system:
    it returns, throws, reads the clock or parses a text. *)
Fixpoint offline {A} (m : io A) : Prop :=
  match m with
  | Ret _ | Throw _ => True
  | DateNow k => forall now, offline (k now)
  | JsonParse _ k => forall r, offline (k r)
  | ReadFileSync _ _ | HttpsRequest _ _ _ _ _ _ | AxiosPost _ _ _ _ => False
  end.
Definition outcome {A} (w : world) (m : io A) : Err.t + A := snd (run w m).

(* ================================================================== *)
(** * The gateway service *)
(* ================================================================== *)

(** [v.k]: reading a property of [undefined] or [null] throws. *)
Definition get_prop (v : jsval) (k : string) : io jsval :=
  match v with
  | JUndefined | JNull =>
      Throw (Err.TypeError
               ("Cannot read properties of " ++ nullish v ++ " (reading '" ++ k ++ "')"))
  | _ => Ret (get_opt v k)
  end.

(** [v.slice(0, 20)], a method of strings and of arrays only. *)
Definition slice_0_20 (v : jsval) : io jsval :=
  match v with
  | JStr s => Ret (JStr (Str.take 20 s))
  | JArr items => Ret (JArr (firstn 20 items))
  | _ => Throw (Err.TypeError "orderInfo.invoiceNumber.slice is not a function")
  end.

(** [amount.toFixed(2)] on an integer. *)
Definition toFixed_2 (v : jsval) : io jsval :=
  match v with
  | JNum n => Ret (JStr (Str.of_Z n ++ ".00"))
  | JUndefined | JNull =>
      Throw (Err.TypeError
               ("Cannot read properties of " ++ nullish v ++ " (reading 'toFixed')"))
  | _ => Throw (Err.TypeError "amount.toFixed is not a function")
  end.

(** [parseXmlResponse(xmlString)]: [xmlString.match] exists on strings
    only. *)
Definition parseXmlResponse (xmlString : jsval) : io parsedResponse :=
  match xmlString with
  | JStr s => Ret (parse_document s)
  | JUndefined | JNull =>
      Throw (Err.TypeError
               ("Cannot read properties of " ++ nullish xmlString ++ " (reading 'match')"))
  | _ => Throw (Err.TypeError "xmlString.match is not a function")
  end.

(** [e.text || e.errorText || e.code || e.errorCode], as [join] prints it. *)
Definition error_label (e : gatewayError) : string :=
  match e with
  | OfMessage m => if negb (text m =? EmptyString) then text m else code m
  | OfTransaction t =>
      if negb (errorText t =? EmptyString) then errorText t else errorCode t
  end.

Definition allErrors_of (errorMessages : list messageError)
  (transactionErrors : list transactionError) : list gatewayError :=
  map OfMessage errorMessages ++ map OfTransaction transactionErrors.

(** The argument of [processApplePayTransaction]. *)
Record paymentRequest := {
  paymentToken : jsval;
  req_amount : jsval;
  userId : jsval;
  orderInfo : jsval
}.

(** The object it returns. *)
Record transactionResult := {
  success : bool;
  transactionId : option string;
  res_authCode : option string;
  res_responseCode : option string;
  res_amount : jsval;
  res_details : transactionResponse
}.

(** The failure of the check at the level of [messages]. *)
Definition envelope_failure (parsedResponse : parsedResponse) : Err.t :=
  let errorMessages := or_empty (message (messages_ parsedResponse)) in
  let transactionErrors := or_empty (errors (transactionResponse_ parsedResponse)) in
  let allErrors := allErrors_of errorMessages transactionErrors in
  let errorMessage :=
    match allErrors with
    | [] => "Authorize.Net transaction failed"
    | _ => Str.join "; " (map error_label allErrors)
    end in
  Err.set_authorizeNetError
    {| AuthorizeNetError.status := None;
       AuthorizeNetError.statusText := None;
       AuthorizeNetError.resultCode := resultCode (messages_ parsedResponse);
       AuthorizeNetError.errors := allErrors;
       AuthorizeNetError.messageErrors := Some errorMessages;
       AuthorizeNetError.transactionErrors := Some transactionErrors;
       AuthorizeNetError.responseCode := None;
       AuthorizeNetError.response := parsedResponse;
       AuthorizeNetError.rawResponse := None |}
    (Err.new errorMessage).

(** The failure of the check of the transaction response. *)
Definition declined_failure (parsedResponse : parsedResponse) : Err.t :=
  Err.set_authorizeNetError
    {| AuthorizeNetError.status := None;
       AuthorizeNetError.statusText := None;
       AuthorizeNetError.resultCode := None;
       AuthorizeNetError.errors :=
         map OfTransaction (or_empty (errors (transactionResponse_ parsedResponse)));
       AuthorizeNetError.messageErrors := None;
       AuthorizeNetError.transactionErrors := None;
       AuthorizeNetError.responseCode := responseCode (transactionResponse_ parsedResponse);
       AuthorizeNetError.response := parsedResponse;
       AuthorizeNetError.rawResponse := None |}
    (Err.new "Transaction was declined").

(** The [catch] block: details of the gateway are added to the error, which
    is thrown again. *)
Definition enhance_error (this : AuthorizeNetService) (error : Err.t) : io Err.t :=
  match Err.response error with
  | Some response =>
      parsedResponse <- parseXmlResponse (ax_data response) ;;
      let errorMessages := or_empty (message (messages_ parsedResponse)) in
      let transactionErrors := or_empty (errors (transactionResponse_ parsedResponse)) in
      let allErrors := allErrors_of errorMessages transactionErrors in
      Ret (Err.set_authorizeNetError
             {| AuthorizeNetError.status := Some (ax_status response);
                AuthorizeNetError.statusText := Some (ax_statusText response);
                AuthorizeNetError.resultCode := resultCode (messages_ parsedResponse);
                AuthorizeNetError.errors := allErrors;
                AuthorizeNetError.messageErrors := Some errorMessages;
                AuthorizeNetError.transactionErrors := Some transactionErrors;
                AuthorizeNetError.responseCode := None;
                AuthorizeNetError.response := parsedResponse;
                AuthorizeNetError.rawResponse := Some (ax_data response) |}
             error)
  | None =>
      match Err.authorizeNetError error with
      | Some a =>
          match AuthorizeNetError.errors a with
          | [] =>
              let messageErrors := or_empty (AuthorizeNetError.messageErrors a) in
              let transactionErrors := or_empty (AuthorizeNetError.transactionErrors a) in
              Ret (Err.set_authorizeNetError
                     {| AuthorizeNetError.status := AuthorizeNetError.status a;
                        AuthorizeNetError.statusText := AuthorizeNetError.statusText a;
                        AuthorizeNetError.resultCode := AuthorizeNetError.resultCode a;
                        AuthorizeNetError.errors :=
                          allErrors_of messageErrors transactionErrors;
                        AuthorizeNetError.messageErrors := AuthorizeNetError.messageErrors a;
                        AuthorizeNetError.transactionErrors :=
                          AuthorizeNetError.transactionErrors a;
                        AuthorizeNetError.responseCode := AuthorizeNetError.responseCode a;
                        AuthorizeNetError.response := AuthorizeNetError.response a;
                        AuthorizeNetError.rawResponse := AuthorizeNetError.rawResponse a |}
                     error)
          | _ :: _ => Ret error
          end
      | None => Ret error
      end
  end.

(** The classification of a parsed response (the two checks and the
    success result). *)
Definition classify (amount : jsval) (parsedResponse : parsedResponse)
  : io transactionResult :=
  if negb (match resultCode (messages_ parsedResponse) with
           | Some rc => rc =? "Ok"
           | None => false
           end)
  then Throw (envelope_failure parsedResponse)
  else if negb (match responseCode (transactionResponse_ parsedResponse) with
                | Some rc => rc =? "1"
                | None => false
                end)
  then Throw (declined_failure parsedResponse)
  else
    Ret {| success := true;
           transactionId := transId (transactionResponse_ parsedResponse);
           res_authCode := authCode (transactionResponse_ parsedResponse);
           res_responseCode := responseCode (transactionResponse_ parsedResponse);
           res_amount := amount;
           res_details := transactionResponse_ parsedResponse |}.

(** [typeof paymentToken === 'string' ? JSON.parse(paymentToken) : paymentToken] *)
Definition applePayToken_of (paymentToken : jsval) : io jsval :=
  match paymentToken with
  | JStr s =>
      JsonParse s
        (fun parsed =>
           match parsed with
           | inr v => Ret v
           | inl message => Throw (Err.SyntaxError message)
           end)
  | v => Ret v
  end.

Definition missing_paymentData : Err.t :=
  Err.new "Apple Pay token missing paymentData".

(** The request object built from the caller's input, up to the network
    call. *)
Definition build_transactionData (req : paymentRequest) : io transactionData :=
  let orderInfo := match orderInfo req with JUndefined => JObj [] | o => o end in
  applePayToken <- applePayToken_of (paymentToken req) ;;
  paymentData <- get_prop applePayToken "paymentData" ;;
  if negb (truthy paymentData) then
    Throw missing_paymentData
  else
    paymentDataValue <-
      match encode_paymentData paymentData with
      | Some s => Ret s
      | None => Throw (Err.TypeError "The first argument must be of type string")
      end ;;
    suppliedInvoice <- get_prop orderInfo "invoiceNumber" ;;
    invoiceNumber <-
      (if truthy suppliedInvoice then slice_0_20 suppliedInvoice
       else DateNow (fun now => Ret (JStr (Str.take 20 ("INV-" ++ Str.of_Z now))))) ;;
    customerId <-
      (if truthy (userId req) then
         match userId req with
         | JStr s =>
             if negb (Str.trim s =? EmptyString) then
               if Nat.leb (String.length s) 20 then Ret (JStr s)
               else Ret (JStr (Str.take 20 s))
             else Ret (JStr EmptyString)
         | _ => Throw (Err.TypeError "userId.trim is not a function")
         end
       else Ret (JStr EmptyString)) ;;
    orderId <- get_prop orderInfo "orderId" ;;
    refId <-
      (if truthy orderId then Ret orderId
       else DateNow (fun now => Ret (JStr ("ORDER-" ++ Str.of_Z now)))) ;;
    amount <- toFixed_2 (req_amount req) ;;
    description <- get_prop orderInfo "description" ;;
    email <- get_prop orderInfo "email" ;;
    billingAddress <- get_prop orderInfo "billingAddress" ;;
    Ret {| refId := refId;
           amount := amount;
           dataDescriptor := JStr "COMMON.APPLE.INAPP.PAYMENT";
           dataValue := JStr paymentDataValue;
           invoiceNumber := invoiceNumber;
           description := js_or description (JStr "Apple Pay Payment");
           customerId := customerId;
           email := js_or email (JStr EmptyString);
           billingAddress := js_or billingAddress (JObj []) |}.

(** The names of the address that the document prints. *)
Definition billTo : list string :=
  ["firstName"; "lastName"; "company"; "address"; "city"; "state"; "zip"; "country"].

(** An order whose properties the document prints as they are given (the
    order id, the description, the email and the address) are all falsy or
    convertible to a string. *)
Definition order_is_printable (orderInfo : jsval) : bool :=
  printable (get_opt orderInfo "orderId")
  && printable (get_opt orderInfo "description")
  && printable (get_opt orderInfo "email")
  && forallb (fun k => printable (get_opt (get_opt orderInfo "billingAddress") k))
       billTo.

Definition processApplePayTransaction (this : AuthorizeNetService)
  (req : paymentRequest) : io transactionResult :=
  try_catch
    (transactionData <- build_transactionData req ;;
     match createXmlRequest this transactionData with
     | None => Throw (Err.TypeError cannot_convert)
     | Some xmlRequest =>
         AxiosPost (baseUrl this) xmlRequest 30000
           (fun settled =>
              match settled with
              | AxResolved data =>
                  parsedResponse <- parseXmlResponse data ;;
                  classify (req_amount req) parsedResponse
              | AxRejected error => Throw error
              end)
     end)
    (fun error => error' <- enhance_error this error ;; Throw error').

(* ================================================================== *)
(** * The routes *)
(* ================================================================== *)

Record config := {
  appleMerchantId : string;
  appleMerchantCertPath : string;
  appleMerchantKeyPath : string
}.

(** What the handlers read of an Express request. *)
Record request := {
  body : jsval;
  hostname : jsval;
  host_header : jsval
}.

(** The argument of [res.json] on success. *)
Inductive reply :=
| ValidateReply (success : bool) (merchantSession : jsval)
| ProcessReply (success : bool) (id authCode : option string) (amount : jsval)
    (status : string) (responseCode : option string) (details : transactionResponse).

(** [const { k } = req.body] *)
Definition destructure (body : jsval) (k : string) : io jsval :=
  match body with
  | JUndefined | JNull =>
      Throw (Err.TypeError
               ("Cannot destructure property '" ++ k ++ "' of 'req.body' as it is "
                  ++ nullish body ++ "."))
  | _ => Ret (get_opt body k)
  end.

Definition certificate_failure (what message path : string) (fsMessage : string)
  : Err.t :=
  Err.set_applePayError
    {| ApplePayError.type := Some "CertificateError";
       ApplePayError.message := Some message;
       ApplePayError.path := Some path;
       ApplePayError.statusCode := None;
       ApplePayError.statusMessage := None;
       ApplePayError.response := None |}
    (Err.set_code "ENOENT"
       (Err.new ("Failed to load merchant " ++ what ++ ": " ++ fsMessage))).

(** The failure of a response whose body [JSON.parse] refuses, with the
    message of its SyntaxError. *)
Definition parse_failure (message data : string) : Err.t :=
  Err.set_applePayError
    {| ApplePayError.type := None;
       ApplePayError.message := None;
       ApplePayError.path := None;
       ApplePayError.statusCode := None;
       ApplePayError.statusMessage := None;
       ApplePayError.response := Some data |}
    (Err.set_originalError (OriginalMessage message)
       (Err.new "Failed to parse Apple validation response")).

(** The failure of a response whose status is not 200. *)
Definition status_failure (statusCode : Z) (statusMessage data : string) : Err.t :=
  Err.set_applePayError
    {| ApplePayError.type := None;
       ApplePayError.message := None;
       ApplePayError.path := None;
       ApplePayError.statusCode := Some statusCode;
       ApplePayError.statusMessage := Some statusMessage;
       ApplePayError.response := Some data |}
    (Err.new ("Apple validation failed with status " ++ Str.of_Z statusCode)).

(** The [end] listener of the response of the wallet provider. *)
Definition on_end (statusCode : Z) (statusMessage data : string) : io jsval :=
  if (statusCode =? 200)%Z then
    JsonParse data
      (fun parsed =>
         match parsed with
         | inr session => Ret session
         | inl message => Throw (parse_failure message data)
         end)
  else Throw (status_failure statusCode statusMessage data).

(** The failure of the [error] event of the request. *)
Definition network_failure (error : requestError) : Err.t :=
  Err.set_applePayError
    {| ApplePayError.type := Some "NetworkError";
       ApplePayError.message := Some (re_message error);
       ApplePayError.path := None;
       ApplePayError.statusCode := None;
       ApplePayError.statusMessage := None;
       ApplePayError.response := None |}
    (Err.set_originalError (OriginalError error)
       (Err.new ("Network error during merchant validation: " ++ re_message error))).

(** The failure of the 10 second timeout. *)
Definition timeout_failure : Err.t :=
  Err.set_applePayError
    {| ApplePayError.type := Some "TimeoutError";
       ApplePayError.message := None;
       ApplePayError.path := None;
       ApplePayError.statusCode := None;
       ApplePayError.statusMessage := None;
       ApplePayError.response := None |}
    (Err.new "Merchant validation request timeout").

(** The body of the request to the wallet provider. *)
Definition requestData_of (cfg : config) (req : request) : string :=
  Json.stringify
    (JObj [("merchantIdentifier", JStr (appleMerchantId cfg));
           ("domainName", js_or (hostname req) (host_header req));
           ("displayName", JStr "Apple Pay POC")]).

(** The failure of a missing [validationURL]. *)
Definition validationURL_required : Err.t :=
  Err.set_details ("validationURL", "required")
    (Err.set_type "validation" (Err.new "validationURL is required")).

(** [POST /validate] *)
Definition validate_handler (cfg : config) (req : request) : io reply :=
  validationURL <- destructure (body req) "validationURL" ;;
  if negb (truthy validationURL) then
    Throw validationURL_required
  else
    try_catch
      (merchantCert <-
         ReadFileSync (appleMerchantCertPath cfg)
           (fun r =>
              match r with
              | inl content => Ret content
              | inr msg =>
                  Throw (certificate_failure "certificate"
                           "Merchant identity certificate not found"
                           (appleMerchantCertPath cfg) msg)
              end) ;;
       merchantKey <-
         ReadFileSync (appleMerchantKeyPath cfg)
           (fun r =>
              match r with
              | inl content => Ret content
              | inr msg =>
                  Throw (certificate_failure "private key"
                           "Merchant private key not found"
                           (appleMerchantKeyPath cfg) msg)
              end) ;;
       let requestData := requestData_of cfg req in
       merchantSession <-
         HttpsRequest validationURL merchantKey merchantCert requestData 10000
           (fun settled =>
              match settled with
              | UpResponse statusCode statusMessage data =>
                  on_end statusCode statusMessage data
              | UpError error => Throw (network_failure error)
              | UpTimeout => Throw timeout_failure
              | UpThrows e => Throw e
              end) ;;
       Ret (ValidateReply true merchantSession))
      (fun error => Throw error).

(** The three checks of [POST /process], each pushing one entry. *)
Definition validationErrors_of (paymentToken amount userId : jsval)
  : list fieldViolation :=
  (if negb (truthy paymentToken) then
     [{| fv_field := "paymentToken"; fv_constraint := "required";
         fv_message := "paymentToken is required" |}]
   else [])
  ++
  (if negb (truthy amount)
      || negb (match typeof amount with TNumber => true | _ => false end)
      || match amount with JNum n => (n <=? 0)%Z | _ => false end
   then
     [{| fv_field := "amount"; fv_constraint := "invalid";
         fv_message := "amount must be a positive number" |}]
   else [])
  ++
  (if negb (truthy userId)
      || negb (match typeof userId with TString => true | _ => false end)
      || match userId with JStr s => Str.trim s =? EmptyString | _ => false end
   then
     [{| fv_field := "userId"; fv_constraint := "required";
         fv_message := "userId is required" |}]
   else []).

(** The three conditions as the specification words them. *)
Definition positive_number (v : jsval) : bool :=
  match v with JNum n => (0 <? n)%Z | _ => false end.

Definition nonblank_string (v : jsval) : bool :=
  match v with JStr s => negb (Str.trim s =? EmptyString) | _ => false end.

(** The one failure that carries every entry pushed. *)
Definition validation_failed (validationErrors : list fieldViolation) : Err.t :=
  Err.set_fields validationErrors
    (Err.set_type "validation" (Err.new "Validation failed")).

(** [POST /process] *)
Definition process_handler (svc : AuthorizeNetService) (req : request) : io reply :=
  paymentToken <- destructure (body req) "paymentToken" ;;
  amount <- destructure (body req) "amount" ;;
  userId <- destructure (body req) "userId" ;;
  orderInfo <- destructure (body req) "orderInfo" ;;
  let validationErrors := validationErrors_of paymentToken amount userId in
  match validationErrors with
  | _ :: _ => Throw (validation_failed validationErrors)
  | [] =>
      try_catch
        (result <-
           processApplePayTransaction svc
             {| paymentToken := paymentToken;
                req_amount := amount;
                userId := userId;
                orderInfo := js_or orderInfo (JObj []) |} ;;
         Ret (ProcessReply true (transactionId result) (res_authCode result)
                (res_amount result) "approved" (res_responseCode result)
                (res_details result)))
        (fun error => Throw error)
  end.

(** ** The error middleware *)

Inductive errorDetails :=
| Details (field constraint : string)
| FieldDetails (fields : list fieldViolation).

(** The status and the [error] object that [errorHandler] sends (without
    the request id, the time stamp and the request context). *)
Record errorResponse := {
  er_status : Z;
  er_message : string;
  er_code : jsval;
  er_type : string;
  er_details : option errorDetails;
  er_originalError : option original;
  er_authorizeNetError : option AuthorizeNetError.t;
  er_applePayError : option ApplePayError.t
}.

Definition or_zero (z : option Z) : Z :=
  match z with Some n => n | None => 0%Z end.

Definition truthy_Z (z : option Z) : bool :=
  match z with Some n => negb (n =? 0)%Z | None => false end.

Definition truthy_string (s : option string) : bool :=
  match s with Some x => negb (x =? EmptyString) | None => false end.

Definition errorHandler (err : Err.t) : errorResponse :=
  let statusCode0 :=
    if truthy_Z (Err.statusCode err) then or_zero (Err.statusCode err)
    else if truthy_Z (Err.status err) then or_zero (Err.status err)
    else 500%Z in
  let errorCode0 :=
    if truthy_string (Err.code err) then
      JStr (match Err.code err with Some c => c | None => EmptyString end)
    else JStr "INTERNAL_ERROR" in
  let is_code (c : string) :=
    match Err.code err with Some x => x =? c | None => false end in
  let '(errorType, statusCode, errorCode) :=
    if (Err.name err =? "ValidationError")
       || match Err.type err with Some t => t =? "validation" | None => false end
    then ("ValidationError", 400%Z, JStr "VALIDATION_ERROR")
    else
      match Err.response err with
      | Some response =>
          ("APIError",
           (if (ax_status response =? 0)%Z then 500%Z else ax_status response),
           js_or (match ax_data response with
                  | JUndefined | JNull => JUndefined
                  | d => get_opt d "code"
                  end) (JStr "API_ERROR"))
      | None =>
          if is_code "ENOTFOUND" || is_code "ECONNREFUSED"
          then ("NetworkError", 503%Z, JStr "NETWORK_ERROR")
          else if is_code "ENOENT"
          then ("FileError", 500%Z, JStr "FILE_NOT_FOUND")
          else ("ApplicationError", statusCode0, errorCode0)
      end in
  {| er_status := statusCode;
     er_message :=
       if Err.message err =? EmptyString then "An unexpected error occurred"
       else Err.message err;
     er_code := errorCode;
     er_type := errorType;
     er_details :=
       match Err.fields err with
       | Some fs => Some (FieldDetails fs)
       | None =>
           match Err.details err with
           | Some (f, c) => Some (Details f c)
           | None => None
           end
       end;
     er_originalError :=
       match Err.originalError err with
       | Some (OriginalMessage EmptyString) => None
       | o => o
       end;
     er_authorizeNetError := Err.authorizeNetError err;
     er_applePayError := Err.applePayError err |}.

(** A route behind [asyncHandler], with [errorHandler] mounted last: what
    the client receives. *)
Definition served (handler : io reply) : io (errorResponse + reply) :=
  try_catch (r <- handler ;; Ret (inr r)) (fun err => Ret (inl (errorHandler err))).

(* ================================================================== *)
(** * Scenarios *)
(* ================================================================== *)

Module Scenario.

Definition svc : AuthorizeNetService :=
  {| apiLoginId := "login"; transactionKey := "key";
     baseUrl := "https://apitest.authorize.net/xml/v1/request.api" |}.

Definition cfg : config :=
  {| appleMerchantId := "merchant.example";
     appleMerchantCertPath := "/certs/apple-merchant-cert.pem";
     appleMerchantKeyPath := "/certs/apple-merchant-key.pem" |}.

Definition paymentData : jsval :=
  JObj [("data", JStr "AB==");
        ("signature", JStr "sig");
        ("header",
         JObj [("publicKeyHash", JStr "hash");
               ("ephemeralPublicKey", JStr "key");
               ("transactionId", JStr "tx")]);
        ("version", JStr "EC_v1")].

Definition token : jsval := JObj [("paymentData", paymentData)].

Definition request_of (orderInfo : jsval) : paymentRequest :=
  {| paymentToken := token; req_amount := JNum 10; userId := JStr "u1";
     orderInfo := orderInfo |}.

(** A gateway stub answering every request with [xml]; the wallet
    provider answers with [up]; both certificate files exist; [JSON.parse]
    is the reader of this development. *)
Definition stub (xml : string) (up : upstream) : world :=
  {| files := fun _ => inl "PEM";
     wallet := fun _ _ => up;
     gateway := fun _ _ => AxResolved (JStr xml);
     clock := 1700000000000;
     json := Json.parse_or_message |}.

Definition approved_xml : string :=
  "<createTransactionResponse><messages><resultCode>Ok</resultCode><message><code>I00001</code><text>Successful.</text></message></messages><transactionResponse><responseCode>1</responseCode><authCode>AUTH1</authCode><transId>T1</transId></transactionResponse></createTransactionResponse>".

Definition declined_xml : string :=
  "<createTransactionResponse><messages><resultCode>Ok</resultCode></messages><transactionResponse><responseCode>2</responseCode><errors><error><errorCode>2</errorCode><errorText>Declined</errorText></error></errors></transactionResponse></createTransactionResponse>".

(** The envelope fails although the transaction-level code is [1]. *)
Definition rejected_xml : string :=
  "<createTransactionResponse><messages><resultCode>Error</resultCode><message><code>E00007</code><text>User authentication failed.</text></message></messages><transactionResponse><responseCode>1</responseCode><errors><error><errorCode>11</errorCode><errorText>Duplicate</errorText></error></errors></transactionResponse></createTransactionResponse>".



(** The wallet provider answers 200 with a session object. *)
Definition session : jsval :=
  JObj [("merchantSessionIdentifier", JStr "SSH1"); ("epochTimestamp", JNum 1700000000000)].

Definition validated : upstream := UpResponse 200 "OK" (Json.stringify session).

(** A token without [paymentData], and an amount that is not positive. *)
Definition two_faults : jsval :=
  JObj [("paymentToken", JObj []); ("amount", JNum 0); ("userId", JStr "u1")].

(** Only the token is at fault. *)
Definition empty_token : jsval :=
  JObj [("paymentToken", JObj []); ("amount", JNum 10); ("userId", JStr "u1")].


Definition http (body : jsval) : request :=
  {| body := body; hostname := JStr "shop.example"; host_header := JUndefined |}.

(** A request object with reserved characters in the fields of the order. *)
Definition marked_up : transactionData :=
  {| refId := JStr "<order&1>";
     amount := JStr "10.00";
     dataDescriptor := JStr "COMMON.APPLE.INAPP.PAYMENT";
     dataValue := JStr "e30=";
     invoiceNumber := JStr "INV'1'";
     description := JStr ("2 < 3 & " ++ Str.dq ++ "three" ++ Str.dq ++ " > 2");
     customerId := JStr "u&1";
     email := JStr "o'neil@example.com";
     billingAddress :=
       JObj [("firstName", JStr "A&B"); ("lastName", JStr "<C>");
             ("zip", JNum 1000)] |}.



(** An order id that [String] cannot convert. *)
Definition unprintable : jsval := JObj [("toString", JNum 1)].

End Scenario.

(* ================================================================== *)
(** * Text that needs no escaping *)
(* ================================================================== *)

(** Text that holds none of the five characters [escapeXml] replaces. *)
Definition unreserved (s : string) : bool :=
  Str.forallb (fun c => negb (Ascii.eqb c "&" || reserved c)) s.

(* ================================================================== *)
(** * Failures of the transport *)
(* ================================================================== *)

Module Failures.

(** The error of [axios] for an answer with status 502 and an HTML body. *)
Definition bad_gateway : Err.t :=
  {| Err.name := "AxiosError";
     Err.message := "Request failed with status code 502";
     Err.type := None; Err.details := None; Err.fields := None;
     Err.code := Some "ERR_BAD_RESPONSE";
     Err.statusCode := None;
     Err.status := Some 502%Z;
     Err.originalError := None; Err.applePayError := None;
     Err.authorizeNetError := None;
     Err.response :=
       Some {| ax_status := 502; ax_statusText := "Bad Gateway";
               ax_data := JStr "<html><body>Bad Gateway</body></html>" |} |}.

(** The error of [axios] for a connection that is refused. *)
Definition refused : Err.t :=
  {| Err.name := "AxiosError";
     Err.message := "connect ECONNREFUSED 127.0.0.1:443";
     Err.type := None; Err.details := None; Err.fields := None;
     Err.code := Some "ECONNREFUSED";
     Err.statusCode := None; Err.status := None;
     Err.originalError := None; Err.applePayError := None;
     Err.authorizeNetError := None; Err.response := None |}.

(** A world whose gateway rejects every request with [e]. *)
Definition rejecting (e : Err.t) : world :=
  {| files := fun _ => inl "PEM";
     wallet := fun _ _ => UpTimeout;
     gateway := fun _ _ => AxRejected e;
     clock := 1700000000000;
     json := Json.parse_or_message |}.

(** A world in which the certificate file is missing. *)
Definition without_certificate : world :=
  {| files := fun path =>
       if path =? "/certs/apple-merchant-cert.pem"
       then inr "ENOENT: no such file or directory"
       else inl "PEM";
     wallet := fun _ _ => UpTimeout;
     gateway := fun _ _ => AxResolved (JStr EmptyString);
     clock := 1700000000000;
     json := Json.parse_or_message |}.

(** The body of a well-formed payment request. *)
Definition payment : jsval :=
  JObj [("paymentToken", Scenario.token); ("amount", JNum 10);
        ("userId", JStr "u1")].

Definition validation : jsval :=
  JObj [("validationURL",
         JStr "https://apple-pay-gateway.apple.com/paymentservices/startSession")].

End Failures.

(* ================================================================== *)
(** * The configuration *)
(* ================================================================== *)

(** [server/config/applepay.js].  The environment is [process.env] after
    [dotenv.config()]: a variable is a string or is not set. *)
Module Config.

Definition newline : string := String "010" EmptyString.

(** [process.env.KEY || fallback] *)
Definition env_or (env : string -> option string) (key fallback : string) : string :=
  match env key with
  | Some v => if v =? EmptyString then fallback else v
  | None => fallback
  end.

Record t := {
  port : jsval;
  nodeEnv : string;
  isDevelopment : bool;
  appleMerchantId : string;
  appleMerchantCertPath : string;
  appleMerchantKeyPath : string;
  authorizeNetApiLoginId : string;
  authorizeNetTransactionKey : string;
  authorizeNetMode : string;
  authorizeNetBaseUrl : string;
  authorizeNetSignatureKey : string;
  paymentAmount : jsval
}.

(** [validate()]: [None] when it returns, the error when it throws. *)
Definition validate (this : t) : option Err.t :=
  let errors :=
    ((if appleMerchantId this =? EmptyString
      then ["APPLE_MERCHANT_ID is required"] else [])
     ++ (if authorizeNetApiLoginId this =? EmptyString
         then ["AUTHORIZE_NET_API_LOGIN_ID is required"] else [])
     ++ (if authorizeNetTransactionKey this =? EmptyString
         then ["AUTHORIZE_NET_TRANSACTION_KEY is required"] else []))%list in
  match errors with
  | [] => None
  | _ => Some (Err.new ("Configuration errors:" ++ newline ++ Str.join newline errors))
  end.

(** [getConfig()] *)
Definition getConfig (this : t) : jsval :=
  JObj [("port", port this);
        ("nodeEnv", JStr (nodeEnv this));
        ("isDevelopment", JBool (isDevelopment this));
        ("appleMerchantId", JStr (appleMerchantId this));
        ("appleMerchantCertPath", JStr (appleMerchantCertPath this));
        ("appleMerchantKeyPath", JStr (appleMerchantKeyPath this));
        ("authorizeNetApiLoginId",
         JStr (if authorizeNetApiLoginId this =? EmptyString then EmptyString else "***"));
        ("authorizeNetTransactionKey",
         JStr (if authorizeNetTransactionKey this =? EmptyString then EmptyString else "***"));
        ("authorizeNetMode", JStr (authorizeNetMode this));
        ("authorizeNetBaseUrl", JStr (authorizeNetBaseUrl this));
        ("paymentAmount", paymentAmount this)].

Section Platform.

(** Three functions of the platform, taken as they are: [parseInt(s, 10)],
    [parseFloat(s)] and [resolve(__dirname, '../../', path)]. *)
Variables (parseInt10 parseFloat : string -> jsval) (resolve : string -> string).

(** [resolvePath(path)] *)
Definition resolvePath (path : string) : string :=
  match path with
  | String "/" _ => path
  | _ => resolve path
  end.

(** [new Config()]: the object, or the error that [validate] throws. *)
Definition new (env : string -> option string) : Err.t + t :=
  let nodeEnv := env_or env "NODE_ENV" "development" in
  let authorizeNetMode := env_or env "AUTHORIZE_NET_MODE" "sandbox" in
  let this :=
    {| port := parseInt10 (env_or env "PORT" "3000");
       nodeEnv := nodeEnv;
       isDevelopment := nodeEnv =? "development";
       appleMerchantId := env_or env "APPLE_MERCHANT_ID" EmptyString;
       appleMerchantCertPath :=
         resolvePath (env_or env "APPLE_MERCHANT_CERT_PATH"
                        "./certs/apple-merchant-cert.pem");
       appleMerchantKeyPath :=
         resolvePath (env_or env "APPLE_MERCHANT_KEY_PATH"
                        "./certs/apple-merchant-key.pem");
       authorizeNetApiLoginId := env_or env "AUTHORIZE_NET_API_LOGIN_ID" EmptyString;
       authorizeNetTransactionKey :=
         env_or env "AUTHORIZE_NET_TRANSACTION_KEY" EmptyString;
       authorizeNetMode := authorizeNetMode;
       authorizeNetBaseUrl :=
         if authorizeNetMode =? "production"
         then "https://api.authorize.net/xml/v1/request.api"
         else "https://apitest.authorize.net/xml/v1/request.api";
       authorizeNetSignatureKey := env_or env "AUTHORIZE_NET_SIGNATURE_KEY" EmptyString;
       paymentAmount := parseFloat (env_or env "PAYMENT_AMOUNT" "10.00") |} in
  match validate this with
  | Some error => inl error
  | None => inr this
  end.

End Platform.

(** The settings that [validate] requires, in the order of its checks. *)
Definition required : list string :=
  ["APPLE_MERCHANT_ID"; "AUTHORIZE_NET_API_LOGIN_ID"; "AUTHORIZE_NET_TRANSACTION_KEY"].

(** The required settings that an environment leaves unset or empty. *)
Definition missing (env : string -> option string) : list string :=
  filter (fun key => env_or env key EmptyString =? EmptyString) required.

End Config.

(** The constructor of [AuthorizeNetService]. *)
Definition AuthorizeNetService_new (config : Config.t) : AuthorizeNetService :=
  {| apiLoginId := Config.authorizeNetApiLoginId config;
     transactionKey := Config.authorizeNetTransactionKey config;
     baseUrl := Config.authorizeNetBaseUrl config |}.

(** What the routes read of the configuration. *)
Definition config_of (c : Config.t) : config :=
  {| appleMerchantId := Config.appleMerchantId c;
     appleMerchantCertPath := Config.appleMerchantCertPath c;
     appleMerchantKeyPath := Config.appleMerchantKeyPath c |}.

(** [GET /config]: the argument of [res.json]. *)
Definition config_handler (c : Config.t) : jsval :=
  JObj [("merchantId", JStr (Config.appleMerchantId c));
        ("paymentAmount", Config.paymentAmount c)].

(* ================================================================== *)
(** * The webhook *)
(* ================================================================== *)

(** What [POST /webhook] reads of an Express request: the body and the two
    headers [X-Anet-Signature] and [X-Anet-Event-Id] ([undefined] when the
    header is not sent). *)
Record webhookRequest := {
  wh_body : jsval;
  wh_signature : jsval;
  wh_eventId : jsval
}.

(** [const { eventType, payload: eventPayload } = payload] *)
Definition destructure_payload (payload : jsval) : io (jsval * jsval) :=
  match payload with
  | JUndefined | JNull =>
      Throw (Err.TypeError
               ("Cannot destructure property 'eventType' of 'payload' as it is "
                  ++ nullish payload ++ "."))
  | _ => Ret (get_opt payload "eventType", get_opt payload "payload")
  end.

(** [POST /webhook]: the status and the argument of [res.json].  The first
    log reads [payload.eventType] outside the [try] block; the [switch] over
    the event type only logs. *)
Definition webhook_handler (req : webhookRequest) : io (Z * jsval) :=
  let payload := wh_body req in
  logged <- get_prop payload "eventType" ;;
  try_catch
    (event <- destructure_payload payload ;;
     let eventType := fst event in
     Ret (200%Z,
          JObj [("success", JBool true);
                ("message", JStr "Webhook received and processed");
                ("eventType", eventType);
                ("eventId", wh_eventId req)]))
    (fun error =>
       Ret (200%Z,
            JObj [("success", JBool false);
                  ("message", JStr "Webhook received but processing failed");
                  ("error", JStr (Err.message error))])).

(* ================================================================== *)
(** * The logger of the page *)
(* ================================================================== *)

(** The class [Logger] without the rendering of an entry into the page:
    the two buffers and what the methods do to them.  A time stamp is the
    time value that [toISOString] prints. *)
Module Logger.

Record entry := {
  timestamp : Z;
  level : jsval;
  message : jsval;
  data : jsval
}.

Record errorEntry := {
  e_timestamp : Z;
  e_message : jsval;
  e_code : jsval;
  e_type : jsval;
  e_stack : jsval;
  e_details : jsval;
  e_context : jsval;
  fullError : jsval
}.

Record t := {
  logs : list entry;
  errors : list errorEntry;
  maxLogs : nat;
  maxErrors : nat
}.

(** The constructor. *)
Definition new : t :=
  {| logs := []; errors := []; maxLogs := 500; maxErrors := 100 |}.

(** A parameter with the default value [{}]. *)
Definition or_empty_object (v : jsval) : jsval :=
  match v with JUndefined => JObj [] | _ => v end.

(** [push] followed by [if (length > max) shift()]. *)
Definition push_bounded {A} (max : nat) (buffer : list A) (x : A) : list A :=
  let buffer := (buffer ++ [x])%list in
  if Nat.ltb max (length buffer) then tl buffer else buffer.

(** [log(level, message, data = {})] *)
Definition log (this : t) (level message data : jsval) : io t :=
  DateNow (fun now =>
    let entry :=
      {| timestamp := now; level := level; message := message;
         data := or_empty_object data |} in
    Ret {| logs := push_bounded (maxLogs this) (logs this) entry;
           errors := errors this;
           maxLogs := maxLogs this;
           maxErrors := maxErrors this |}).

(** [v?.k] *)
Definition get_chained (v : jsval) (k : string) : jsval :=
  match v with
  | JUndefined | JNull => JUndefined
  | _ => get_opt v k
  end.

(** [error(error, context = {})] *)
Definition error (this : t) (error context : jsval) : io t :=
  DateNow (fun now =>
    message <- get_prop error "message" ;;
    let errorEntry :=
      {| e_timestamp := now;
         e_message := js_or message (JStr "Unknown error");
         e_code :=
           js_or (js_or (get_opt error "code")
                    (get_chained (get_opt error "error") "code"))
             (JStr "UNKNOWN_ERROR");
         e_type :=
           js_or (js_or (get_opt error "type")
                    (get_chained (get_opt error "error") "type"))
             (JStr "Error");
         e_stack := get_opt error "stack";
         e_details :=
           js_or (js_or (get_chained (get_opt error "error") "details")
                    (get_opt error "details"))
             (JObj []);
         e_context := or_empty_object context;
         fullError := error |} in
    log {| logs := logs this;
           errors := push_bounded (maxErrors this) (errors this) errorEntry;
           maxLogs := maxLogs this;
           maxErrors := maxErrors this |}
      (JStr "ERROR") (e_message errorEntry)
      (JObj [("code", e_code errorEntry);
             ("type", e_type errorEntry);
             ("details", e_details errorEntry);
             ("context", e_context errorEntry)])).

Definition info (this : t) (message data : jsval) : io t :=
  log this (JStr "INFO") message (or_empty_object data).

(** The template literal of two values with a space between them. *)
Definition spaced (a b : jsval) : io string :=
  match to_String a, to_String b with
  | Some x, Some y => Ret (x ++ " " ++ y)
  | _, _ => Throw (Err.TypeError cannot_convert)
  end.

Definition request (this : t) (method url payload : jsval) : io t :=
  message <- spaced method url ;;
  log this (JStr "REQUEST") (JStr message)
    (JObj [("payload", or_empty_object payload)]).

Definition response (this : t) (status url data : jsval) : io t :=
  message <- spaced status url ;;
  log this (JStr "RESPONSE") (JStr message)
    (JObj [("data", or_empty_object data)]).

Definition event (this : t) (eventName data : jsval) : io t :=
  log this (JStr "EVENT") eventName (or_empty_object data).

Definition warn (this : t) (message data : jsval) : io t :=
  log this (JStr "WARN") message (or_empty_object data).

Definition getLogs (this : t) : list entry := logs this.

Definition clearLogs (this : t) : t :=
  {| logs := []; errors := []; maxLogs := maxLogs this; maxErrors := maxErrors this |}.

Definition clearErrors (this : t) : t :=
  {| logs := logs this; errors := []; maxLogs := maxLogs this;
     maxErrors := maxErrors this |}.

(** A call of one of the methods that change the buffers. *)
Inductive call :=
| Log (level message data : jsval)
| Error (error context : jsval)
| Info (message data : jsval)
| Request (method url payload : jsval)
| Response (status url data : jsval)
| Event (eventName data : jsval)
| Warn (message data : jsval)
| ClearLogs
| ClearErrors.

Definition perform (this : t) (c : call) : io t :=
  match c with
  | Log l m d => log this l m d
  | Error e c => error this e c
  | Info m d => info this m d
  | Request m u p => request this m u p
  | Response s u d => response this s u d
  | Event n d => event this n d
  | Warn m d => warn this m d
  | ClearLogs => Ret (clearLogs this)
  | ClearErrors => Ret (clearErrors this)
  end.

(** The loggers that a sequence of calls makes of the new logger; a call
    that throws leaves the logger as it was. *)
Fixpoint after (w : world) (this : t) (calls : list call) : t :=
  match calls with
  | [] => this
  | c :: rest =>
      match outcome w (perform this c) with
      | inr this' => after w this' rest
      | inl _ => after w this rest
      end
  end.

(** A logger whose buffers are within their bounds. *)
Definition bounded (this : t) : Prop :=
  length (logs this) <= maxLogs this /\ length (errors this) <= maxErrors this.

End Logger.

(* ================================================================== *)
(** * The page: what it sends to the server *)
(* ================================================================== *)

(** [src/app.js]: the bodies of the two requests of the page, as
    [processPayment] and [validateMerchant] build them. *)
Module Page.

(** The token built "so all required Apple Pay fields survive
    serialization": [token?.paymentData?.data] and its three siblings. *)
Definition paymentTokenForServer (token : jsval) : jsval :=
  let paymentData := Logger.get_chained token "paymentData" in
  JObj [("paymentData",
         JObj [("data", Logger.get_chained paymentData "data");
               ("signature", Logger.get_chained paymentData "signature");
               ("header", Logger.get_chained paymentData "header");
               ("version", Logger.get_chained paymentData "version")])].

(** The object that [processPayment] passes to [JSON.stringify], with the
    amount and the user id of the page and the time of the call. *)
Definition process_request (token : jsval) (paymentAmount : Z) (userId : string)
  (now : Z) : jsval :=
  JObj [("paymentToken", paymentTokenForServer token);
        ("amount", JNum paymentAmount);
        ("userId", JStr userId);
        ("orderInfo",
         JObj [("orderId", JStr ("ORDER-" ++ Str.of_Z now));
               ("description", JStr "Apple Pay POC Payment")])].

(** The body of the request to [POST /process]. *)
Definition process_body (token : jsval) (paymentAmount : Z) (userId : string)
  (now : Z) : string :=
  Json.stringify (process_request token paymentAmount userId now).

(** A property that [JSON.stringify] prints. *)
Definition printed (kv : string * jsval) : bool :=
  match snd kv with JUndefined => false | _ => true end.

(** The [paymentData] that the server reads in the body. *)
Definition received_paymentData (token : jsval) : jsval :=
  let paymentData := Logger.get_chained token "paymentData" in
  JObj (filter printed
          [("data", Logger.get_chained paymentData "data");
           ("signature", Logger.get_chained paymentData "signature");
           ("header", Logger.get_chained paymentData "header");
           ("version", Logger.get_chained paymentData "version")]).

(** A wallet token whose four fields are absent or printed in full. *)
Definition sendable (token : jsval) : Prop :=
  let paymentData := Logger.get_chained token "paymentData" in
  forall k, In k ["data"; "signature"; "header"; "version"] ->
            Logger.get_chained paymentData k = JUndefined
            \/ Json.serializable (Logger.get_chained paymentData k) = true.

End Page.

(* ================================================================== *)
(** * Facts about strings *)
(* ================================================================== *)

Module StrFacts.
Import Str.

Lemma app_nil_r (s : string) : s ++ EmptyString = s.
Proof. induction s; simpl; congruence. Qed.

Lemma app_assoc (a b c : string) : (a ++ b) ++ c = a ++ b ++ c.
Proof. induction a; simpl; congruence. Qed.

Lemma length_app (a b : string) :
  String.length (a ++ b) = String.length a + String.length b.
Proof. induction a; simpl; congruence. Qed.

Lemma count_app (c : ascii) (a b : string) :
  count c (a ++ b) = count c a + count c b.
Proof. induction a; simpl; lia. Qed.

Lemma length_take (n : nat) (s : string) :
  String.length (take n s) = Nat.min n (String.length s).
Proof.
  revert s; induction n; intros [|c s]; simpl; auto.
Qed.

Lemma take_drop (n : nat) (s : string) : take n s ++ drop n s = s.
Proof.
  revert s; induction n; intros [|c s]; simpl; auto.
  now rewrite IHn.
Qed.

Lemma take_all (n : nat) (s : string) :
  String.length s <= n -> take n s = s.
Proof.
  revert s; induction n; intros [|c s]; simpl; auto; try lia.
  intros H. f_equal. apply IHn. lia.
Qed.

Lemma occurs_here (n a b : string) : occurs n (a ++ n ++ b).
Proof. now exists a, b. Qed.

Lemma occurs_app_r (n x y : string) : occurs n y -> occurs n (x ++ y).
Proof.
  intros (p & q & ->). exists (x ++ p), q. now rewrite app_assoc.
Qed.


Lemma strip_prefix_spec (p s r : string) :
  strip_prefix p s = Some r <-> s = p ++ r.
Proof.
  revert s; induction p as [|a p IH]; intros s; simpl.
  - split; congruence.
  - destruct s as [|b s]; [split; discriminate|].
    destruct (Ascii.eqb_spec a b) as [->|ne].
    + rewrite IH. split; congruence.
    + split; [discriminate|]. intros E; inversion E; congruence.
Qed.


End StrFacts.

(* ================================================================== *)
(** * Escaping *)
(* ================================================================== *)

Section Escaping.
Import Str StrFacts.

Lemma replace_all_app (c : ascii) (by_ a b : string) :
  replace_all c by_ (a ++ b) = replace_all c by_ a ++ replace_all c by_ b.
Proof.
  induction a as [|x a IH]; simpl; auto.
  destruct (Ascii.eqb x c); simpl; rewrite IH; auto using app_assoc.
Qed.

(** The five passes of the source amount to the one pass of the
    specification: no pass rewrites what an earlier pass produced. *)
Lemma five_passes (s : string) :
  replace_all "'" "&apos;"
    (replace_all dquote "&quot;"
       (replace_all ">" "&gt;"
          (replace_all "<" "&lt;" (replace_all "&" "&amp;" s))))
  = escaped_text s.
Proof.
  induction s as [|c s IH]; [reflexivity|].
  cbn [replace_all escaped_text].
  unfold entity_of.
  destruct (Ascii.eqb_spec c "&") as [->|n1].
  { rewrite !replace_all_app, IH. reflexivity. }
  cbn [replace_all].
  destruct (Ascii.eqb_spec c "<") as [->|n2].
  { rewrite !replace_all_app, IH. reflexivity. }
  cbn [replace_all].
  destruct (Ascii.eqb_spec c ">") as [->|n3].
  { rewrite !replace_all_app, IH. reflexivity. }
  cbn [replace_all].
  destruct (Ascii.eqb_spec c dquote) as [->|n4].
  { rewrite !replace_all_app, IH. reflexivity. }
  cbn [replace_all].
  destruct (Ascii.eqb_spec c "'") as [->|n5].
  { rewrite IH. reflexivity. }
  rewrite IH. reflexivity.
Qed.

Lemma escapeXml_spec (v : jsval) :
  escapeXml v
  = if truthy v then option_map escaped_text (to_String v) else Some EmptyString.
Proof.
  unfold escapeXml. destruct (truthy v); cbn [negb]; [|reflexivity].
  destruct (to_String v); cbn [option_map]; [|reflexivity].
  now rewrite five_passes.
Qed.

(** What [escapeXml] returns is the escaped form of a text. *)
Lemma escapeXml_Some (v : jsval) (e : string) :
  escapeXml v = Some e -> exists s, e = escaped_text s.
Proof.
  rewrite escapeXml_spec. destruct (truthy v).
  - destruct (to_String v) as [s|]; [|discriminate].
    intros H; inversion H. now exists s.
  - intros H; inversion H. now exists EmptyString.
Qed.

Lemma count_escaped_text (c : ascii) (s : string) :
  reserved c = true -> count c (escaped_text s) = 0.
Proof.
  intros R. induction s as [|x s IH]; [reflexivity|].
  cbn [escaped_text]. rewrite count_app, IH, Nat.add_0_r.
  unfold entity_of.
  repeat match goal with
         | |- context [if Ascii.eqb x ?k then _ else _] =>
             destruct (Ascii.eqb_spec x k) as [->|?]
         end;
    try (unfold reserved in R;
         repeat match type of R with
                | context [Ascii.eqb c ?k] =>
                    destruct (Ascii.eqb_spec c k) as [->|?]; [reflexivity|]
                end; discriminate).
  simpl. unfold reserved in R.
  destruct (Ascii.eqb_spec c x) as [->|?]; auto.
  repeat match type of R with
         | context [Ascii.eqb x ?k] =>
             destruct (Ascii.eqb_spec x k) as [->|?]; [congruence|]
         end.
  discriminate.
Qed.

Lemma count_escapeXml (c : ascii) (v : jsval) (e : string) :
  reserved c = true -> escapeXml v = Some e -> count c e = 0.
Proof.
  intros R H. destruct (escapeXml_Some v e H) as [s ->].
  now apply count_escaped_text.
Qed.

Lemma entities_only_escaped_text (s tail : string) :
  entities_only (escaped_text s ++ tail) = entities_only tail.
Proof.
  induction s as [|x s IH]; [reflexivity|].
  cbn [escaped_text]. rewrite app_assoc. unfold entity_of.
  repeat match goal with
         | |- context [if Ascii.eqb x ?k then _ else _] =>
             destruct (Ascii.eqb_spec x k) as [->|?]
         end; try (simpl; exact IH).
  simpl. destruct (Ascii.eqb_spec x "&"); [congruence|]. exact IH.
Qed.

Lemma entities_only_escapeXml (v : jsval) (e tail : string) :
  escapeXml v = Some e -> entities_only (e ++ tail) = entities_only tail.
Proof.
  intros H. destruct (escapeXml_Some v e H) as [s ->].
  apply entities_only_escaped_text.
Qed.

End Escaping.

Section RequestDocument.
Import Str StrFacts.

Lemma entities_only_plain (a tail : string) :
  mem "&" a = false -> entities_only (a ++ tail) = entities_only tail.
Proof.
  induction a as [|x a IH]; [reflexivity|].
  cbn [mem append entities_only].
  destruct (Ascii.eqb_spec "&"%char x) as [<-|ne]; [discriminate|].
  cbn [orb]. intros H. rewrite (IH H).
  destruct (Ascii.eqb_spec x "&"); [congruence|reflexivity].
Qed.



(** [escapeXml] throws exactly on a truthy value that [String] cannot
    convert. *)
Lemma escapeXml_None (v : jsval) :
  escapeXml v = None <-> truthy v = true /\ converts v = false.
Proof.
  unfold escapeXml, converts. destruct (truthy v); cbn [negb].
  - destruct (to_String v); split; try discriminate; auto.
    intros [_ H]; discriminate H.
  - split; [discriminate|intros [H _]; discriminate H].
Qed.

Lemma escapeXml_text (s : string) : escapeXml (JStr s) = Some (escaped_text s).
Proof.
  rewrite escapeXml_spec. cbn [truthy to_String option_map].
  destruct (String.eqb_spec s EmptyString) as [->|]; reflexivity.
Qed.

End RequestDocument.

Lemma Some_inj {A} (a b : A) : Some a = Some b -> a = b.
Proof. congruence. Qed.

(** The document that is built, as the template with the eighteen texts
    that [escapeXml] returned. *)
Ltac built H :=
  unfold createXmlRequest in H; cbv zeta in H;
  repeat match type of H with
         | match escapeXml ?v with Some _ => _ | None => None end = Some _ =>
             let e := fresh "e" in
             let E := fresh "E" in
             destruct (escapeXml v) as [e|] eqn:E; [|discriminate H]
         end;
  apply Some_inj in H; subst.

(** The document is built when every interpolated value is falsy or can be
    converted, and only then. *)
Lemma createXmlRequest_built (this : AuthorizeNetService) (td : transactionData) :
  (exists doc, createXmlRequest this td = Some doc)
  <-> forallb printable (interpolated this td) = true.
Proof.
  assert (K : forall v, printable v = true <-> exists e, escapeXml v = Some e).
  { intros v. unfold printable. destruct (escapeXml v) as [e|] eqn:E.
    - split; [eauto|intros _].
      destruct (truthy v) eqn:T; [|reflexivity]. cbn [negb orb].
      destruct (converts v) eqn:C; [reflexivity|].
      assert (N : escapeXml v = None) by (apply escapeXml_None; auto). congruence.
    - apply escapeXml_None in E as [-> ->]. split; [discriminate|].
      intros [e H]; discriminate H. }
  unfold interpolated; cbv zeta. cbn [forallb]. rewrite andb_true_r.
  rewrite !andb_true_iff, !K. split.
  - intros [doc H]. unfold createXmlRequest in H; cbv zeta in H.
    repeat match type of H with
           | match escapeXml ?v with Some _ => _ | None => None end = Some _ =>
               let e := fresh "e" in
               let E := fresh "E" in
               destruct (escapeXml v) as [e|] eqn:E; [|discriminate H]
           end.
    repeat split; eauto.
  - intros H. unfold createXmlRequest; cbv zeta.
    repeat match type of H with
           | _ /\ _ => let X := fresh "X" in destruct H as [X H]
           end.
    repeat match goal with
           | X : exists e, escapeXml ?v = Some e |- _ =>
               let e := fresh "e" in
               let E := fresh "E" in
               destruct X as [e E]; rewrite E
           end.
    eauto.
Qed.


(** C5. Every value that [createXmlRequest] interpolates goes through
    [escapeXml], which replaces each of the five reserved characters of the
    converted value by its entity; so whatever the field values are, the
    document that is built has the 55 [<], the 55 [>] and the 6 double
    quotes of the template and no others, no apostrophe, and no ampersand
    that does not start an entity. *)
Theorem createXmlRequest_escapes_every_field :
  forall (this : AuthorizeNetService) (td : transactionData),
    (forall v, escapeXml v
               = if truthy v then option_map escaped_text (to_String v)
                 else Some EmptyString)
    /\ (forall doc,
          createXmlRequest this td = Some doc ->
          Str.count "<" doc = 55
          /\ Str.count ">" doc = 55
          /\ Str.count Str.dquote doc = 6
          /\ Str.count "'" doc = 0
          /\ entities_only doc = true).
Proof.
  intros this td. split; [exact escapeXml_spec|].
  intros doc H. built H.
  repeat split.
  1-4: rewrite !StrFacts.count_app;
       repeat match goal with
              | E : escapeXml ?v = Some ?e |- context [Str.count ?c ?e] =>
                  rewrite (count_escapeXml c v e eq_refl E)
              end;
       reflexivity.
  repeat first
    [ match goal with
      | E : escapeXml ?v = Some ?e |- context [entities_only (?e ++ ?tail)] =>
          rewrite (entities_only_escapeXml v e tail E)
      end
    | rewrite entities_only_plain by reflexivity ].
  reflexivity.
Qed.

(** A document with markup in every field of the order. *)
Lemma createXmlRequest_escapes_every_field_witness :
  exists doc,
    createXmlRequest Scenario.svc Scenario.marked_up = Some doc
    /\ Str.count "<" doc = 55
    /\ Str.count "'" doc = 0
    /\ entities_only doc = true.
Proof.
  destruct (createXmlRequest Scenario.svc Scenario.marked_up) as [doc|] eqn:H;
    [|vm_compute in H; discriminate H].
  exists doc. split; [reflexivity|].
  destruct (proj2 (createXmlRequest_escapes_every_field Scenario.svc
                     Scenario.marked_up) doc H) as (L & _ & _ & A & E).
  auto.
Defined.

(** A text with an open content, found between the ends of two literals. *)
Lemma occurs_between (a v b l l' q rest : string) :
  Str.drop (String.length l - String.length a) l = a ->
  Str.strip_prefix b l' = Some q ->
  Str.occurs (a ++ v ++ b) (l ++ v ++ l' ++ rest).
Proof.
  intros Ha Hb. apply StrFacts.strip_prefix_spec in Hb. subst l'.
  exists (Str.take (String.length l - String.length a) l), (q ++ rest).
  rewrite <- (StrFacts.take_drop (String.length l - String.length a) l) at 1.
  rewrite Ha. now rewrite !StrFacts.app_assoc.
Qed.

(** Finds an element with an open content in a document that is a chain of
    appends. *)
Ltac find_open_element :=
  first
    [ solve [ eapply occurs_between; reflexivity ]
    | apply StrFacts.occurs_app_r; find_open_element ].

(** Takes the document apart, one interpolation after the other. *)
Ltac interpolations H :=
  repeat first
    [ progress cbv beta iota in H
    | match type of H with
      | match escapeXml ?x with Some _ => _ | None => None end = Some _ =>
          let e := fresh "e" in
          destruct (escapeXml x) as [e|]; [|discriminate H]
      end ].




(* ================================================================== *)
(** * Running computations *)
(* ================================================================== *)

Section Running.
Context {A B : Type} (w : world).

Lemma run_bind (m : io A) (f : A -> io B) :
  run w (bind m f)
  = match run w m with
    | (t, inl e) => (t, inl e)
    | (t, inr a) => let (t', r) := run w (f a) in ((t ++ t')%list, r)
    end.
Proof.
  induction m as [a|e|p k IH|u ky c b t k IH|u b t k IH|k IH|s k IH]; simpl.
  - now destruct (run w (f a)).
  - reflexivity.
  - rewrite IH. destruct (run w (k (files w p))) as [t' [e|a]]; auto.
    now destruct (run w (f a)).
  - rewrite IH. destruct (run w (k (wallet w u b))) as [t' [e|a]]; auto.
    destruct (run w (f a)). now destruct (wallet w u b).
  - rewrite IH. destruct (run w (k (gateway w u b))) as [t' [e|a]]; auto.
    now destruct (run w (f a)).
  - rewrite IH. destruct (run w (k (clock w))) as [t' [e|a]]; auto.
    now destruct (run w (f a)).
  - apply IH.
Qed.

Lemma run_try_catch (m : io A) (h : Err.t -> io A) :
  run w (try_catch m h)
  = match run w m with
    | (t, inr a) => (t, inr a)
    | (t, inl e) => let (t', r) := run w (h e) in ((t ++ t')%list, r)
    end.
Proof.
  induction m as [a|e|p k IH|u ky c b t k IH|u b t k IH|k IH|s k IH]; simpl.
  - reflexivity.
  - now destruct (run w (h e)).
  - rewrite IH. destruct (run w (k (files w p))) as [t' [e|a]]; auto.
    now destruct (run w (h e)).
  - rewrite IH. destruct (run w (k (wallet w u b))) as [t' [e|a]]; auto.
    destruct (run w (h e)). now destruct (wallet w u b).
  - rewrite IH. destruct (run w (k (gateway w u b))) as [t' [e|a]]; auto.
    now destruct (run w (h e)).
  - rewrite IH. destruct (run w (k (clock w))) as [t' [e|a]]; auto.
    now destruct (run w (h e)).
  - apply IH.
Qed.

End Running.

Lemma run_surj {A} (w : world) (m : io A) : run w m = (trace w m, outcome w m).
Proof. unfold trace, outcome. now destruct (run w m). Qed.

(* ================================================================== *)
(** * Outcome classification *)
(* ================================================================== *)

Section Classification.

Lemma classify_not_Ok (amount : jsval) (p : parsedResponse) :
  resultCode (messages_ p) <> Some "Ok" ->
  classify amount p = Throw (envelope_failure p).
Proof.
  unfold classify. destruct (resultCode (messages_ p)) as [rc|]; auto.
  destruct (String.eqb_spec rc "Ok") as [->|]; [congruence|auto].
Qed.

Lemma classify_declined (amount : jsval) (p : parsedResponse) :
  resultCode (messages_ p) = Some "Ok" ->
  responseCode (transactionResponse_ p) <> Some "1" ->
  classify amount p = Throw (declined_failure p).
Proof.
  unfold classify. intros -> H. simpl.
  destruct (responseCode (transactionResponse_ p)) as [rc|]; auto.
  destruct (String.eqb_spec rc "1") as [->|]; [congruence|auto].
Qed.

Lemma classify_approved (amount : jsval) (p : parsedResponse) :
  resultCode (messages_ p) = Some "Ok" ->
  responseCode (transactionResponse_ p) = Some "1" ->
  classify amount p
  = Ret {| success := true;
           transactionId := transId (transactionResponse_ p);
           res_authCode := authCode (transactionResponse_ p);
           res_responseCode := Some "1";
           res_amount := amount;
           res_details := transactionResponse_ p |}.
Proof. unfold classify. now intros -> ->. Qed.

(** The [catch] block leaves both failures of the classification as they
    are: their error lists are already the concatenation it would build. *)
Lemma enhance_envelope_failure (this : AuthorizeNetService) (p : parsedResponse) :
  enhance_error this (envelope_failure p) = Ret (envelope_failure p).
Proof.
  unfold enhance_error, envelope_failure. simpl.
  destruct (allErrors_of (or_empty (message (messages_ p)))
              (or_empty (errors (transactionResponse_ p)))) eqn:E; reflexivity.
Qed.

Lemma enhance_declined_failure (this : AuthorizeNetService) (p : parsedResponse) :
  enhance_error this (declined_failure p) = Ret (declined_failure p).
Proof.
  unfold enhance_error, declined_failure. simpl.
  destruct (or_empty (errors (transactionResponse_ p))) eqn:E; reflexivity.
Qed.

Lemma declined_is_not_envelope (p p' : parsedResponse) :
  declined_failure p <> envelope_failure p'.
Proof.
  intros H.
  assert (E : option_map AuthorizeNetError.messageErrors
                (Err.authorizeNetError (declined_failure p))
              = option_map AuthorizeNetError.messageErrors
                  (Err.authorizeNetError (envelope_failure p')))
    by now rewrite H.
  discriminate E.
Qed.

(** A failed [catch] block and a rethrown error are both failures. *)
Lemma rethrow_fails (this : AuthorizeNetService) (w : world) (e : Err.t) :
  exists e', run w (error' <- enhance_error this e ;; Throw (A:=transactionResult) error')
             = ([], inl e').
Proof.
  unfold enhance_error.
  destruct (Err.response e) as [r|].
  - unfold parseXmlResponse. destruct (ax_data r); simpl; eauto.
  - destruct (Err.authorizeNetError e) as [a|]; simpl; eauto.
    destruct (AuthorizeNetError.errors a); simpl; eauto.
Qed.

End Classification.

(** The service, run in a world whose request object and document are built
    and whose gateway answers with the document [xml]. *)
Lemma process_run (this : AuthorizeNetService) (req : paymentRequest) (w : world)
  (td : transactionData) (doc xml : string) :
  outcome w (build_transactionData req) = inr td ->
  createXmlRequest this td = Some doc ->
  gateway w (baseUrl this) doc = AxResolved (JStr xml) ->
  run w (processApplePayTransaction this req)
  = let (t, r) := run w (try_catch (classify (req_amount req) (parse_document xml))
                           (fun error =>
                              error' <- enhance_error this error ;; Throw error')) in
    ((trace w (build_transactionData req)
        ++ GatewayRequest (baseUrl this) doc :: t)%list, r).
Proof.
  intros Hb Hd Hg. unfold processApplePayTransaction.
  rewrite !run_try_catch, run_bind, (run_surj w (build_transactionData req)), Hb, Hd.
  cbn [run]. rewrite Hg. cbn [parseXmlResponse bind].
  destruct (run w (classify (req_amount req) (parse_document xml))) as [t [e|r]].
  - destruct (run w (error' <- enhance_error this e;; Throw error')) as [t' r'].
    now rewrite <- List.app_assoc.
  - reflexivity.
Qed.

(** The service, run on a request object whose document cannot be built:
    the TypeError of the conversion is thrown on, and nothing is sent. *)
Lemma process_not_built (this : AuthorizeNetService) (req : paymentRequest)
  (w : world) (td : transactionData) :
  outcome w (build_transactionData req) = inr td ->
  createXmlRequest this td = None ->
  run w (processApplePayTransaction this req)
  = (trace w (build_transactionData req), inl (Err.TypeError cannot_convert)).
Proof.
  intros Hb Hd. unfold processApplePayTransaction.
  rewrite !run_try_catch, run_bind, (run_surj w (build_transactionData req)), Hb, Hd.
  cbn. now rewrite !List.app_nil_r.
Qed.

(** C1. When the envelope-level result code of the parsed response is not
    the string [Ok], [processApplePayTransaction] returns no result at all,
    whatever the transaction-level response code is; once the request was
    sent it throws the failure whose error list is the envelope-level
    messages followed by the transaction-level errors. *)
Theorem envelope_failure_never_succeeds :
  forall (this : AuthorizeNetService) (req : paymentRequest) (w : world)
         (xml : string),
    (forall url body, gateway w url body = AxResolved (JStr xml)) ->
    resultCode (messages_ (parse_document xml)) <> Some "Ok" ->
    (forall r, outcome w (processApplePayTransaction this req) <> inr r)
    /\ (forall td doc,
          outcome w (build_transactionData req) = inr td ->
          createXmlRequest this td = Some doc ->
          exists a,
            outcome w (processApplePayTransaction this req)
            = inl (envelope_failure (parse_document xml))
            /\ Err.authorizeNetError (envelope_failure (parse_document xml)) = Some a
            /\ AuthorizeNetError.errors a
               = (map OfMessage (or_empty (message (messages_ (parse_document xml))))
                  ++ map OfTransaction
                       (or_empty (errors (transactionResponse_ (parse_document xml)))))%list).
Proof.
  intros this req w xml Hg Hrc.
  assert (Hok : forall td doc,
             outcome w (build_transactionData req) = inr td ->
             createXmlRequest this td = Some doc ->
             outcome w (processApplePayTransaction this req)
             = inl (envelope_failure (parse_document xml))).
  { intros td doc Hb Hd. unfold outcome at 1.
    rewrite (process_run this req w td doc xml Hb Hd (Hg _ _)).
    rewrite (classify_not_Ok _ _ Hrc). cbn [try_catch].
    rewrite enhance_envelope_failure. reflexivity. }
  split.
  - intros r. destruct (outcome w (build_transactionData req)) as [e|td] eqn:Hb.
    + unfold outcome, processApplePayTransaction.
      rewrite run_try_catch, run_bind, (run_surj w (build_transactionData req)), Hb.
      destruct (rethrow_fails this w e) as [e' ->]. discriminate.
    + destruct (createXmlRequest this td) as [doc|] eqn:Hd.
      * rewrite (Hok td doc eq_refl Hd). discriminate.
      * unfold outcome. rewrite (process_not_built this req w td Hb Hd). discriminate.
  - intros td doc Hb Hd. eexists. split; [exact (Hok td doc Hb Hd)|]. split; reflexivity.
Qed.

Lemma envelope_failure_never_succeeds_witness :
  exists a,
    outcome (Scenario.stub Scenario.rejected_xml UpTimeout)
      (processApplePayTransaction Scenario.svc (Scenario.request_of (JObj [])))
    = inl (envelope_failure (parse_document Scenario.rejected_xml))
    /\ Err.authorizeNetError (envelope_failure (parse_document Scenario.rejected_xml))
       = Some a
    /\ AuthorizeNetError.errors a
       = (map OfMessage
            (or_empty (message (messages_ (parse_document Scenario.rejected_xml))))
          ++ map OfTransaction
               (or_empty
                  (errors (transactionResponse_ (parse_document Scenario.rejected_xml)))))%list.
Proof.
  destruct (outcome (Scenario.stub Scenario.rejected_xml UpTimeout)
              (build_transactionData (Scenario.request_of (JObj []))))
    as [e|td] eqn:Hb; [vm_compute in Hb; discriminate Hb|].
  destruct (createXmlRequest Scenario.svc td) as [doc|] eqn:Hd;
    [|vm_compute in Hb; injection Hb as Hb; subst td; vm_compute in Hd;
      discriminate Hd].
  refine (proj2 (envelope_failure_never_succeeds Scenario.svc
                   (Scenario.request_of (JObj []))
                   (Scenario.stub Scenario.rejected_xml UpTimeout)
                   Scenario.rejected_xml (fun _ _ => eq_refl) _) td doc Hb Hd).
  vm_compute. discriminate.
Defined.

(** C2. When the envelope-level result code is [Ok] and the
    transaction-level response code is not the string [1],
    [processApplePayTransaction], once the request was sent, throws the
    declined failure: it carries the response code and the transaction-level
    errors, and it is none of the envelope-level failures. *)
Theorem declined_is_a_distinct_failure :
  forall (this : AuthorizeNetService) (req : paymentRequest) (w : world)
         (xml : string) (td : transactionData) (doc : string),
    (forall url body, gateway w url body = AxResolved (JStr xml)) ->
    outcome w (build_transactionData req) = inr td ->
    createXmlRequest this td = Some doc ->
    resultCode (messages_ (parse_document xml)) = Some "Ok" ->
    responseCode (transactionResponse_ (parse_document xml)) <> Some "1" ->
    outcome w (processApplePayTransaction this req)
    = inl (declined_failure (parse_document xml))
    /\ Err.message (declined_failure (parse_document xml)) = "Transaction was declined"
    /\ (exists a,
          Err.authorizeNetError (declined_failure (parse_document xml)) = Some a
          /\ AuthorizeNetError.responseCode a
             = responseCode (transactionResponse_ (parse_document xml))
          /\ AuthorizeNetError.errors a
             = map OfTransaction
                 (or_empty (errors (transactionResponse_ (parse_document xml)))))
    /\ (forall p, declined_failure (parse_document xml) <> envelope_failure p).
Proof.
  intros this req w xml td doc Hg Hb Hd Hrc Hcode. repeat split.
  - unfold outcome. rewrite (process_run this req w td doc xml Hb Hd (Hg _ _)).
    rewrite (classify_declined _ _ Hrc Hcode). cbn [try_catch].
    rewrite enhance_declined_failure. reflexivity.
  - eexists. repeat split.
  - intros p. apply declined_is_not_envelope.
Qed.

(** Scenario B: the stub answers [Ok], response code 2 and the one error
    (2, Declined). *)
Lemma declined_is_a_distinct_failure_witness :
  outcome (Scenario.stub Scenario.declined_xml UpTimeout)
    (processApplePayTransaction Scenario.svc (Scenario.request_of (JObj [])))
  = inl (declined_failure (parse_document Scenario.declined_xml))
  /\ option_map AuthorizeNetError.errors
       (Err.authorizeNetError (declined_failure (parse_document Scenario.declined_xml)))
     = Some [OfTransaction {| errorCode := "2"; errorText := "Declined" |}]
  /\ option_map AuthorizeNetError.responseCode
       (Err.authorizeNetError (declined_failure (parse_document Scenario.declined_xml)))
     = Some (Some "2").
Proof.
  destruct (outcome (Scenario.stub Scenario.declined_xml UpTimeout)
              (build_transactionData (Scenario.request_of (JObj []))))
    as [e|td] eqn:Hb; [vm_compute in Hb; discriminate Hb|].
  destruct (createXmlRequest Scenario.svc td) as [doc|] eqn:Hd;
    [|vm_compute in Hb; injection Hb as Hb; subst td; vm_compute in Hd;
      discriminate Hd].
  refine (conj (proj1 (declined_is_a_distinct_failure Scenario.svc
                         (Scenario.request_of (JObj []))
                         (Scenario.stub Scenario.declined_xml UpTimeout)
                         Scenario.declined_xml td doc (fun _ _ => eq_refl)
                         Hb Hd _ _)) _).
  - vm_compute. reflexivity.
  - vm_compute. discriminate.
  - split; vm_compute; reflexivity.
Defined.

(** Scenario A: the stub approves. *)
Example scenario_approved :
  outcome (Scenario.stub Scenario.approved_xml UpTimeout)
    (processApplePayTransaction Scenario.svc (Scenario.request_of (JObj [])))
  = inr {| success := true;
           transactionId := Some "T1";
           res_authCode := Some "AUTH1";
           res_responseCode := Some "1";
           res_amount := JNum 10;
           res_details :=
             {| responseCode := Some "1"; authCode := Some "AUTH1";
                transId := Some "T1"; errors := None |} |}.
Proof. vm_compute. reflexivity. Qed.

(* ================================================================== *)
(** * The request object *)
(* ================================================================== *)

Section Outcomes.
Context {A B : Type} (w : world).

Lemma outcome_bind (m : io A) (f : A -> io B) :
  outcome w (bind m f)
  = match outcome w m with
    | inl e => inl e
    | inr a => outcome w (f a)
    end.
Proof.
  unfold outcome. rewrite run_bind.
  destruct (run w m) as [t [e|a]]; cbn [fst snd]; auto. destruct (run w (f a)); reflexivity.
Qed.

Lemma outcome_bind_inr (m : io A) (f : A -> io B) (b : B) :
  outcome w (bind m f) = inr b ->
  exists a, outcome w m = inr a /\ outcome w (f a) = inr b.
Proof.
  rewrite outcome_bind. destruct (outcome w m) as [e|a]; [discriminate|].
  intros H. exists a. now split.
Qed.

Lemma trace_bind (m : io A) (f : A -> io B) :
  trace w (bind m f)
  = match outcome w m with
    | inl e => trace w m
    | inr a => (trace w m ++ trace w (f a))%list
    end.
Proof.
  unfold trace, outcome. rewrite run_bind.
  destruct (run w m) as [t [e|a]]; cbn [fst snd]; auto. destruct (run w (f a)); reflexivity.
Qed.

End Outcomes.

Lemma get_prop_inr (w : world) (v : jsval) (k : string) (x : jsval) :
  outcome w (get_prop v k) = inr x -> x = get_opt v k.
Proof. destruct v; simpl; intros H; inversion H; reflexivity. Qed.

Lemma get_prop_trace (w : world) (v : jsval) (k : string) :
  trace w (get_prop v k) = [].
Proof. now destruct v. Qed.

Tactic Notation "step" hyp(H) "as" ident(a) ident(Ha) :=
  apply outcome_bind_inr in H; destruct H as (a & Ha & H).

(** What [build_transactionData] puts into the reference id and the
    invoice number. *)
Lemma build_transactionData_ids (req : paymentRequest) (w : world)
  (td : transactionData) :
  outcome w (build_transactionData req) = inr td ->
  let oi := match orderInfo req with JUndefined => JObj [] | o => o end in
  outcome w (if truthy (get_opt oi "invoiceNumber")
             then slice_0_20 (get_opt oi "invoiceNumber")
             else DateNow (fun now => Ret (JStr (Str.take 20 ("INV-" ++ Str.of_Z now)))))
  = inr (invoiceNumber td)
  /\ refId td = (if truthy (get_opt oi "orderId") then get_opt oi "orderId"
                 else JStr ("ORDER-" ++ Str.of_Z (clock w))).
Proof.
  intros H oi. unfold build_transactionData in H. fold oi in H.
  step H as tok Htok. step H as pd Hpd.
  destruct (truthy pd); [|discriminate H]. cbn [negb] in H.
  step H as value Hvalue. step H as inv0 Hinv0.
  apply get_prop_inr in Hinv0. subst inv0.
  step H as inv Hinv. step H as cid Hcid. step H as oid Hoid.
  apply get_prop_inr in Hoid. subst oid.
  step H as rid Hrid. step H as amt Hamt. step H as d Hd. step H as em Hem.
  step H as ba Hba.
  cbn in H. inversion H; subst td; clear H. cbn [invoiceNumber refId].
  split; [exact Hinv|].
  destruct (truthy (get_opt oi "orderId")); cbn in Hrid; now inversion Hrid.
Qed.




(* ================================================================== *)
(** * Merchant validation *)
(* ================================================================== *)

(** C6. A validation request whose [validationURL] is absent, empty or
    otherwise falsy is answered with the client fault [ValidationError]
    (status 400) that names the field and the constraint; the handler throws
    at once, so in every world it reads no file and makes no request. *)
Theorem empty_validationURL_is_rejected_locally :
  forall (cfg : config) (req : request) (w : world) (fields : list (string * jsval)),
    body req = JObj fields ->
    truthy (get_opt (body req) "validationURL") = false ->
    validate_handler cfg req = Throw validationURL_required
    /\ run w (served (validate_handler cfg req))
       = ([], inr (inl {| er_status := 400;
                          er_message := "validationURL is required";
                          er_code := JStr "VALIDATION_ERROR";
                          er_type := "ValidationError";
                          er_details := Some (Details "validationURL" "required");
                          er_originalError := None;
                          er_authorizeNetError := None;
                          er_applePayError := None |})).
Proof.
  intros cfg req w fields Hb F.
  assert (E : validate_handler cfg req = Throw validationURL_required).
  { unfold validate_handler. rewrite Hb in *. cbn [destructure bind].
    now rewrite F. }
  split; [exact E|]. unfold served. rewrite E. reflexivity.
Qed.

(** Scenario C: [validate] of the empty string. *)
Lemma empty_validationURL_is_rejected_locally_witness :
  trace (Scenario.stub Scenario.approved_xml Scenario.validated)
    (served (validate_handler Scenario.cfg
               (Scenario.http (JObj [("validationURL", JStr EmptyString)]))))
  = [].
Proof.
  exact (f_equal fst
           (proj2 (empty_validationURL_is_rejected_locally Scenario.cfg
                     (Scenario.http (JObj [("validationURL", JStr EmptyString)]))
                     (Scenario.stub Scenario.approved_xml Scenario.validated)
                     _ eq_refl eq_refl))).
Defined.

Section Validation.
Variables (cfg : config) (req : request) (w : world).

(** The handler as a function of what the world answers. *)
Lemma validate_run :
  run w (validate_handler cfg req)
  = match body req with
    | JUndefined | JNull => run w (validate_handler cfg req)
    | _ =>
        let url := get_opt (body req) "validationURL" in
        if negb (truthy url) then ([], inl validationURL_required)
        else
          match files w (appleMerchantCertPath cfg) with
          | inr msg =>
              ([FileRead (appleMerchantCertPath cfg)],
               inl (certificate_failure "certificate"
                      "Merchant identity certificate not found"
                      (appleMerchantCertPath cfg) msg))
          | inl cert =>
              match files w (appleMerchantKeyPath cfg) with
              | inr msg =>
                  ([FileRead (appleMerchantCertPath cfg);
                    FileRead (appleMerchantKeyPath cfg)],
                   inl (certificate_failure "private key"
                          "Merchant private key not found"
                          (appleMerchantKeyPath cfg) msg))
              | inl key =>
                  (FileRead (appleMerchantCertPath cfg)
                     :: FileRead (appleMerchantKeyPath cfg)
                     :: match wallet w url (requestData_of cfg req) with
                        | UpThrows _ => []
                        | _ => [WalletRequest url (requestData_of cfg req)]
                        end,
                   match wallet w url (requestData_of cfg req) with
                   | UpResponse st msg data =>
                       if (st =? 200)%Z then
                         match json w data with
                         | inr session => inr (ValidateReply true session)
                         | inl message => inl (parse_failure message data)
                         end
                       else inl (status_failure st msg data)
                   | UpError error => inl (network_failure error)
                   | UpTimeout => inl timeout_failure
                   | UpThrows e => inl e
                   end)
              end
          end
    end.
Proof.
  destruct (body req) eqn:Hb; try reflexivity;
    unfold validate_handler; rewrite Hb; cbn [destructure bind];
    (destruct (truthy (get_opt _ "validationURL")); cbn [negb run];
     [|reflexivity];
     rewrite run_try_catch; cbn [bind run];
     destruct (files w (appleMerchantCertPath cfg)); cbn [bind run];
     [|reflexivity];
     destruct (files w (appleMerchantKeyPath cfg)); cbn [bind run];
     [|reflexivity];
     destruct (wallet w _ (requestData_of cfg req)); try reflexivity;
     unfold on_end;
     match goal with |- context [(?st =? 200)%Z] => destruct (st =? 200)%Z end;
     try reflexivity;
     cbn [bind run]; destruct (json w data); reflexivity).
Qed.

End Validation.




(* ================================================================== *)
(** * Validation of a payment request *)
(* ================================================================== *)

Section Offline.

Lemma offline_bind {A B} (m : io A) (f : A -> io B) :
  offline m -> (forall a, offline (f a)) -> offline (bind m f).
Proof.
  induction m; simpl; intros; auto; contradiction.
Qed.

Lemma offline_trace {A} (w : world) (m : io A) :
  offline m -> existsb is_network (trace w m) = false.
Proof.
  unfold trace. induction m as [| | | | |k IH|s k IH]; simpl; intros O; try easy.
  - specialize (IH (clock w) (O (clock w))).
    now destruct (run w (k (clock w))).
  - apply IH, O.
Qed.

Lemma offline_get_prop (v : jsval) (k : string) : offline (get_prop v k).
Proof. now destruct v. Qed.

Lemma offline_build (req : paymentRequest) : offline (build_transactionData req).
Proof.
  unfold build_transactionData, applePayToken_of, slice_0_20, toFixed_2.
  repeat first
    [ apply offline_bind; [|intros ?]
    | apply offline_get_prop
    | match goal with
      | |- offline (if ?c then _ else _) => destruct c
      | |- offline (match ?x with _ => _ end) => destruct x
      end
    | exact I
    | intros ?; exact I
    | intros [?|?]; exact I ].
Qed.

End Offline.

(** A run of the service that reaches the network has built the request
    object. *)
Lemma network_after_build (this : AuthorizeNetService) (req : paymentRequest)
  (w : world) :
  existsb is_network (trace w (processApplePayTransaction this req)) = true ->
  exists td, outcome w (build_transactionData req) = inr td.
Proof.
  unfold trace, processApplePayTransaction.
  rewrite run_try_catch, run_bind, (run_surj w (build_transactionData req)).
  destruct (outcome w (build_transactionData req)) as [e|td]; [|eauto].
  destruct (rethrow_fails this w e) as [e' ->]. cbn [fst].
  rewrite List.app_nil_r.
  change (fst (trace w (build_transactionData req), @inl Err.t transactionData e))
    with (trace w (build_transactionData req)).
  rewrite (offline_trace w _ (offline_build req)). discriminate.
Qed.

Lemma build_has_paymentData (req : paymentRequest) (w : world) (td : transactionData) :
  outcome w (build_transactionData req) = inr td ->
  exists tok,
    outcome w (applePayToken_of (paymentToken req)) = inr tok
    /\ truthy (get_opt tok "paymentData") = true.
Proof.
  intros H. unfold build_transactionData in H.
  step H as tok Htok. step H as pd Hpd.
  apply get_prop_inr in Hpd. subst pd.
  destruct (truthy (get_opt tok "paymentData")) eqn:T; [|discriminate H].
  eauto.
Qed.

Lemma validationErrors_fields (tok amt uid : jsval) :
  map fv_field (validationErrors_of tok amt uid)
  = ((if truthy tok then [] else ["paymentToken"])
     ++ (if positive_number amt then [] else ["amount"])
     ++ (if nonblank_string uid then [] else ["userId"]))%list.
Proof.
  unfold validationErrors_of. rewrite !map_app. f_equal; [|f_equal].
  - now destruct (truthy tok).
  - destruct amt as [| |[]|n|s| |]; cbn; rewrite ?orb_true_r; try reflexivity.
    destruct (Z.eqb_spec n 0), (Z.leb_spec n 0), (Z.ltb_spec 0 n);
      cbn; try reflexivity; lia.
  - destruct uid as [| |[]|n|s| |]; cbn; rewrite ?orb_true_r; try reflexivity.
    destruct (String.eqb_spec s EmptyString) as [->|]; [reflexivity|].
    cbn. now destruct (Str.trim s =? EmptyString).
Qed.

Section ProcessHandler.
Variables (svc : AuthorizeNetService) (req : request) (w : world).
Variable fields : list (string * jsval).
Hypothesis Hbody : body req = JObj fields.

Let tok := get_opt (body req) "paymentToken".
Let amt := get_opt (body req) "amount".
Let uid := get_opt (body req) "userId".
Let info := get_opt (body req) "orderInfo".

Lemma process_handler_unfold :
  process_handler svc req
  = match validationErrors_of tok amt uid with
    | _ :: _ =>
        Throw (validation_failed (validationErrors_of tok amt uid))
    | [] =>
        try_catch
          (result <-
             processApplePayTransaction svc
               {| paymentToken := tok;
                  req_amount := amt;
                  userId := uid;
                  orderInfo := js_or info (JObj []) |} ;;
           Ret (ProcessReply true (transactionId result) (res_authCode result)
                  (res_amount result) "approved" (res_responseCode result)
                  (res_details result)))
          (fun error => Throw error)
    end.
Proof.
  unfold process_handler, tok, amt, uid, info.
  rewrite Hbody. reflexivity.
Qed.

Lemma process_handler_trace :
  validationErrors_of tok amt uid = [] ->
  trace w (process_handler svc req)
  = trace w (processApplePayTransaction svc
               {| paymentToken := tok;
                  req_amount := amt;
                  userId := uid;
                  orderInfo := js_or info (JObj []) |}).
Proof.
  intros E. rewrite process_handler_unfold, E. unfold trace.
  rewrite run_try_catch, run_bind.
  destruct (run w (processApplePayTransaction svc _)) as [t [e|r]]; cbn;
    now rewrite List.app_nil_r.
Qed.

End ProcessHandler.

(** Reading the token has no effect that is recorded. *)
Lemma applePayToken_of_run (w : world) (v : jsval) :
  run w (applePayToken_of v) = ([], outcome w (applePayToken_of v)).
Proof.
  unfold outcome. destruct v; try reflexivity.
  cbn [applePayToken_of run]. now destruct (json w s).
Qed.

Lemma get_prop_Ret (w : world) (v : jsval) (k : string) (x : jsval) :
  outcome w (get_prop v k) = inr x -> get_prop v k = Ret x.
Proof. destruct v; cbn; intros H; inversion H; reflexivity. Qed.

(** C8, as the code has it. The handler of [POST /process] checks three
    fields before anything else: that [paymentToken] is truthy, that [amount]
    is a positive number and that [userId] is a string that is not blank. Its
    one validation failure lists every one of the three that is violated, and
    is thrown without any effect. A run that reaches the network has passed
    the three checks and has a token with a truthy [paymentData]; a token
    without one is refused by the service, before the network call, with a
    failure of its own that is no validation failure. *)
Theorem process_validation_precedes_network :
  forall (svc : AuthorizeNetService) (req : request) (w : world)
         (fields : list (string * jsval)),
    body req = JObj fields ->
    map fv_field
      (validationErrors_of (get_opt (body req) "paymentToken")
         (get_opt (body req) "amount") (get_opt (body req) "userId"))
    = ((if truthy (get_opt (body req) "paymentToken") then [] else ["paymentToken"])
       ++ (if positive_number (get_opt (body req) "amount") then [] else ["amount"])
       ++ (if nonblank_string (get_opt (body req) "userId") then [] else ["userId"]))%list
    /\ (validationErrors_of (get_opt (body req) "paymentToken")
          (get_opt (body req) "amount") (get_opt (body req) "userId") <> [] ->
        run w (process_handler svc req)
        = ([], inl (validation_failed
                      (validationErrors_of (get_opt (body req) "paymentToken")
                         (get_opt (body req) "amount") (get_opt (body req) "userId")))))
    /\ (existsb is_network (trace w (process_handler svc req)) = true ->
        validationErrors_of (get_opt (body req) "paymentToken")
          (get_opt (body req) "amount") (get_opt (body req) "userId") = []
        /\ exists token,
            outcome w (applePayToken_of (get_opt (body req) "paymentToken")) = inr token
            /\ truthy (get_opt token "paymentData") = true)
    /\ (forall token paymentData,
           validationErrors_of (get_opt (body req) "paymentToken")
             (get_opt (body req) "amount") (get_opt (body req) "userId") = [] ->
           outcome w (applePayToken_of (get_opt (body req) "paymentToken")) = inr token ->
           outcome w (get_prop token "paymentData") = inr paymentData ->
           truthy paymentData = false ->
           run w (process_handler svc req) = ([], inl missing_paymentData)
           /\ Err.type missing_paymentData = None
           /\ er_type (errorHandler missing_paymentData) = "ApplicationError"
           /\ er_status (errorHandler missing_paymentData) = 500%Z).
Proof.
  intros svc req w fields Hb.
  split; [apply validationErrors_fields|].
  split; [|split].
  - intros NE. rewrite (process_handler_unfold svc req fields Hb).
    destruct (validationErrors_of _ _ _); [congruence|reflexivity].
  - intros N.
    destruct (validationErrors_of (get_opt (body req) "paymentToken")
                (get_opt (body req) "amount") (get_opt (body req) "userId"))
      as [|v vs] eqn:E.
    + split; [reflexivity|].
      rewrite (process_handler_trace svc req w fields Hb E) in N.
      destruct (network_after_build _ _ _ N) as [td Htd].
      exact (build_has_paymentData _ _ _ Htd).
    + rewrite (process_handler_unfold svc req fields Hb), E in N. discriminate N.
  - intros token pd E Htok Hpd F.
    split; [|repeat split].
    rewrite (process_handler_unfold svc req fields Hb), E.
    unfold processApplePayTransaction, build_transactionData.
    cbn [paymentToken].
    rewrite run_try_catch, run_bind, run_try_catch, run_bind, run_bind.
    rewrite applePayToken_of_run. cbn [paymentToken]. rewrite Htok.
    rewrite (get_prop_Ret _ _ _ _ Hpd). cbn [bind]. rewrite F. reflexivity.
Qed.

Lemma process_validation_precedes_network_witness :
  map fv_field
    (validationErrors_of (get_opt Scenario.two_faults "paymentToken")
       (get_opt Scenario.two_faults "amount") (get_opt Scenario.two_faults "userId"))
  = ["amount"].
Proof.
  exact (proj1 (process_validation_precedes_network Scenario.svc
                  (Scenario.http Scenario.two_faults)
                  (Scenario.stub Scenario.approved_xml UpTimeout) _ eq_refl)).
Defined.

(** C8 as stated fails: of a token without [paymentData] and an amount that
    is not positive, the validation failure lists the amount alone; and a
    request at fault in its token alone gets no validation failure but an
    application error. *)
Lemma token_without_paymentData_is_not_listed :
  get_opt (get_opt Scenario.two_faults "paymentToken") "paymentData" = JUndefined
  /\ run (Scenario.stub Scenario.approved_xml UpTimeout)
       (served (process_handler Scenario.svc (Scenario.http Scenario.two_faults)))
     = ([], inr (inl {| er_status := 400;
                        er_message := "Validation failed";
                        er_code := JStr "VALIDATION_ERROR";
                        er_type := "ValidationError";
                        er_details :=
                          Some (FieldDetails
                                  [{| fv_field := "amount";
                                      fv_constraint := "invalid";
                                      fv_message := "amount must be a positive number" |}]);
                        er_originalError := None;
                        er_authorizeNetError := None;
                        er_applePayError := None |}))
  /\ run (Scenario.stub Scenario.approved_xml UpTimeout)
       (served (process_handler Scenario.svc (Scenario.http Scenario.empty_token)))
     = ([], inr (inl {| er_status := 500;
                        er_message := "Apple Pay token missing paymentData";
                        er_code := JStr "INTERNAL_ERROR";
                        er_type := "ApplicationError";
                        er_details := None;
                        er_originalError := None;
                        er_authorizeNetError := None;
                        er_applePayError := None |})).
Proof. repeat split; vm_compute; reflexivity. Qed.

(* ================================================================== *)
(** * The regular expressions at work *)
(* ================================================================== *)

Module RegexFacts.
Import Str StrFacts Regex.









(** ** The matcher, one step at a time *)

Lemma match_here_Lit (l : string) (k : regex) (s : string) :
  match_here (Lit l :: k) s
  = match strip_prefix l s with
    | Some r => match_here k r
    | None => None
    end.
Proof. reflexivity. Qed.

Lemma match_here_Many (cls : ascii -> bool) (k : regex) (s : string) :
  match_here (Many cls :: k) s
  = match s with
    | String c r =>
        if cls c then
          match match_here (Many cls :: k) r with
          | Some x => Some x
          | None => match_here k s
          end
        else match_here k s
    | EmptyString => match_here k s
    end.
Proof. destruct s; reflexivity. Qed.

Lemma match_here_Group (cls : ascii -> bool) (k : regex) (s : string) :
  match_here (Group cls :: k) s
  = match match_here k s with
    | Some (caps, rest) => Some (EmptyString :: caps, rest)
    | None =>
        match s with
        | String c r =>
            if cls c then
              match match_here (Group cls :: k) r with
              | Some (cap :: caps, rest) => Some (String c cap :: caps, rest)
              | _ => None
              end
            else None
        | EmptyString => None
        end
    end.
Proof. destruct s; reflexivity. Qed.

Lemma exec_unfold (re : regex) (s : string) :
  exec re s
  = match match_here re s with
    | Some r => Some r
    | None =>
        match s with
        | String _ r => exec re r
        | EmptyString => None
        end
    end.
Proof. destruct s; reflexivity. Qed.






(** Enough fuel: every match of a pattern that starts with a literal
    character consumes one. *)
Lemma match_here_shorter (re : regex) (s : string) caps rest :
  match_here re s = Some (caps, rest) -> String.length rest <= String.length s.
Proof.
  revert s caps rest. induction re as [|[l|cls|cls] k IH]; intros s caps rest.
  - cbn. intros H; inversion H; subst; lia.
  - rewrite match_here_Lit. destruct (strip_prefix l s) as [r|] eqn:E; [|discriminate].
    apply strip_prefix_spec in E. subst s. intros H. apply IH in H.
    rewrite length_app. lia.
  - revert caps rest. induction s as [|c s IHs]; intros caps rest;
      rewrite match_here_Many.
    + apply IH.
    + destruct (cls c).
      * case_eq (match_here (Many cls :: k) s); [intros [caps' rest'] E|intros E].
        -- intros H; inversion H; subst. apply IHs in E. cbn. lia.
        -- apply IH.
      * apply IH.
  - revert caps rest. induction s as [|c s IHs]; intros caps rest;
      rewrite match_here_Group.
    + destruct (match_here k EmptyString) as [[caps' rest']|] eqn:E; [|discriminate].
      intros H; inversion H; subst. now apply IH in E.
    + destruct (match_here k (String c s)) as [[caps' rest']|] eqn:E.
      * intros H; inversion H; subst. now apply IH in E.
      * destruct (cls c); [|discriminate].
        case_eq (match_here (Group cls :: k) s);
          [intros [[|cap caps'] rest'] E'|intros E']; try discriminate.
        intros H; inversion H; subst. apply IHs in E'. cbn. lia.
Qed.

Lemma exec_shorter (x : ascii) (l : string) (k : regex) (s : string) caps rest :
  exec (Lit (String x l) :: k) s = Some (caps, rest) ->
  String.length rest < String.length s.
Proof.
  induction s as [|c s IH]; rewrite exec_unfold, match_here_Lit.
  - discriminate.
  - destruct (strip_prefix (String x l) (String c s)) as [r|] eqn:E.
    + apply strip_prefix_spec in E.
      destruct (match_here k r) as [[caps' rest']|] eqn:E'.
      * intros H; inversion H; subst. apply match_here_shorter in E'.
        rewrite E. cbn. rewrite length_app. lia.
      * intros H. apply IH in H. cbn. lia.
    + intros H. apply IH in H. cbn. lia.
Qed.

Lemma match_all_from_enough (x : ascii) (l : string) (k : regex) (s : string) :
  forall fuel, String.length s < fuel ->
    match_all_from fuel (Lit (String x l) :: k) s
    = matchAll1 (Lit (String x l) :: k) s.
Proof.
  unfold matchAll1.
  remember (String.length s) as n eqn:En.
  revert s En. induction n as [n IH] using lt_wf_ind. intros s En fuel Hf.
  destruct fuel as [|fuel]; [lia|]. cbn [match_all_from].
  destruct (exec (Lit (String x l) :: k) s) as [[[|cap caps] rest]|] eqn:E; auto.
  f_equal. pose proof (exec_shorter _ _ _ _ _ _ E) as Hlt.
  rewrite (IH (String.length rest)) by lia.
  symmetry. apply (IH (String.length rest)); lia.
Qed.

(** [matchAll]: the first match, then the matches of what follows it. *)
Lemma matchAll1_unfold (x : ascii) (l : string) (k : regex) (s : string) :
  matchAll1 (Lit (String x l) :: k) s
  = match exec (Lit (String x l) :: k) s with
    | Some (cap :: _, rest) => cap :: matchAll1 (Lit (String x l) :: k) rest
    | _ => []
    end.
Proof.
  unfold matchAll1 at 1. cbn [match_all_from].
  destruct (exec (Lit (String x l) :: k) s) as [[[|cap caps] rest]|] eqn:E; auto.
  f_equal. apply match_all_from_enough.
  apply exec_shorter in E. lia.
Qed.

End RegexFacts.

(* ================================================================== *)
(** * Parsing the documents of a gateway stub *)
(* ================================================================== *)

Module RenderFacts.
Import Str StrFacts Regex RegexFacts Render.




(** ** Entries *)












Section Content.
Variables (rc ac tid : option string) (es : list transactionError).
Hypothesis Hrc : plain_option rc = true.
Hypothesis Hac : plain_option ac = true.
Hypothesis Htid : plain_option tid = true.
Hypothesis Hes :
  List.forallb (fun e => plain (errorCode e) && plain (errorText e)) es = true.

Let content : string :=
  element "responseCode" rc ++ element "authCode" ac ++ element "transId" tid
    ++ "<errors>" ++ concat (map error_entry es) ++ "</errors>".



End Content.

Section Envelope.
Variables (rc : option string) (ms : list messageError).
Hypothesis Hrc : plain_option rc = true.
Hypothesis Hms :
  List.forallb (fun m => plain (code m) && plain (text m)) ms = true.

Let content : string :=
  element "resultCode" rc ++ concat (map message_entry ms).



End Envelope.




End RenderFacts.

(* ================================================================== *)
(** * What a match is made of *)
(* ================================================================== *)

Module MatchFacts.
Import Str StrFacts Regex RegexFacts.



Lemma occurs_cons (c : ascii) (n s : string) : occurs n s -> occurs n (String c s).
Proof. intros (p & q & ->). now exists (String c p), q. Qed.






(** A pattern finds nothing where its first literal does not occur. *)
Lemma exec_absent (l : string) (k : regex) (s : string) :
  ~ occurs l s -> exec (Lit l :: k) s = None.
Proof.
  induction s as [|c s IH]; intros N; rewrite exec_unfold, match_here_Lit.
  - destruct (strip_prefix l EmptyString) as [r|] eqn:E; [|reflexivity].
    apply strip_prefix_spec in E. exfalso. apply N. exists EmptyString, r. exact E.
  - destruct (strip_prefix l (String c s)) as [r|] eqn:E.
    + apply strip_prefix_spec in E. exfalso. apply N. exists EmptyString, r. exact E.
    + apply IH. intros O. apply N. now apply occurs_cons.
Qed.


Lemma matchAll1_absent (x : ascii) (l : string) (k : regex) (s : string) :
  ~ occurs (String x l) s -> matchAll1 (Lit (String x l) :: k) s = [].
Proof. intros N. now rewrite matchAll1_unfold, exec_absent. Qed.


End MatchFacts.



(* ================================================================== *)
(** * Buffers: decoding what was encoded *)
(* ================================================================== *)

Module BufferFacts.
Import Buffer.
Local Open Scope N_scope.

Ltac euclid := zify; Z.to_euclidean_division_equations; lia.

Lemma N_of_byte_of_N (n : N) : n < 256 -> N_of_byte (byte_of_N n) = n.
Proof.
  intros H. unfold N_of_byte, byte_of_N.
  rewrite ascii_of_byte_of_ascii. now apply N_ascii_embedding.
Qed.

Lemma byte_of_N_of_byte (b : Byte.byte) : byte_of_N (N_of_byte b) = b.
Proof.
  unfold N_of_byte, byte_of_N.
  now rewrite ascii_N_embedding, byte_of_ascii_of_byte.
Qed.

Ltac same_byte x :=
  transitivity (byte_of_N (N_of_byte x));
  [f_equal; euclid|apply byte_of_N_of_byte].

Lemma N_of_byte_bounded (b : Byte.byte) : N_of_byte b < 256.
Proof. apply N_ascii_bounded. Qed.

Lemma N_of_ascii_bounded (c : ascii) : N_of_ascii c < 256.
Proof. apply N_ascii_bounded. Qed.

(** ** UTF-8 *)

Lemma to_utf8_from_utf8 (s : string) : to_utf8 (from_utf8 s) = Some s.
Proof.
  induction s as [|c s IH]; [reflexivity|].
  cbn [from_utf8]. pose proof (N_of_ascii_bounded c) as B.
  destruct (N.ltb_spec (N_of_ascii c) 128) as [L|G].
  - cbn [to_utf8]. rewrite N_of_byte_of_N by lia.
    destruct (N.ltb_spec (N_of_ascii c) 128) as [L'|G']; [|lia].
    now rewrite IH, ascii_N_embedding.
  - cbn [to_utf8].
    rewrite !N_of_byte_of_N by euclid.
    destruct (N.ltb_spec (192 + N_of_ascii c / 64) 128) as [L'|G']; [euclid|].
    assert (H : ((192 + N_of_ascii c / 64 =? 194)
                 || (192 + N_of_ascii c / 64 =? 195))%bool = true).
    { apply orb_true_iff. rewrite !N.eqb_eq. euclid. }
    rewrite H.
    assert (H' : ((128 <=? 128 + N_of_ascii c mod 64)
                  && (128 + N_of_ascii c mod 64 <? 192))%bool = true).
    { apply andb_true_iff. rewrite N.leb_le, N.ltb_lt. euclid. }
    rewrite H', IH. cbn [option_map]. do 2 f_equal.
    replace ((192 + N_of_ascii c / 64 - 192) * 64 + (128 + N_of_ascii c mod 64 - 128))
      with (N_of_ascii c) by euclid.
    apply ascii_N_embedding.
Qed.

(** ** Base64 *)

Lemma b64_val_char (n : N) : n < 64 -> b64_val (b64_char n) = Some n.
Proof.
  intros H. destruct n as [|p]; [reflexivity|].
  do 6 (destruct p as [p|p|]; try reflexivity); lia.
Qed.

Lemma b64_char_not_pad (n : N) : n < 64 -> Ascii.eqb (b64_char n) "=" = false.
Proof.
  intros H. destruct n as [|p]; [reflexivity|].
  do 6 (destruct p as [p|p|]; try reflexivity); lia.
Qed.

Lemma list_ind3 {A} (P : list A -> Prop) :
  P [] -> (forall a, P [a]) -> (forall a b, P [a; b]) ->
  (forall a b c r, P r -> P (a :: b :: c :: r)) ->
  forall l, P l.
Proof.
  intros H0 H1 H2 H3.
  fix IH 1.
  intros [|a [|b [|c r]]]; [exact H0|apply H1|apply H2|apply H3, IH].
Qed.

Lemma from_to_base64 (bs : list Byte.byte) : from_base64 (to_base64 bs) = Some bs.
Proof.
  induction bs as [|a|a b|a b c r IH] using list_ind3.
  - reflexivity.
  - cbn [to_base64 from_base64].
    pose proof (N_of_byte_bounded a).
    rewrite !b64_val_char by euclid.
    change (Ascii.eqb "=" "=") with true. cbv iota.
    do 2 f_equal. same_byte a.
  - cbn [to_base64 from_base64].
    pose proof (N_of_byte_bounded a). pose proof (N_of_byte_bounded b).
    rewrite !b64_val_char by euclid.
    rewrite b64_char_not_pad by euclid.
    change (Ascii.eqb "=" "=") with true. cbv iota.
    do 2 f_equal; [|f_equal].
    + same_byte a.
    + same_byte b.
  - cbn [to_base64 from_base64].
    pose proof (N_of_byte_bounded a). pose proof (N_of_byte_bounded b).
    pose proof (N_of_byte_bounded c).
    rewrite !b64_val_char by euclid.
    rewrite !b64_char_not_pad by euclid.
    rewrite IH.
    do 2 f_equal; [|f_equal; [|f_equal]].
    + same_byte a.
    + same_byte b.
    + same_byte c.
Qed.

End BufferFacts.

(* ================================================================== *)
(** * JSON: reading what was written *)
(* ================================================================== *)

Module JsonFacts.
Import Str StrFacts Json.

(** ** Strings *)

Lemma parse_chars_escape_char (c : ascii) (tail : string) :
  parse_chars (escape_char c ++ tail)
  = match parse_chars tail with
    | Some (body, rest) => Some (String c body, rest)
    | None => None
    end.
Proof.
  destruct c as [[] [] [] [] [] [] [] []]; reflexivity.
Qed.

Lemma parse_chars_escape (s rest : string) :
  parse_chars (escape s ++ dq ++ rest) = Some (s, rest).
Proof.
  induction s as [|c s IH]; [reflexivity|].
  cbn [escape]. now rewrite app_assoc, parse_chars_escape_char, IH.
Qed.

(** ** Numbers *)

Lemma delimited_no_digit (c : ascii) (r : string) :
  delimited (String c r) = true ->
  is_digit c = false
  /\ (Ascii.eqb c "." || Ascii.eqb c "e" || Ascii.eqb c "E")%bool = false
  /\ is_ws c = false.
Proof.
  cbn [delimited]. rewrite !orb_true_iff, !Ascii.eqb_eq.
  intros [[->| ->]| ->]; repeat split.
Qed.

Lemma span_digits_uint (d : Decimal.uint) (rest : string) :
  delimited rest = true ->
  span_digits (NilEmpty.string_of_uint d ++ rest)
  = (NilEmpty.string_of_uint d, rest).
Proof.
  intros D. induction d; cbn [NilEmpty.string_of_uint append span_digits];
    try (change (is_digit _) with true; cbv iota; now rewrite IHd).
  destruct rest as [|c r]; [reflexivity|].
  cbn [span_digits]. now rewrite (proj1 (delimited_no_digit c r D)).
Qed.

Lemma nzhead_no_zero (u : Decimal.uint) :
  match Decimal.nzhead u with Decimal.D0 _ => False | _ => True end.
Proof. induction u; cbn; auto. Qed.

Lemma to_uint_no_leading_zero (p : positive) :
  match Pos.to_uint p with
  | Decimal.Nil | Decimal.D0 _ => False
  | _ => True
  end.
Proof.
  pose proof (DecimalPos.Unsigned.to_of (Pos.to_uint p)) as E.
  rewrite DecimalPos.Unsigned.of_to in E. cbn [N.to_uint] in E.
  pose proof (DecimalPos.Unsigned.to_uint_nonnil p) as NN.
  pose proof (DecimalPos.Unsigned.to_uint_nonzero p) as NZ.
  destruct (Pos.to_uint p) as [|u| | | | | | | | |] eqn:Ep; auto.
  unfold Decimal.unorm in E. cbn [Decimal.nzhead] in E.
  pose proof (nzhead_no_zero u) as H.
  destruct (Decimal.nzhead u) eqn:En; try discriminate E; try contradiction.
Qed.

Lemma parse_unsigned (p : positive) (neg : bool) (rest : string) :
  delimited rest = true ->
  (let (ds, rest') := span_digits (NilEmpty.string_of_uint (Pos.to_uint p) ++ rest) in
   let integral :=
     match rest' with
     | String c _ => negb (Ascii.eqb c "." || Ascii.eqb c "e" || Ascii.eqb c "E")
     | EmptyString => true
     end in
   match ds with
   | EmptyString => None
   | String "0" (String _ _) => None
   | _ =>
       if integral then
         match NilEmpty.uint_of_string ds with
         | Some u =>
             let n := Z.of_uint u in
             Some (JNum (if neg then - n else n)%Z, rest')
         | None => None
         end
       else None
   end)
  = Some (JNum (if neg then Z.neg p else Z.pos p), rest).
Proof.
  intros D. rewrite (span_digits_uint _ _ D).
  assert (I : match rest with
              | String c _ => negb (Ascii.eqb c "." || Ascii.eqb c "e" || Ascii.eqb c "E")
              | EmptyString => true
              end = true).
  { destruct rest as [|c r]; [reflexivity|].
    now rewrite (proj1 (proj2 (delimited_no_digit c r D))). }
  cbv zeta. rewrite I.
  pose proof (to_uint_no_leading_zero p) as H.
  assert (V : Z.of_uint (Pos.to_uint p) = Z.pos p).
  { unfold Z.of_uint. now rewrite DecimalPos.Unsigned.of_to. }
  pose proof (NilEmpty.usu (Pos.to_uint p)) as U.
  destruct (Pos.to_uint p) eqn:E; try contradiction;
    cbn [NilEmpty.string_of_uint] in *; rewrite U, V; now destruct neg.
Qed.

Lemma string_of_uint_nonnil (d : Decimal.uint) :
  d <> Decimal.Nil -> NilZero.string_of_uint d = NilEmpty.string_of_uint d.
Proof. intros H. destruct d; [contradiction|reflexivity..]. Qed.

Lemma parse_number_of_Z (n : Z) (rest : string) :
  delimited rest = true ->
  parse_number (of_Z n ++ rest) = Some (JNum n, rest).
Proof.
  intros D. unfold of_Z. destruct n as [|p|p]; cbn [Z.to_int NilZero.string_of_int].
  - cbn [NilZero.string_of_uint]. unfold parse_number.
    change ("0" ++ rest) with (NilEmpty.string_of_uint (Decimal.D0 Decimal.Nil) ++ rest).
    cbn [NilEmpty.string_of_uint append]. 
    change (String "0" rest)
      with (NilEmpty.string_of_uint (Decimal.D0 Decimal.Nil) ++ rest).
    rewrite (span_digits_uint _ _ D). cbn [NilEmpty.string_of_uint].
    destruct rest as [|c r]; [reflexivity|].
    now rewrite (proj1 (proj2 (delimited_no_digit c r D))).
  - rewrite string_of_uint_nonnil by apply DecimalPos.Unsigned.to_uint_nonnil.
    unfold parse_number.
    pose proof (to_uint_no_leading_zero p) as H.
    pose proof (parse_unsigned p false rest D) as P.
    destruct (Pos.to_uint p) eqn:E; try contradiction;
      cbn [NilEmpty.string_of_uint append] in *; exact P.
  - rewrite string_of_uint_nonnil by apply DecimalPos.Unsigned.to_uint_nonnil.
    unfold parse_number. cbn [append].
    exact (parse_unsigned p true rest D).
Qed.

(** ** Values *)

Lemma jsval_ind' (P : jsval -> Prop) :
  P JUndefined -> P JNull -> (forall b, P (JBool b)) -> (forall n, P (JNum n)) ->
  (forall s, P (JStr s)) ->
  (forall items, Forall P items -> P (JArr items)) ->
  (forall fields, Forall (fun kv => P (snd kv)) fields -> P (JObj fields)) ->
  forall v, P v.
Proof.
  intros HU HN HB HZ HS HA HO. fix IH 1.
  intros [| |b|n|s|items|fields];
    [exact HU|exact HN|apply HB|apply HZ|apply HS| |].
  - apply HA. revert items. fix IHl 1.
    intros [|x r]; constructor; [apply IH|apply IHl].
  - apply HO. revert fields. fix IHl 1.
    intros [|[k x] r]; constructor; [apply IH|apply IHl].
Qed.

Lemma of_Z_starts (n : Z) :
  match of_Z n with
  | EmptyString => False
  | String c _ => (Ascii.eqb c "-" || is_digit c)%bool = true
  end.
Proof.
  unfold of_Z. destruct n as [|p|p]; cbn [Z.to_int NilZero.string_of_int];
    [reflexivity| |reflexivity].
  rewrite string_of_uint_nonnil by apply DecimalPos.Unsigned.to_uint_nonnil.
  pose proof (to_uint_no_leading_zero p) as H.
  destruct (Pos.to_uint p); try contradiction; reflexivity.
Qed.

Lemma number_start (c : ascii) :
  (Ascii.eqb c "-" || is_digit c)%bool = true ->
  is_ws c = false /\ Ascii.eqb c dquote = false /\ Ascii.eqb c "[" = false
  /\ Ascii.eqb c "{" = false /\ Ascii.eqb c "]" = false.
Proof.
  destruct c as [[] [] [] [] [] [] [] []]; cbn; intros H;
    try discriminate H; repeat split.
Qed.

Lemma stringify_starts (v : jsval) : starts_value (stringify v) = true.
Proof.
  destruct v as [| |[]|n|s|items|fields]; try reflexivity.
  cbn [stringify]. pose proof (of_Z_starts n) as H.
  destruct (of_Z n) as [|c r]; [contradiction|].
  destruct (number_start c H) as (H1 & _ & _ & _ & H5).
  cbn [starts_value]. now rewrite H1, H5.
Qed.

Lemma skip_ws_starts (s tail : string) :
  starts_value s = true -> skip_ws (s ++ tail) = s ++ tail.
Proof.
  destruct s as [|c s]; [discriminate|]. cbn [starts_value append skip_ws].
  intros H. apply andb_prop in H as [H _]. apply negb_true_iff in H. now rewrite H.
Qed.

Lemma not_closing {A} (s tail : string) (X : string -> A) (Y : A) :
  starts_value s = true ->
  match skip_ws (s ++ tail) with
  | String "]" rest => X rest
  | _ => Y
  end = Y.
Proof.
  intros H. rewrite (skip_ws_starts _ _ H).
  destruct s as [|c s]; [discriminate|]. cbn [starts_value append] in *.
  apply andb_prop in H as [_ H]. apply negb_true_iff in H.
  destruct c as [[] [] [] [] [] [] [] []]; try reflexivity; discriminate H.
Qed.

Lemma length_join_cons (x : string) (y : string) (l : list string) :
  String.length (join "," (x :: y :: l))
  = String.length x + 1 + String.length (join "," (y :: l)).
Proof. cbn [join]. rewrite !length_app. cbn [String.length]. lia. Qed.

Lemma parse_elements_join (items : list jsval) :
  Forall (fun v => forall fuel rest,
              String.length (stringify v) <= fuel ->
              delimited rest = true ->
              parse_value fuel (stringify v ++ rest) = Some (v, rest)) items ->
  items <> [] ->
  forall fuel rest,
    S (String.length (join "," (map stringify items))) <= fuel ->
    parse_elements fuel (join "," (map stringify items) ++ "]" ++ rest)
    = Some (items, rest).
Proof.
  induction items as [|v vs IH]; [congruence|].
  intros F _ fuel rest Hf. inversion F as [|? ? Hv Hvs]; subst.
  destruct fuel as [|f]; [lia|].
  destruct vs as [|v' vs'].
  - cbn [map join] in *. cbn [parse_elements].
    rewrite Hv by (reflexivity || lia). reflexivity.
  - cbn [map] in *. rewrite length_join_cons in Hf.
    change (join "," (stringify v :: stringify v' :: map stringify vs'))
      with (stringify v ++ "," ++ join "," (stringify v' :: map stringify vs')).
    rewrite !app_assoc. cbn [parse_elements].
    rewrite Hv by (reflexivity || lia). cbn [append skip_ws].
    change (is_ws ",") with false. cbv iota.
    pose proof (IH Hvs ltac:(congruence) f rest) as IH'.
    cbn [map append] in IH'. rewrite IH' by lia. reflexivity.
Qed.

(** ** Objects *)

Lemma stringify_obj (fields : list (string * jsval)) :
  List.forallb (fun kv => serializable (snd kv)) fields = true ->
  stringify (JObj fields)
  = "{" ++ join "," (map (fun kv => quote (fst kv) ++ ":" ++ stringify (snd kv)) fields)
      ++ "}".
Proof.
  intros H. cbn [stringify]. do 3 f_equal.
  induction fields as [|[k x] r IH]; [reflexivity|].
  cbn [List.forallb snd] in H. apply andb_prop in H as [Hx Hr].
  cbn [map fst snd]. rewrite <- (IH Hr).
  destruct x; try reflexivity. discriminate Hx.
Qed.

Lemma member_shape (k : string) (x tail : string) :
  (quote k ++ ":" ++ x) ++ tail
  = String dquote (escape k ++ dq ++ String ":" (x ++ tail)).
Proof.
  unfold quote. change dq with (String dquote EmptyString) at 1.
  cbn [append]. rewrite !app_assoc. reflexivity.
Qed.

Lemma parse_members_step (f : nat) (r : string) :
  parse_members (S f) (String dquote r)
  = match parse_chars r with
    | Some (k, rest) =>
        match skip_ws rest with
        | String ":" rest1 =>
            match parse_value f rest1 with
            | Some (v, rest2) =>
                match skip_ws rest2 with
                | String "," rest3 =>
                    match parse_members f rest3 with
                    | Some (ms, rest4) => Some ((k, v) :: ms, rest4)
                    | None => None
                    end
                | String "}" rest3 => Some ([(k, v)], rest3)
                | _ => None
                end
            | None => None
            end
        | _ => None
        end
    | None => None
    end.
Proof. reflexivity. Qed.

Lemma parse_members_join (fields : list (string * jsval)) :
  Forall (fun kv => forall fuel rest,
              String.length (stringify (snd kv)) <= fuel ->
              delimited rest = true ->
              parse_value fuel (stringify (snd kv) ++ rest) = Some (snd kv, rest))
    fields ->
  fields <> [] ->
  forall fuel rest,
    S (String.length
         (join "," (map (fun kv => quote (fst kv) ++ ":" ++ stringify (snd kv)) fields)))
    <= fuel ->
    parse_members fuel
      (join "," (map (fun kv => quote (fst kv) ++ ":" ++ stringify (snd kv)) fields)
         ++ "}" ++ rest)
    = Some (fields, rest).
Proof.
  induction fields as [|[k x] ms IH]; [congruence|].
  intros F _ fuel rest Hf. inversion F as [|? ? Hx Hms]; subst. cbn [snd] in Hx.
  destruct fuel as [|f]; [lia|].
  destruct ms as [|m ms'].
  - cbn [map join fst snd] in *. rewrite !length_app in Hf. cbn [String.length] in Hf.
    rewrite member_shape, parse_members_step, parse_chars_escape.
    cbn [skip_ws]. change (is_ws ":") with false. cbv iota.
    rewrite Hx by (reflexivity || lia). reflexivity.
  - cbn [map fst snd] in *. rewrite length_join_cons in Hf.
    rewrite !length_app in Hf. cbn [String.length] in Hf.
    match goal with
    | |- context [join "," (?a :: ?b :: ?l)] =>
        change (join "," (a :: b :: l)) with (a ++ "," ++ join "," (b :: l))
    end.
    rewrite (app_assoc (quote k ++ ":" ++ stringify x)).
    rewrite member_shape, parse_members_step, parse_chars_escape.
    cbn [skip_ws]. change (is_ws ":") with false. cbv iota.
    rewrite app_assoc.
    rewrite Hx; [|lia|reflexivity]. cbn [append skip_ws].
    change (is_ws ",") with false. cbv iota.
    pose proof (IH Hms ltac:(congruence) f rest) as IH'.
    cbn [map append fst snd] in IH'. cbn [append] in Hf.
    rewrite IH' by lia. reflexivity.
Qed.

Lemma distinct_NoDup (l : list string) : distinct l = true -> NoDup l.
Proof.
  induction l as [|k l IH]; [constructor|].
  cbn [distinct]. intros H. apply andb_prop in H as [H1 H2].
  constructor; [|auto]. intros I. apply negb_true_iff in H1.
  assert (E : existsb (String.eqb k) l = true).
  { apply existsb_exists. exists k. split; [exact I|apply String.eqb_refl]. }
  congruence.
Qed.

Lemma obj_set_fresh (k : string) (v : jsval) (acc : list (string * jsval)) :
  ~ In k (map fst acc) -> obj_set k v acc = (acc ++ [(k, v)])%list.
Proof.
  induction acc as [|[k' v'] acc IH]; [reflexivity|].
  cbn [map fst In obj_set app]. intros N.
  destruct (String.eqb_spec k k') as [->|ne]; [tauto|].
  f_equal. apply IH. tauto.
Qed.

Lemma fold_obj_set (ms acc : list (string * jsval)) :
  NoDup (map fst (acc ++ ms)) ->
  fold_left (fun a kv => obj_set (fst kv) (snd kv) a) ms acc = (acc ++ ms)%list.
Proof.
  revert acc. induction ms as [|[k v] ms IH]; intros acc N.
  - now rewrite List.app_nil_r.
  - cbn [fold_left fst snd].
    rewrite obj_set_fresh.
    + rewrite IH; rewrite <- List.app_assoc; [reflexivity|exact N].
    + rewrite map_app in N. cbn [map fst] in N.
      apply NoDup_remove_2 in N. intros I. apply N.
      apply in_or_app. now left.
Qed.

Lemma obj_of_members_distinct (fields : list (string * jsval)) :
  distinct (map fst fields) = true -> obj_of_members fields = JObj fields.
Proof.
  intros D. unfold obj_of_members. f_equal.
  apply (fold_obj_set fields []). now apply distinct_NoDup.
Qed.

(** ** The round trip *)

Lemma parse_value_string (f : nat) (r : string) :
  parse_value (S f) (String dquote r)
  = match parse_chars r with
    | Some (body, rest) => Some (JStr body, rest)
    | None => None
    end.
Proof. reflexivity. Qed.

Lemma parse_value_array (f : nat) (r : string) :
  parse_value (S f) (String "[" r)
  = match skip_ws r with
    | String "]" rest => Some (JArr [], rest)
    | _ =>
        match parse_elements f r with
        | Some (items, rest) => Some (JArr items, rest)
        | None => None
        end
    end.
Proof. reflexivity. Qed.

Lemma parse_value_object (f : nat) (r : string) :
  parse_value (S f) (String "{" r)
  = match skip_ws r with
    | String "}" rest => Some (JObj [], rest)
    | _ =>
        match parse_members f r with
        | Some (ms, rest) => Some (obj_of_members ms, rest)
        | None => None
        end
    end.
Proof. reflexivity. Qed.

Lemma parse_value_number (f : nat) (c : ascii) (r : string) :
  (Ascii.eqb c "-" || is_digit c)%bool = true ->
  parse_value (S f) (String c r) = parse_number (String c r).
Proof.
  intros H. destruct (number_start c H) as (H1 & H2 & H3 & H4 & _).
  cbn [parse_value skip_ws]. now rewrite H1, H2, H3, H4, H.
Qed.

Lemma starts_value_join (x : string) (l : list string) :
  starts_value x = true -> starts_value (join "," (x :: l)) = true.
Proof.
  destruct x as [|c x]; [discriminate|]. now destruct l.
Qed.

Lemma length_stringify_pos (v : jsval) : 0 < String.length (stringify v).
Proof.
  pose proof (stringify_starts v) as H.
  destruct (stringify v); [discriminate H|cbn; lia].
Qed.

Lemma join_member_head (k t : string) (l : list string) :
  exists r, join "," ((quote k ++ t) :: l) = String dquote r.
Proof.
  unfold quote. change dq with (String dquote EmptyString) at 1.
  destruct l; cbn [join append]; eauto.
Qed.

Lemma not_closing_brace {A} (s tail : string) (X : string -> A) (Y : A) :
  (exists r, s = String dquote r) ->
  match skip_ws (s ++ tail) with
  | String "}" rest => X rest
  | _ => Y
  end = Y.
Proof. intros [r ->]. reflexivity. Qed.

(** Reading a printed value gives the value back, and leaves what
    followed it. *)
Theorem parse_stringify (v : jsval) :
  serializable v = true ->
  forall fuel rest,
    String.length (stringify v) <= fuel ->
    delimited rest = true ->
    parse_value fuel (stringify v ++ rest) = Some (v, rest).
Proof.
  induction v as [| |b|n|s|items IH|fields IH] using jsval_ind';
    intros Hs fuel rest Hf Hd;
    (destruct fuel as [|f];
     [exfalso;
      match type of Hf with
      | String.length (stringify ?x) <= 0 =>
          pose proof (length_stringify_pos x); lia
      end|]).
  - discriminate Hs.
  - reflexivity.
  - now destruct b.
  - cbn [stringify]. pose proof (of_Z_starts n) as H.
    pose proof (parse_number_of_Z n rest Hd) as P.
    destruct (of_Z n) as [|c r]; [contradiction|].
    cbn [append] in *. now rewrite parse_value_number.
  - cbn [stringify]. unfold quote. change dq with (String dquote EmptyString) at 1.
    cbn [append]. rewrite !app_assoc, parse_value_string.
    now rewrite parse_chars_escape.
  - cbn [stringify serializable] in *.
    assert (F : Forall (fun v => forall fuel rest,
                            String.length (stringify v) <= fuel ->
                            delimited rest = true ->
                            parse_value fuel (stringify v ++ rest) = Some (v, rest))
                  items).
    { clear Hf. induction IH as [|v vs Hv Hvs IHvs]; constructor;
        cbn [List.forallb] in Hs; apply andb_prop in Hs as [H1 H2]; auto. }
    cbn [append]. rewrite app_assoc, parse_value_array.
    destruct items as [|v vs]; [reflexivity|].
    cbn [map]. rewrite not_closing
      by (apply starts_value_join, stringify_starts).
    rewrite length_app in Hf. cbn [String.length map] in Hf.
    rewrite length_app in Hf.
    pose proof (parse_elements_join (v :: vs) F ltac:(congruence) f rest) as E.
    cbn [map] in E. cbn [String.length] in Hf. rewrite E by lia. reflexivity.
  - cbn [serializable] in Hs. apply andb_prop in Hs as [Hk Hv].
    rewrite (stringify_obj _ Hv) in *.
    assert (F : Forall (fun kv => forall fuel rest,
                            String.length (stringify (snd kv)) <= fuel ->
                            delimited rest = true ->
                            parse_value fuel (stringify (snd kv) ++ rest)
                            = Some (snd kv, rest))
                  fields).
    { clear Hf Hk. induction IH as [|kv kvs Hkv Hkvs IHkvs]; constructor;
        cbn [List.forallb] in Hv; apply andb_prop in Hv as [H1 H2]; auto. }
    cbn [append]. rewrite app_assoc, parse_value_object.
    rewrite length_app in Hf. cbn [String.length] in Hf. rewrite length_app in Hf.
    cbn [String.length] in Hf.
    destruct fields as [|[k x] ms]; [reflexivity|].
    pose proof (parse_members_join ((k, x) :: ms) F ltac:(congruence) f rest) as E.
    cbn [map fst snd] in *.
    rewrite not_closing_brace by apply join_member_head.
    cbn [append] in E, Hf |- *.
    rewrite E by lia. now rewrite obj_of_members_distinct.
Qed.

Theorem JSON_parse_stringify (v : jsval) :
  serializable v = true -> JSON_parse (stringify v) = Some v.
Proof.
  intros Hs. unfold JSON_parse.
  rewrite <- (app_nil_r (stringify v)) at 2.
  rewrite (parse_stringify v Hs) by (reflexivity || lia). reflexivity.
Qed.

End JsonFacts.

(* ================================================================== *)
(** * The opaque payment value *)
(* ================================================================== *)

(** Decoding the opaque value gives the payment data back. *)
Lemma decode_encode_paymentData (paymentData : jsval) :
  Json.serializable paymentData = true ->
  exists value,
    encode_paymentData paymentData = Some value
    /\ decode_paymentData value = Some paymentData.
Proof.
  intros Hs. unfold encode_paymentData, decode_paymentData.
  assert (E : Json.JSON_stringify paymentData = Some (Json.stringify paymentData))
    by (destruct paymentData; try reflexivity; discriminate Hs).
  rewrite E. eexists. split; [reflexivity|].
  rewrite BufferFacts.from_to_base64, BufferFacts.to_utf8_from_utf8.
  now apply JsonFacts.JSON_parse_stringify.
Qed.

(** C3. The [dataValue] of the request object is the encoding of the whole
    [paymentData] of the token, and for a [paymentData] that JSON can
    serialize in full (an object with [data], [signature], [header] and
    [version] among them) decoding it -- base64, then UTF-8, then the JSON
    text -- gives that [paymentData] back, equal in every part. *)
Theorem paymentData_survives_the_encoding :
  forall (req : paymentRequest) (w : world) (td : transactionData),
    outcome w (build_transactionData req) = inr td ->
    exists token value,
      outcome w (applePayToken_of (paymentToken req)) = inr token
      /\ encode_paymentData (get_opt token "paymentData") = Some value
      /\ dataValue td = JStr value
      /\ (Json.serializable (get_opt token "paymentData") = true ->
          decode_paymentData value = Some (get_opt token "paymentData")).
Proof.
  intros req w td H. unfold build_transactionData in H.
  step H as token Htok. step H as pd Hpd.
  apply get_prop_inr in Hpd. subst pd.
  destruct (truthy (get_opt token "paymentData")); [|discriminate H].
  cbn [negb] in H.
  step H as value Hvalue. step H as inv0 Hinv0. step H as inv Hinv.
  step H as cid Hcid. step H as oid Hoid. step H as rid Hrid. step H as amt Hamt.
  step H as d Hd. step H as em Hem. step H as ba Hba.
  cbn in H. inversion H; subst td; clear H.
  exists token, value. split; [exact Htok|].
  assert (E : encode_paymentData (get_opt token "paymentData") = Some value).
  { destruct (encode_paymentData (get_opt token "paymentData"));
      cbn in Hvalue; now inversion Hvalue. }
  split; [exact E|]. split; [reflexivity|].
  intros Hs. destruct (decode_encode_paymentData _ Hs) as (value' & E' & D).
  congruence.
Qed.

Lemma paymentData_survives_the_encoding_witness :
  match outcome (Scenario.stub Scenario.approved_xml UpTimeout)
          (build_transactionData (Scenario.request_of (JObj []))) with
  | inr td =>
      match dataValue td with
      | JStr value => decode_paymentData value
      | _ => None
      end
  | inl _ => None
  end = Some Scenario.paymentData.
Proof.
  destruct (outcome (Scenario.stub Scenario.approved_xml UpTimeout)
              (build_transactionData (Scenario.request_of (JObj []))))
    as [e|td] eqn:H.
  - vm_compute in H. discriminate H.
  - destruct (paymentData_survives_the_encoding _ _ _ H)
      as (token & value & Ht & He & Hd & Hr).
    rewrite Hd. cbn in Ht. inversion Ht; subst token. apply Hr. reflexivity.
Defined.

(* ================================================================== *)
(** * The gateway service, from the request object to the result *)
(* ================================================================== *)

(** Everything [build_transactionData] puts into the request object. *)
Lemma build_transactionData_inv (req : paymentRequest) (w : world)
  (td : transactionData) :
  outcome w (build_transactionData req) = inr td ->
  exists tok value,
    outcome w (applePayToken_of (paymentToken req)) = inr tok
    /\ truthy (get_opt tok "paymentData") = true
    /\ encode_paymentData (get_opt tok "paymentData") = Some value
    /\ dataValue td = JStr value
    /\ dataDescriptor td = JStr "COMMON.APPLE.INAPP.PAYMENT"
    /\ outcome w (toFixed_2 (req_amount req)) = inr (amount td)
    /\ customerId td
       = match userId req with
         | JStr s => if Str.trim s =? EmptyString then JStr EmptyString
                     else JStr (Str.take 20 s)
         | _ => JStr EmptyString
         end.
Proof.
  intros H. unfold build_transactionData in H.
  step H as tok Htok. step H as pd Hpd.
  apply get_prop_inr in Hpd. subst pd.
  destruct (truthy (get_opt tok "paymentData")) eqn:T; [|discriminate H].
  cbn [negb] in H.
  step H as value Hvalue. step H as inv0 Hinv0. step H as inv Hinv.
  step H as cid Hcid. step H as oid Hoid. step H as rid Hrid.
  step H as amt Hamt. step H as d Hd. step H as em Hem. step H as ba Hba.
  cbn in H. inversion H; subst td; clear H.
  cbn [dataValue dataDescriptor amount customerId].
  exists tok, value. repeat split; auto.
  - destruct (encode_paymentData (get_opt tok "paymentData"));
      cbn in Hvalue; now inversion Hvalue.
  - destruct (userId req) as [| |b|n|s|l|l]; cbn in Hcid;
      try (inversion Hcid; reflexivity); try discriminate Hcid.
    + destruct b; cbn in Hcid; [discriminate Hcid|now inversion Hcid].
    + destruct (n =? 0)%Z; cbn in Hcid; [now inversion Hcid|discriminate Hcid].
    + destruct (s =? EmptyString) eqn:E; cbn in Hcid.
      * apply String.eqb_eq in E. subst s. now inversion Hcid.
      * destruct (Str.trim s =? EmptyString); cbn in Hcid; [now inversion Hcid|].
        destruct (Nat.leb (String.length s) 20) eqn:L; cbn in Hcid;
          inversion Hcid; [|reflexivity].
        apply Nat.leb_le in L. now rewrite StrFacts.take_all.
Qed.

(** The [catch] block performs no effect: it returns or throws. *)
Lemma enhance_error_settles (this : AuthorizeNetService) (e : Err.t) :
  (exists e', enhance_error this e = Ret e')
  \/ (exists e', enhance_error this e = Throw e').
Proof.
  unfold enhance_error. destruct (Err.response e) as [r|].
  - destruct (ax_data r); cbn; eauto.
  - destruct (Err.authorizeNetError e) as [a|]; [|eauto].
    destruct (AuthorizeNetError.errors a); eauto.
Qed.

Lemma rethrow_run (this : AuthorizeNetService) (w : world) (e : Err.t) :
  exists e', run w (error' <- enhance_error this e ;; Throw (A:=transactionResult) error')
             = ([], inl e').
Proof.
  destruct (enhance_error_settles this e) as [[e' ->]|[e' ->]]; eexists; reflexivity.
Qed.

(** The answer of the gateway is classified without any further effect. *)
Lemma settle_run (this : AuthorizeNetService) (w : world) (amount : jsval)
  (settled : axiosOutcome) :
  exists r,
    run w (try_catch
             (match settled with
              | AxResolved data =>
                  parsedResponse <- parseXmlResponse data ;;
                  classify amount parsedResponse
              | AxRejected error => Throw error
              end)
             (fun error => error' <- enhance_error this error ;; Throw error'))
    = ([], r).
Proof.
  destruct settled as [data|e]; cbn [try_catch].
  - assert (P : (exists p, parseXmlResponse data = Ret p)
                \/ (exists e, parseXmlResponse data = Throw e)).
    { destruct data; cbn; eauto. }
    destruct P as [[p ->]|[e ->]]; cbn [bind try_catch].
    + unfold classify.
      destruct (negb _); cbn [try_catch].
      * destruct (rethrow_run this w (envelope_failure p)) as [e' ->]. eauto.
      * destruct (negb _); cbn [try_catch].
        -- destruct (rethrow_run this w (declined_failure p)) as [e' ->]. eauto.
        -- eexists. reflexivity.
    + destruct (rethrow_run this w e) as [e' ->]. eauto.
  - destruct (rethrow_run this w e) as [e' ->]. eauto.
Qed.

(** The run of [processApplePayTransaction], whatever the gateway does. *)
Lemma process_trace (this : AuthorizeNetService) (req : paymentRequest) (w : world) :
  trace w (processApplePayTransaction this req)
  = match outcome w (build_transactionData req) with
    | inr td =>
        match createXmlRequest this td with
        | Some doc =>
            (trace w (build_transactionData req)
               ++ [GatewayRequest (baseUrl this) doc])%list
        | None => trace w (build_transactionData req)
        end
    | inl _ => trace w (build_transactionData req)
    end.
Proof.
  destruct (outcome w (build_transactionData req)) as [e|td] eqn:Hb.
  - unfold trace at 1, processApplePayTransaction.
    rewrite run_try_catch, run_bind, (run_surj w (build_transactionData req)), Hb.
    destruct (rethrow_run this w e) as [e' ->]. cbn. now rewrite List.app_nil_r.
  - destruct (createXmlRequest this td) as [doc|] eqn:Hd;
      [|unfold trace at 1; now rewrite (process_not_built this req w td Hb Hd)].
    unfold trace at 1, processApplePayTransaction.
    rewrite run_try_catch, run_bind, (run_surj w (build_transactionData req)), Hb, Hd.
    cbn [run].
    pose proof (settle_run this w (req_amount req)
                  (gateway w (baseUrl this) doc)) as [r Hr].
    rewrite run_try_catch in Hr.
    destruct (run w (match gateway w (baseUrl this) doc with
                     | AxResolved data => _
                     | AxRejected error => _
                     end)) as [t [e|a]].
    + destruct (rethrow_run this w e) as [e' He']. rewrite He' in *.
      inversion Hr. rewrite List.app_nil_r in *. subst t.
      cbn [fst]. now rewrite List.app_nil_r.
    + inversion Hr. subst. reflexivity.
Qed.

Lemma filter_offline {A} (w : world) (m : io A) :
  offline m -> filter is_network (trace w m) = [].
Proof.
  intros O. pose proof (offline_trace w m O) as H.
  induction (trace w m) as [|x t IH]; [reflexivity|].
  cbn in H |- *. destruct (is_network x); [discriminate H|]. now apply IH.
Qed.

(** X1. A call of [processApplePayTransaction] makes exactly one request to
    the gateway when the request object and its document could be built, and
    none otherwise: whatever the gateway answers (a rejection, an error
    status, a time-out), the request is not sent again, and a field of the
    order that cannot be converted to a string stops the call, with the
    TypeError of the conversion, before anything is sent.  The one request
    goes to [baseUrl] and carries the document of the request object. *)
Theorem one_gateway_request_per_call :
  forall (this : AuthorizeNetService) (req : paymentRequest) (w : world),
    filter is_network (trace w (processApplePayTransaction this req))
    = match outcome w (build_transactionData req) with
      | inr td =>
          match createXmlRequest this td with
          | Some doc => [GatewayRequest (baseUrl this) doc]
          | None => []
          end
      | inl _ => []
      end
    /\ (forall td,
          outcome w (build_transactionData req) = inr td ->
          createXmlRequest this td = None ->
          outcome w (processApplePayTransaction this req)
          = inl (Err.TypeError cannot_convert)).
Proof.
  intros this req w. split.
  - rewrite process_trace.
    pose proof (filter_offline w _ (offline_build req)) as F.
    destruct (outcome w (build_transactionData req)) as [e|td]; [exact F|].
    destruct (createXmlRequest this td); [|exact F].
    rewrite filter_app, F. reflexivity.
  - intros td Hb Hd. unfold outcome.
    now rewrite (process_not_built this req w td Hb Hd).
Qed.

(** An order id that is an object with a property [toString]: nothing is
    sent. *)
Lemma one_gateway_request_per_call_witness :
  filter is_network
    (trace (Scenario.stub Scenario.approved_xml UpTimeout)
       (processApplePayTransaction Scenario.svc
          (Scenario.request_of (JObj [("orderId", Scenario.unprintable)]))))
  = []
  /\ outcome (Scenario.stub Scenario.approved_xml UpTimeout)
       (processApplePayTransaction Scenario.svc
          (Scenario.request_of (JObj [("orderId", Scenario.unprintable)])))
     = inl (Err.TypeError cannot_convert).
Proof.
  destruct (one_gateway_request_per_call Scenario.svc
              (Scenario.request_of (JObj [("orderId", Scenario.unprintable)]))
              (Scenario.stub Scenario.approved_xml UpTimeout)) as [T O].
  destruct (outcome (Scenario.stub Scenario.approved_xml UpTimeout)
              (build_transactionData
                 (Scenario.request_of (JObj [("orderId", Scenario.unprintable)]))))
    as [e|td] eqn:Hb; [vm_compute in Hb; discriminate Hb|].
  assert (Hd : createXmlRequest Scenario.svc td = None)
    by (vm_compute in Hb; injection Hb as Hb; subst td; vm_compute; reflexivity).
  rewrite Hd in T. split; [exact T|exact (O td eq_refl Hd)].
Defined.

Lemma option_string_dec (a b : option string) : {a = b} + {a <> b}.
Proof. decide equality. apply string_dec. Qed.

(** X2. Given that the request object and its document could be built and
    the gateway answered with an XML text, [processApplePayTransaction]
    returns a result exactly when the envelope-level result code is [Ok] and
    the transaction-level response code is [1]; the result then carries the
    transaction id, the authorisation code and the response of the gateway
    and the amount of the caller as it was passed. *)
Theorem approved_exactly_on_Ok_and_1 :
  forall (this : AuthorizeNetService) (req : paymentRequest) (w : world)
         (td : transactionData) (doc xml : string),
    outcome w (build_transactionData req) = inr td ->
    createXmlRequest this td = Some doc ->
    gateway w (baseUrl this) doc = AxResolved (JStr xml) ->
    ((exists r, outcome w (processApplePayTransaction this req) = inr r)
     <-> (resultCode (messages_ (parse_document xml)) = Some "Ok"
          /\ responseCode (transactionResponse_ (parse_document xml)) = Some "1"))
    /\ (forall r,
          outcome w (processApplePayTransaction this req) = inr r ->
          r = {| success := true;
                 transactionId := transId (transactionResponse_ (parse_document xml));
                 res_authCode := authCode (transactionResponse_ (parse_document xml));
                 res_responseCode := Some "1";
                 res_amount := req_amount req;
                 res_details := transactionResponse_ (parse_document xml) |}).
Proof.
  intros this req w td doc xml Hb Hd Hg.
  assert (R : outcome w (processApplePayTransaction this req)
              = snd (run w (try_catch (classify (req_amount req) (parse_document xml))
                              (fun error =>
                                 error' <- enhance_error this error ;; Throw error')))).
  { unfold outcome at 1. rewrite (process_run this req w td doc xml Hb Hd Hg).
    now destruct (run w (try_catch _ _)). }
  rewrite R.
  destruct (option_string_dec (resultCode (messages_ (parse_document xml)))
              (Some "Ok")) as [Ok|NotOk].
  - destruct (option_string_dec
                (responseCode (transactionResponse_ (parse_document xml)))
                (Some "1")) as [One|NotOne].
    + rewrite (classify_approved _ _ Ok One). cbn. split.
      * split; [auto|eauto].
      * intros r H. now inversion H.
    + rewrite (classify_declined _ _ Ok NotOne). cbn [try_catch].
      rewrite enhance_declined_failure. cbn. split.
      * split; [intros [r H]; discriminate H|intros [_ H]; contradiction].
      * intros r H. discriminate H.
  - rewrite (classify_not_Ok _ _ NotOk). cbn [try_catch].
    rewrite enhance_envelope_failure. cbn. split.
    + split; [intros [r H]; discriminate H|intros [H _]; contradiction].
    + intros r H. discriminate H.
Qed.

Lemma approved_exactly_on_Ok_and_1_witness :
  outcome (Scenario.stub Scenario.approved_xml UpTimeout)
    (processApplePayTransaction Scenario.svc (Scenario.request_of (JObj [])))
  = inr {| success := true;
           transactionId := Some "T1";
           res_authCode := Some "AUTH1";
           res_responseCode := Some "1";
           res_amount := JNum 10;
           res_details :=
             transactionResponse_ (parse_document Scenario.approved_xml) |}.
Proof.
  destruct (outcome (Scenario.stub Scenario.approved_xml UpTimeout)
              (build_transactionData (Scenario.request_of (JObj [])))) as [e|td] eqn:Hb.
  - vm_compute in Hb. discriminate Hb.
  - destruct (createXmlRequest Scenario.svc td) as [doc|] eqn:Hd;
      [|vm_compute in Hb; injection Hb as Hb; subst td; vm_compute in Hd;
        discriminate Hd].
    pose proof (approved_exactly_on_Ok_and_1 Scenario.svc
                  (Scenario.request_of (JObj []))
                  (Scenario.stub Scenario.approved_xml UpTimeout) td doc
                  Scenario.approved_xml Hb Hd eq_refl) as [[_ Back] Shape].
    destruct Back as [r Hr]; [split; vm_compute; reflexivity|].
    rewrite Hr. f_equal. rewrite (Shape r Hr). vm_compute. reflexivity.
Defined.

(** X3. The customer id of the request object is a string of at most 20
    characters: the empty string when the user id is blank or falsy, the
    user id itself when it has at most 20 characters, and its first 20
    characters when it is longer. *)
Theorem customer_id_is_bounded :
  forall (req : paymentRequest) (w : world) (td : transactionData),
    outcome w (build_transactionData req) = inr td ->
    exists s,
      customerId td = JStr s
      /\ String.length s <= 20
      /\ (forall u, userId req = JStr u ->
            s = (if Str.trim u =? EmptyString then EmptyString else Str.take 20 u)
            /\ (Str.trim u <> EmptyString -> String.length u <= 20 -> s = u))
      /\ ((forall u, userId req <> JStr u) -> s = EmptyString).
Proof.
  intros req w td H.
  destruct (build_transactionData_inv req w td H)
    as (tok & value & _ & _ & _ & _ & _ & _ & Hc).
  destruct (userId req) as [| |b|n|u|l|l] eqn:U;
    try (exists EmptyString; repeat split; auto; try discriminate; cbn; lia).
  exists (if Str.trim u =? EmptyString then EmptyString else Str.take 20 u).
  split; [destruct (Str.trim u =? EmptyString); exact Hc|].
  split.
  - destruct (Str.trim u =? EmptyString); [cbn; lia|].
    rewrite StrFacts.length_take. lia.
  - split.
    + intros u' E. inversion E; subst u'. split; [reflexivity|].
      intros NB L. destruct (String.eqb_spec (Str.trim u) EmptyString);
        [contradiction|]. now apply StrFacts.take_all.
    + intros N. now elim (N u).
Qed.

Lemma customer_id_is_bounded_witness :
  exists s,
    option_map customerId
      (returned
         (outcome (Scenario.stub Scenario.approved_xml UpTimeout)
            (build_transactionData
               {| paymentToken := Scenario.token; req_amount := JNum 10;
                  userId := JStr "6f1d2c3b-4a59-4e8f-9b7a-0c1d2e3f4a5b";
                  orderInfo := JObj [] |})))
    = Some (JStr s)
    /\ String.length s <= 20.
Proof.
  destruct (outcome (Scenario.stub Scenario.approved_xml UpTimeout)
              (build_transactionData
                 {| paymentToken := Scenario.token; req_amount := JNum 10;
                    userId := JStr "6f1d2c3b-4a59-4e8f-9b7a-0c1d2e3f4a5b";
                    orderInfo := JObj [] |})) as [e|td] eqn:Hb.
  - vm_compute in Hb. discriminate Hb.
  - destruct (customer_id_is_bounded _ _ td Hb) as (s & Hs & L & _).
    exists s. cbn [returned option_map]. rewrite Hs. split; [reflexivity|exact L].
Defined.

(* ================================================================== *)
(** * Escaping loses nothing *)
(* ================================================================== *)

Section EscapedText.

(** The six shapes of [entity_of]. *)
Lemma entity_of_cases (c : ascii) :
  (c = "&"%char /\ entity_of c = "&amp;")
  \/ (c = "<"%char /\ entity_of c = "&lt;")
  \/ (c = ">"%char /\ entity_of c = "&gt;")
  \/ (c = Str.dquote /\ entity_of c = "&quot;")
  \/ (c = "'"%char /\ entity_of c = "&apos;")
  \/ (Ascii.eqb c "&" || reserved c = false /\ entity_of c = String c EmptyString).
Proof.
  unfold entity_of, reserved.
  destruct (Ascii.eqb_spec c "&"); [auto|].
  destruct (Ascii.eqb_spec c "<"); [auto 6|].
  destruct (Ascii.eqb_spec c ">"); [auto 6|].
  destruct (Ascii.eqb_spec c Str.dquote); [auto 6|].
  destruct (Ascii.eqb_spec c "'"); [auto 8|].
  do 5 right. split; reflexivity.
Qed.

Lemma escaped_text_unreserved (s : string) :
  unreserved s = true -> escaped_text s = s.
Proof.
  unfold unreserved. induction s as [|c s IH]; [reflexivity|].
  cbn [Str.forallb escaped_text]. intros H.
  apply andb_prop in H as [Hc Hs]. rewrite (IH Hs).
  destruct (entity_of_cases c)
    as [[-> _]|[[-> _]|[[-> _]|[[-> _]|[[-> _]|[_ ->]]]]]];
    try discriminate Hc. reflexivity.
Qed.

Lemma length_escaped_text (s : string) :
  String.length s <= String.length (escaped_text s)
  /\ (unreserved s = false -> String.length s < String.length (escaped_text s)).
Proof.
  unfold unreserved. induction s as [|c s [IH1 IH2]]; [split; [cbn; lia|discriminate]|].
  cbn [Str.forallb escaped_text].
  rewrite StrFacts.length_app. cbn [String.length].
  destruct (entity_of_cases c)
    as [[-> ->]|[[-> ->]|[[-> ->]|[[-> ->]|[[-> ->]|[E ->]]]]]];
    cbn [String.length]; try (split; [lia|intros _; lia]).
  rewrite E. cbn [negb andb]. split; [lia|]. intros H. specialize (IH2 H). lia.
Qed.

Lemma escaped_text_inj (s t : string) :
  escaped_text s = escaped_text t -> s = t.
Proof.
  revert t. induction s as [|c s IH]; intros [|d t]; cbn [escaped_text]; intros H.
  - reflexivity.
  - exfalso.
    destruct (entity_of_cases d)
      as [[_ E]|[[_ E]|[[_ E]|[[_ E]|[[_ E]|[_ E]]]]]];
      rewrite E in H; discriminate H.
  - exfalso.
    destruct (entity_of_cases c)
      as [[_ E]|[[_ E]|[[_ E]|[[_ E]|[[_ E]|[_ E]]]]]];
      rewrite E in H; discriminate H.
  - destruct (entity_of_cases c)
      as [[-> E]|[[-> E]|[[-> E]|[[-> E]|[[-> E]|[Nc E]]]]]];
      destruct (entity_of_cases d)
        as [[-> E']|[[-> E']|[[-> E']|[[-> E']|[[-> E']|[Nd E']]]]]];
      rewrite E in H; rewrite ?E' in H; cbn [append] in H;
      try discriminate H;
      try (inversion H as [H']; f_equal; now apply IH);
      try (inversion H; subst; discriminate Nd);
      try (inversion H; subst; discriminate Nc).
Qed.

End EscapedText.

(** X4. [escapeXml] loses nothing of a text: two texts with the same escaped
    form are the same text, so the receiver of the document can recover each
    field value. *)
Theorem escapeXml_is_injective :
  forall s t : string, escapeXml (JStr s) = escapeXml (JStr t) -> s = t.
Proof.
  intros s t. rewrite !escapeXml_text. intros H.
  apply escaped_text_inj. congruence.
Qed.

(** A text and its own escaped form are told apart after escaping. *)
Lemma escapeXml_is_injective_witness :
  match escapeXml (JStr "a<b & c"), escapeXml (JStr "a&lt;b &amp; c") with
  | Some e, Some e' => e =? e'
  | _, _ => true
  end = false.
Proof.
  destruct (option_string_dec (escapeXml (JStr "a<b & c"))
              (escapeXml (JStr "a&lt;b &amp; c"))) as [E|N].
  - apply escapeXml_is_injective in E. discriminate E.
  - reflexivity.
Defined.

(** X5. [escapeXml] never shortens a text, and the texts it returns unchanged
    are exactly those that hold none of the five reserved characters. *)
Theorem escapeXml_changes_only_reserved_text :
  forall s : string,
    exists e,
      escapeXml (JStr s) = Some e
      /\ String.length s <= String.length e
      /\ (e = s <-> unreserved s = true).
Proof.
  intros s. exists (escaped_text s). split; [apply escapeXml_text|].
  destruct (length_escaped_text s) as [L1 L2]. split; [exact L1|]. split.
  - intros E. destruct (unreserved s) eqn:U; [reflexivity|].
    specialize (L2 eq_refl). rewrite E in L2. lia.
  - apply escaped_text_unreserved.
Qed.

(* ================================================================== *)
(** * The opaque value inside the document *)
(* ================================================================== *)

Section OpaqueValue.

Lemma get_forallb (p : ascii -> bool) (s : string) (n : nat) (c : ascii) :
  Str.forallb p s = true -> String.get n s = Some c -> p c = true.
Proof.
  revert n. induction s as [|b s IH]; intros n H G; [destruct n; discriminate G|].
  cbn [Str.forallb] in H. apply andb_prop in H as [Hb Hs].
  destruct n; cbn in G; [inversion G; now subst|eauto].
Qed.

Lemma b64_char_unreserved (n : N) :
  negb (Ascii.eqb (Buffer.b64_char n) "&" || reserved (Buffer.b64_char n)) = true.
Proof.
  unfold Buffer.b64_char.
  destruct (String.get (N.to_nat n) Buffer.alphabet) as [c|] eqn:G; [|reflexivity].
  apply (get_forallb (fun c => negb (Ascii.eqb c "&" || reserved c))
           Buffer.alphabet (N.to_nat n) c); [reflexivity|exact G].
Qed.

Lemma to_base64_unreserved (bs : list Byte.byte) :
  unreserved (Buffer.to_base64 bs) = true.
Proof.
  unfold unreserved.
  induction bs as [|a|a b|a b c r IH] using BufferFacts.list_ind3;
    cbn [Buffer.to_base64 Str.forallb]; rewrite ?b64_char_unreserved;
    [reflexivity|reflexivity|reflexivity|exact IH].
Qed.

End OpaqueValue.

(** X6. The opaque value is base64 text, which holds no reserved character:
    escaping leaves it as it is, and the document that is built holds the
    [dataValue] element with exactly the value of the request object, beside
    the fixed descriptor of Apple Pay; that document is what the one request
    of the run carries. *)
Theorem opaque_value_reaches_the_document :
  forall (this : AuthorizeNetService) (req : paymentRequest) (w : world)
         (td : transactionData),
    outcome w (build_transactionData req) = inr td ->
    exists value,
      dataValue td = JStr value
      /\ escapeXml (dataValue td) = Some value
      /\ forall doc,
          createXmlRequest this td = Some doc ->
          Str.occurs ("<dataValue>" ++ value ++ "</dataValue>") doc
          /\ Str.occurs "<dataDescriptor>COMMON.APPLE.INAPP.PAYMENT</dataDescriptor>"
               doc
          /\ filter is_network (trace w (processApplePayTransaction this req))
             = [GatewayRequest (baseUrl this) doc].
Proof.
  intros this req w td H.
  destruct (build_transactionData_inv req w td H)
    as (tok & value & _ & _ & Hv & Hd & Hdesc & _).
  assert (E : escapeXml (dataValue td) = Some value).
  { rewrite Hd, escapeXml_text. f_equal. apply escaped_text_unreserved.
    unfold encode_paymentData in Hv.
    destruct (Json.JSON_stringify (get_opt tok "paymentData")); [|discriminate Hv].
    inversion Hv. apply to_base64_unreserved. }
  exists value. split; [exact Hd|]. split; [exact E|].
  intros doc B. split; [|split].
  - unfold createXmlRequest in B; cbv zeta in B. rewrite E in B.
    interpolations B. apply Some_inj in B. subst doc. find_open_element.
  - unfold createXmlRequest in B; cbv zeta in B. rewrite Hdesc in B.
    change (escapeXml (JStr "COMMON.APPLE.INAPP.PAYMENT"))
      with (Some "COMMON.APPLE.INAPP.PAYMENT") in B.
    interpolations B. apply Some_inj in B. subst doc.
    change "<dataDescriptor>COMMON.APPLE.INAPP.PAYMENT</dataDescriptor>"
      with ("<dataDescriptor>" ++ "COMMON.APPLE.INAPP.PAYMENT" ++ "</dataDescriptor>").
    find_open_element.
  - rewrite process_trace, H, B, filter_app.
    now rewrite (filter_offline w _ (offline_build req)).
Qed.

Lemma opaque_value_reaches_the_document_witness :
  exists value,
    option_map dataValue
      (returned (outcome (Scenario.stub Scenario.approved_xml UpTimeout)
                   (build_transactionData (Scenario.request_of (JObj [])))))
    = Some (JStr value)
    /\ forall td doc,
        outcome (Scenario.stub Scenario.approved_xml UpTimeout)
          (build_transactionData (Scenario.request_of (JObj []))) = inr td ->
        createXmlRequest Scenario.svc td = Some doc ->
        Str.occurs ("<dataValue>" ++ value ++ "</dataValue>") doc.
Proof.
  destruct (outcome (Scenario.stub Scenario.approved_xml UpTimeout)
              (build_transactionData (Scenario.request_of (JObj [])))) as [e|td] eqn:Hb.
  - vm_compute in Hb. discriminate Hb.
  - destruct (opaque_value_reaches_the_document Scenario.svc _ _ td Hb)
      as (value & Hd & _ & Ho).
    exists value. cbn [returned option_map]. rewrite Hd. split; [reflexivity|].
    intros td' doc E B. inversion E. subst td'. exact (proj1 (Ho doc B)).
Defined.

(* ================================================================== *)
(** * A token sent as text *)
(* ================================================================== *)

(** X7. A payment token may be passed as an object or as its JSON text:
    in every world whose [JSON.parse] reads the text of a token object back
    as that object, the service does the same with the text as with the
    object.  The reader of this development is such a parser, for every
    object that [JSON.stringify] prints in full. *)
Theorem token_text_is_read_as_the_object :
  forall (this : AuthorizeNetService) (fields : list (string * jsval))
         (amt uid info : jsval) (w : world),
    json w (Json.stringify (JObj fields)) = inr (JObj fields) ->
    run w (applePayToken_of (JStr (Json.stringify (JObj fields))))
    = ([], inr (JObj fields))
    /\ run w (processApplePayTransaction this
                {| paymentToken := JStr (Json.stringify (JObj fields));
                   req_amount := amt; userId := uid; orderInfo := info |})
       = run w (processApplePayTransaction this
                  {| paymentToken := JObj fields;
                     req_amount := amt; userId := uid; orderInfo := info |})
    /\ (Json.serializable (JObj fields) = true ->
        Json.parse_or_message (Json.stringify (JObj fields)) = inr (JObj fields)).
Proof.
  intros this fields amt uid info w H. split; [|split].
  - cbn [applePayToken_of run]. now rewrite H.
  - unfold processApplePayTransaction, build_transactionData.
    cbn [paymentToken req_amount userId orderInfo applePayToken_of bind try_catch run].
    now rewrite H.
  - intros S. unfold Json.parse_or_message.
    now rewrite (JsonFacts.JSON_parse_stringify _ S).
Qed.

Lemma token_text_is_read_as_the_object_witness :
  run (Scenario.stub Scenario.approved_xml UpTimeout)
    (applePayToken_of (JStr (Json.stringify Scenario.token)))
  = ([], inr Scenario.token).
Proof.
  refine (proj1 (token_text_is_read_as_the_object Scenario.svc
                   [("paymentData", Scenario.paymentData)]
                   (JNum 10) (JStr "u1") (JObj [])
                   (Scenario.stub Scenario.approved_xml UpTimeout) _)).
  vm_compute. reflexivity.
Defined.
(* ================================================================== *)
(** * What the client of [POST /process] receives *)
(* ================================================================== *)

Section Served.
Variable w : world.

Lemma served_run (handler : io reply) :
  run w (served handler)
  = (trace w handler,
     inr match outcome w handler with
         | inl err => inl (errorHandler err)
         | inr r => inr r
         end).
Proof.
  unfold served. rewrite run_try_catch, run_bind, (run_surj w handler).
  destruct (outcome w handler); cbn; now rewrite List.app_nil_r.
Qed.

Lemma process_handler_outcome (svc : AuthorizeNetService) (req : request)
  (fields : list (string * jsval)) :
  body req = JObj fields ->
  validationErrors_of (get_opt (body req) "paymentToken")
    (get_opt (body req) "amount") (get_opt (body req) "userId") = [] ->
  outcome w (process_handler svc req)
  = match outcome w (processApplePayTransaction svc
                       {| paymentToken := get_opt (body req) "paymentToken";
                          req_amount := get_opt (body req) "amount";
                          userId := get_opt (body req) "userId";
                          orderInfo := js_or (get_opt (body req) "orderInfo") (JObj []) |})
    with
    | inl e => inl e
    | inr result =>
        inr (ProcessReply true (transactionId result) (res_authCode result)
               (res_amount result) "approved" (res_responseCode result)
               (res_details result))
    end.
Proof.
  intros Hb E. rewrite (process_handler_unfold svc req fields Hb), E.
  unfold outcome. rewrite run_try_catch, run_bind.
  now destruct (run w (processApplePayTransaction svc _)) as [t [e|r]].
Qed.

(** The outcome of the service once the request object and its document are
    built, in terms of what the gateway does. *)
Lemma process_outcome (this : AuthorizeNetService) (req : paymentRequest)
  (td : transactionData) (doc : string) :
  outcome w (build_transactionData req) = inr td ->
  createXmlRequest this td = Some doc ->
  outcome w (processApplePayTransaction this req)
  = snd (run w (try_catch
                  (match gateway w (baseUrl this) doc with
                   | AxResolved data =>
                       parsedResponse <- parseXmlResponse data ;;
                       classify (req_amount req) parsedResponse
                   | AxRejected error => Throw error
                   end)
                  (fun error => error' <- enhance_error this error ;; Throw error'))).
Proof.
  intros Hb Hd. unfold outcome at 1, processApplePayTransaction.
  rewrite !run_try_catch, run_bind, (run_surj w (build_transactionData req)), Hb, Hd.
  cbn [run].
  destruct (run w (match gateway w (baseUrl this) doc with
                   | AxResolved data => _
                   | AxRejected error => _
                   end)) as [t [e|a]]; [|reflexivity].
  now destruct (run w (error' <- enhance_error this e ;; Throw error')).
Qed.

End Served.

Lemma occursb_unfold (n s : string) :
  Str.occursb n s
  = match Str.strip_prefix n s with
    | Some _ => true
    | None => match s with String _ r => Str.occursb n r | EmptyString => false end
    end.
Proof. now destruct s. Qed.

Lemma occursb_complete (n s : string) : Str.occurs n s -> Str.occursb n s = true.
Proof.
  intros (pre & post & ->). induction pre as [|c pre IH].
  - cbn [append]. rewrite occursb_unfold.
    now rewrite (proj2 (StrFacts.strip_prefix_spec n (n ++ post) post) eq_refl).
  - cbn [append]. rewrite occursb_unfold, IH.
    now destruct (Str.strip_prefix n (String c (pre ++ n ++ post))).
Qed.

Lemma not_occurs (n s : string) : Str.occursb n s = false -> ~ Str.occurs n s.
Proof. intros F O. apply occursb_complete in O. congruence. Qed.

(** X8. A failure that the gateway reports in its answer to the request that
    was sent, at the level of the envelope or of the transaction, reaches
    the client of [POST /process] as
    status 500 with type [ApplicationError] and code [INTERNAL_ERROR]; the
    details of the gateway, with the parsed response, are attached. *)
Theorem gateway_failures_are_served_as_500 :
  forall (svc : AuthorizeNetService) (req : request) (w : world)
         (fields : list (string * jsval)) (td : transactionData)
         (doc xml : string),
    body req = JObj fields ->
    validationErrors_of (get_opt (body req) "paymentToken")
      (get_opt (body req) "amount") (get_opt (body req) "userId") = [] ->
    outcome w (build_transactionData
                 {| paymentToken := get_opt (body req) "paymentToken";
                    req_amount := get_opt (body req) "amount";
                    userId := get_opt (body req) "userId";
                    orderInfo := js_or (get_opt (body req) "orderInfo") (JObj []) |})
    = inr td ->
    createXmlRequest svc td = Some doc ->
    gateway w (baseUrl svc) doc = AxResolved (JStr xml) ->
    ~ (resultCode (messages_ (parse_document xml)) = Some "Ok"
       /\ responseCode (transactionResponse_ (parse_document xml)) = Some "1") ->
    exists resp a,
      outcome w (served (process_handler svc req)) = inr (inl resp)
      /\ er_status resp = 500%Z
      /\ er_type resp = "ApplicationError"
      /\ er_code resp = JStr "INTERNAL_ERROR"
      /\ er_authorizeNetError resp = Some a
      /\ AuthorizeNetError.response a = parse_document xml.
Proof.
  intros svc req w fields td doc xml Hb E Hbuild Hdoc Hg N.
  unfold outcome at 1. rewrite served_run. cbn [snd].
  rewrite (process_handler_outcome w svc req fields Hb E).
  rewrite (process_outcome w svc _ td doc Hbuild Hdoc), Hg.
  cbn [parseXmlResponse bind].
  destruct (option_string_dec (resultCode (messages_ (parse_document xml)))
              (Some "Ok")) as [Ok|NotOk].
  - destruct (option_string_dec
                (responseCode (transactionResponse_ (parse_document xml)))
                (Some "1")) as [One|NotOne]; [elim N; now split|].
    rewrite (classify_declined _ _ Ok NotOne). cbn [try_catch].
    rewrite enhance_declined_failure. cbn [bind run snd].
    do 2 eexists. split; [reflexivity|]. repeat split.
  - rewrite (classify_not_Ok _ _ NotOk). cbn [try_catch].
    rewrite enhance_envelope_failure. cbn [bind run snd].
    do 2 eexists. split; [reflexivity|]. repeat split.
Qed.

Lemma gateway_failures_are_served_as_500_witness :
  exists resp,
    outcome (Scenario.stub Scenario.declined_xml UpTimeout)
      (served (process_handler Scenario.svc
                 (Scenario.http
                    (JObj [("paymentToken", Scenario.token); ("amount", JNum 10);
                           ("userId", JStr "u1")]))))
    = inr (inl resp)
    /\ er_status resp = 500%Z.
Proof.
  destruct (outcome (Scenario.stub Scenario.declined_xml UpTimeout)
              (build_transactionData
                 {| paymentToken := Scenario.token; req_amount := JNum 10;
                    userId := JStr "u1"; orderInfo := JObj [] |}))
    as [e|td] eqn:Hbuild.
  - vm_compute in Hbuild. discriminate Hbuild.
  - destruct (createXmlRequest Scenario.svc td) as [doc|] eqn:Hdoc;
      [|vm_compute in Hbuild; injection Hbuild as Hbuild; subst td;
        vm_compute in Hdoc; discriminate Hdoc].
    destruct (gateway_failures_are_served_as_500 Scenario.svc
                (Scenario.http
                   (JObj [("paymentToken", Scenario.token); ("amount", JNum 10);
                          ("userId", JStr "u1")]))
                (Scenario.stub Scenario.declined_xml UpTimeout)
                _ td doc Scenario.declined_xml eq_refl eq_refl Hbuild Hdoc eq_refl)
      as (resp & a & H & S & _).
    + intros [_ One]. vm_compute in One. discriminate One.
    + exists resp. split; [exact H|exact S].
Defined.

Section Transport.
Variables (svc : AuthorizeNetService) (req : request) (w : world).
Variables (fields : list (string * jsval)) (td : transactionData) (doc : string).
Hypothesis Hbody : body req = JObj fields.
Hypothesis Hvalid :
  validationErrors_of (get_opt (body req) "paymentToken")
    (get_opt (body req) "amount") (get_opt (body req) "userId") = [].
Hypothesis Hbuild :
  outcome w (build_transactionData
               {| paymentToken := get_opt (body req) "paymentToken";
                  req_amount := get_opt (body req) "amount";
                  userId := get_opt (body req) "userId";
                  orderInfo := js_or (get_opt (body req) "orderInfo") (JObj []) |})
  = inr td.
Hypothesis Hdoc : createXmlRequest svc td = Some doc.

(** What the client receives, in terms of what the gateway does. *)
Lemma served_process_outcome :
  outcome w (served (process_handler svc req))
  = inr match snd (run w (try_catch
                            (match gateway w (baseUrl svc) doc with
                             | AxResolved data =>
                                 parsedResponse <- parseXmlResponse data ;;
                                 classify (get_opt (body req) "amount") parsedResponse
                             | AxRejected error => Throw error
                             end)
                            (fun error =>
                               error' <- enhance_error svc error ;; Throw error')))
        with
        | inl e => inl (errorHandler e)
        | inr result =>
            inr (ProcessReply true (transactionId result) (res_authCode result)
                   (res_amount result) "approved" (res_responseCode result)
                   (res_details result))
        end.
Proof.
  unfold outcome at 1. rewrite served_run. cbn [snd].
  rewrite (process_handler_outcome w svc req fields Hbody Hvalid).
  rewrite (process_outcome w svc _ td doc Hbuild Hdoc). cbn [req_amount].
  now destruct (snd (run w _)).
Qed.

Lemma served_process_trace :
  trace w (served (process_handler svc req))
  = (trace w (build_transactionData
                {| paymentToken := get_opt (body req) "paymentToken";
                   req_amount := get_opt (body req) "amount";
                   userId := get_opt (body req) "userId";
                   orderInfo := js_or (get_opt (body req) "orderInfo") (JObj []) |})
       ++ [GatewayRequest (baseUrl svc) doc])%list.
Proof.
  unfold trace at 1. rewrite served_run. cbn [fst].
  rewrite (process_handler_trace svc req w fields Hbody Hvalid).
  now rewrite process_trace, Hbuild, Hdoc.
Qed.

End Transport.

Lemma not_validation (e : Err.t) :
  Err.name e <> "ValidationError" -> Err.type e <> Some "validation" ->
  (Err.name e =? "ValidationError")
  || match Err.type e with Some t => t =? "validation" | None => false end = false.
Proof.
  intros N T. apply String.eqb_neq in N. rewrite N. cbn [orb].
  destruct (Err.type e) as [t|]; [|reflexivity].
  apply String.eqb_neq. congruence.
Qed.

(** X9. When the gateway answers the request that was sent with an error
    status, so that [axios] rejects with a response, the client of [POST /process] receives an
    [APIError] with the status of the gateway (500 when that status is 0) and
    the code [API_ERROR]; the error carries the status, the raw body and the
    errors that could be read from the body. *)
Theorem gateway_error_status_is_passed_on :
  forall (svc : AuthorizeNetService) (req : request) (w : world)
         (fields : list (string * jsval)) (td : transactionData) (doc : string)
         (e : Err.t) (r : axiosResponse) (text : string),
    body req = JObj fields ->
    validationErrors_of (get_opt (body req) "paymentToken")
      (get_opt (body req) "amount") (get_opt (body req) "userId") = [] ->
    outcome w (build_transactionData
                 {| paymentToken := get_opt (body req) "paymentToken";
                    req_amount := get_opt (body req) "amount";
                    userId := get_opt (body req) "userId";
                    orderInfo := js_or (get_opt (body req) "orderInfo") (JObj []) |})
    = inr td ->
    createXmlRequest svc td = Some doc ->
    gateway w (baseUrl svc) doc = AxRejected e ->
    Err.response e = Some r ->
    ax_data r = JStr text ->
    Err.name e <> "ValidationError" ->
    Err.type e <> Some "validation" ->
    exists resp a,
      outcome w (served (process_handler svc req)) = inr (inl resp)
      /\ er_type resp = "APIError"
      /\ er_status resp = (if (ax_status r =? 0)%Z then 500%Z else ax_status r)
      /\ er_code resp = JStr "API_ERROR"
      /\ er_authorizeNetError resp = Some a
      /\ AuthorizeNetError.status a = Some (ax_status r)
      /\ AuthorizeNetError.statusText a = Some (ax_statusText r)
      /\ AuthorizeNetError.rawResponse a = Some (JStr text)
      /\ AuthorizeNetError.errors a
         = allErrors_of (or_empty (message (messages_ (parse_document text))))
             (or_empty (errors (transactionResponse_ (parse_document text)))).
Proof.
  intros svc req w fields td doc e r text Hb Hv Hbuild Hdoc Hg Hr Hd N T.
  rewrite (served_process_outcome svc req w fields td doc Hb Hv Hbuild Hdoc), Hg.
  cbn [try_catch]. unfold enhance_error. rewrite Hr, Hd.
  cbn [parseXmlResponse bind run snd].
  do 2 eexists. split; [reflexivity|].
  unfold errorHandler. cbn [Err.set_authorizeNetError Err.name Err.type Err.response].
  rewrite (not_validation e N T), Hr, Hd.
  repeat split.
Qed.

Lemma gateway_error_status_is_passed_on_witness :
  exists resp,
    outcome (Failures.rejecting Failures.bad_gateway)
      (served (process_handler Scenario.svc (Scenario.http Failures.payment)))
    = inr (inl resp)
    /\ er_type resp = "APIError"
    /\ er_status resp = 502%Z.
Proof.
  destruct (outcome (Failures.rejecting Failures.bad_gateway)
              (build_transactionData
                 {| paymentToken := Scenario.token; req_amount := JNum 10;
                    userId := JStr "u1"; orderInfo := JObj [] |}))
    as [e|td] eqn:Hbuild.
  - vm_compute in Hbuild. discriminate Hbuild.
  - destruct (createXmlRequest Scenario.svc td) as [doc|] eqn:Hdoc;
      [|vm_compute in Hbuild; injection Hbuild as Hbuild; subst td;
        vm_compute in Hdoc; discriminate Hdoc].
    destruct (gateway_error_status_is_passed_on Scenario.svc
                (Scenario.http Failures.payment)
                (Failures.rejecting Failures.bad_gateway)
                _ td doc Failures.bad_gateway _ _ eq_refl eq_refl Hbuild Hdoc eq_refl
                eq_refl eq_refl ltac:(discriminate) ltac:(discriminate))
      as (resp & a & H & Ty & St & _).
    exists resp. split; [exact H|]. split; [exact Ty|exact St].
Defined.

(** X10. When the request was built and the gateway cannot be reached, so
    that [axios] rejects without a response, the service throws the error of [axios] as it is; refused
    connections and failed look-ups reach the client of [POST /process] as
    status 503 with type [NetworkError] and code [NETWORK_ERROR]. *)
Theorem unreachable_gateway_is_served_as_503 :
  forall (svc : AuthorizeNetService) (req : request) (w : world)
         (fields : list (string * jsval)) (td : transactionData) (doc : string)
         (e : Err.t),
    body req = JObj fields ->
    validationErrors_of (get_opt (body req) "paymentToken")
      (get_opt (body req) "amount") (get_opt (body req) "userId") = [] ->
    outcome w (build_transactionData
                 {| paymentToken := get_opt (body req) "paymentToken";
                    req_amount := get_opt (body req) "amount";
                    userId := get_opt (body req) "userId";
                    orderInfo := js_or (get_opt (body req) "orderInfo") (JObj []) |})
    = inr td ->
    createXmlRequest svc td = Some doc ->
    gateway w (baseUrl svc) doc = AxRejected e ->
    Err.response e = None ->
    Err.authorizeNetError e = None ->
    Err.name e <> "ValidationError" ->
    Err.type e <> Some "validation" ->
    outcome w (process_handler svc req) = inl e
    /\ outcome w (served (process_handler svc req)) = inr (inl (errorHandler e))
    /\ (Err.code e = Some "ECONNREFUSED" \/ Err.code e = Some "ENOTFOUND" ->
        er_status (errorHandler e) = 503%Z
        /\ er_type (errorHandler e) = "NetworkError"
        /\ er_code (errorHandler e) = JStr "NETWORK_ERROR").
Proof.
  intros svc req w fields td doc e Hb Hv Hbuild Hdoc Hg Hr Ha N T.
  split; [|split].
  - rewrite (process_handler_outcome w svc req fields Hb Hv).
    rewrite (process_outcome w svc _ td doc Hbuild Hdoc), Hg.
    cbn [try_catch]. unfold enhance_error. rewrite Hr, Ha. reflexivity.
  - rewrite (served_process_outcome svc req w fields td doc Hb Hv Hbuild Hdoc), Hg.
    cbn [try_catch]. unfold enhance_error. rewrite Hr, Ha. reflexivity.
  - unfold errorHandler. rewrite (not_validation e N T), Hr.
    intros [C|C]; rewrite C; repeat split.
Qed.

Lemma unreachable_gateway_is_served_as_503_witness :
  option_map (fun r => match r with inl resp => er_status resp | inr _ => 200%Z end)
    (returned
       (outcome (Failures.rejecting Failures.refused)
          (served (process_handler Scenario.svc (Scenario.http Failures.payment)))))
  = Some 503%Z.
Proof.
  destruct (outcome (Failures.rejecting Failures.refused)
              (build_transactionData
                 {| paymentToken := Scenario.token; req_amount := JNum 10;
                    userId := JStr "u1"; orderInfo := JObj [] |}))
    as [e|td] eqn:Hbuild.
  - vm_compute in Hbuild. discriminate Hbuild.
  - destruct (createXmlRequest Scenario.svc td) as [doc|] eqn:Hdoc;
      [|vm_compute in Hbuild; injection Hbuild as Hbuild; subst td;
        vm_compute in Hdoc; discriminate Hdoc].
    destruct (unreachable_gateway_is_served_as_503 Scenario.svc
                (Scenario.http Failures.payment)
                (Failures.rejecting Failures.refused)
                _ td doc Failures.refused eq_refl eq_refl Hbuild Hdoc eq_refl
                eq_refl eq_refl ltac:(discriminate) ltac:(discriminate))
      as (_ & H & C).
    rewrite H. cbn [returned option_map].
    exact (f_equal Some (proj1 (C (or_introl eq_refl)))).
Defined.

(** X11. An approved payment, whose request was built and sent, is answered with the transaction of the gateway:
    its id, authorisation code and parsed response, the status [approved],
    and the amount of the request as the client sent it; the run has made
    the one request to the gateway. *)
Theorem approved_payment_reply :
  forall (svc : AuthorizeNetService) (req : request) (w : world)
         (fields : list (string * jsval)) (td : transactionData)
         (doc xml : string),
    body req = JObj fields ->
    validationErrors_of (get_opt (body req) "paymentToken")
      (get_opt (body req) "amount") (get_opt (body req) "userId") = [] ->
    outcome w (build_transactionData
                 {| paymentToken := get_opt (body req) "paymentToken";
                    req_amount := get_opt (body req) "amount";
                    userId := get_opt (body req) "userId";
                    orderInfo := js_or (get_opt (body req) "orderInfo") (JObj []) |})
    = inr td ->
    createXmlRequest svc td = Some doc ->
    gateway w (baseUrl svc) doc = AxResolved (JStr xml) ->
    resultCode (messages_ (parse_document xml)) = Some "Ok" ->
    responseCode (transactionResponse_ (parse_document xml)) = Some "1" ->
    outcome w (served (process_handler svc req))
    = inr (inr (ProcessReply true
                  (transId (transactionResponse_ (parse_document xml)))
                  (authCode (transactionResponse_ (parse_document xml)))
                  (get_opt (body req) "amount") "approved" (Some "1")
                  (transactionResponse_ (parse_document xml))))
    /\ filter is_network (trace w (served (process_handler svc req)))
       = [GatewayRequest (baseUrl svc) doc].
Proof.
  intros svc req w fields td doc xml Hb Hv Hbuild Hdoc Hg Ok One. split.
  - rewrite (served_process_outcome svc req w fields td doc Hb Hv Hbuild Hdoc), Hg.
    cbn [parseXmlResponse bind]. rewrite (classify_approved _ _ Ok One).
    reflexivity.
  - rewrite (served_process_trace svc req w fields td doc Hb Hv Hbuild Hdoc), filter_app.
    now rewrite (filter_offline w _ (offline_build _)).
Qed.

Lemma approved_payment_reply_witness :
  outcome (Scenario.stub Scenario.approved_xml UpTimeout)
    (served (process_handler Scenario.svc (Scenario.http Failures.payment)))
  = inr (inr (ProcessReply true (Some "T1") (Some "AUTH1") (JNum 10) "approved"
                (Some "1")
                (transactionResponse_ (parse_document Scenario.approved_xml)))).
Proof.
  destruct (outcome (Scenario.stub Scenario.approved_xml UpTimeout)
              (build_transactionData
                 {| paymentToken := Scenario.token; req_amount := JNum 10;
                    userId := JStr "u1"; orderInfo := JObj [] |}))
    as [e|td] eqn:Hbuild.
  - vm_compute in Hbuild. discriminate Hbuild.
  - destruct (createXmlRequest Scenario.svc td) as [doc|] eqn:Hdoc;
      [|vm_compute in Hbuild; injection Hbuild as Hbuild; subst td;
        vm_compute in Hdoc; discriminate Hdoc].
    destruct (approved_payment_reply Scenario.svc
                (Scenario.http Failures.payment)
                (Scenario.stub Scenario.approved_xml UpTimeout)
                _ td doc Scenario.approved_xml eq_refl eq_refl Hbuild Hdoc eq_refl
                ltac:(vm_compute; reflexivity) ltac:(vm_compute; reflexivity))
      as [H _].
    rewrite H. vm_compute. reflexivity.
Defined.

(** X12. An answer of the gateway to the request that was sent in which no [messages] section can be found
    (an empty body, an HTML page) is never a success; when no
    [transactionResponse] section can be found either, the failure has the
    fixed message and an empty list of errors. *)
Theorem unreadable_answer_is_a_failure :
  forall (this : AuthorizeNetService) (req : paymentRequest) (w : world)
         (td : transactionData) (doc text : string),
    outcome w (build_transactionData req) = inr td ->
    createXmlRequest this td = Some doc ->
    gateway w (baseUrl this) doc = AxResolved (JStr text) ->
    ~ Str.occurs "<messages" text ->
    outcome w (processApplePayTransaction this req)
    = inl (envelope_failure (parse_document text))
    /\ (~ Str.occurs "<transactionResponse" text ->
        Err.message (envelope_failure (parse_document text))
        = "Authorize.Net transaction failed"
        /\ option_map AuthorizeNetError.errors
             (Err.authorizeNetError (envelope_failure (parse_document text)))
           = Some []
        /\ option_map AuthorizeNetError.resultCode
             (Err.authorizeNetError (envelope_failure (parse_document text)))
           = Some None).
Proof.
  intros this req w td doc text Hbuild Hdoc Hg NM.
  assert (M : messages_ (parse_document text) = no_messages).
  { unfold parse_document; cbn [messages_]. unfold Regex.section, Regex.match1.
    now rewrite (MatchFacts.exec_absent _ _ _ NM). }
  split.
  - rewrite (process_outcome w this req td doc Hbuild Hdoc), Hg.
    cbn [parseXmlResponse bind]. rewrite classify_not_Ok by (rewrite M; discriminate).
    cbn [try_catch]. now rewrite enhance_envelope_failure.
  - intros NT.
    assert (R : transactionResponse_ (parse_document text) = no_transactionResponse).
    { unfold parse_document; cbn [transactionResponse_].
      unfold Regex.section, Regex.match1.
      now rewrite (MatchFacts.exec_absent _ _ _ NT). }
    unfold envelope_failure. rewrite M, R. repeat split.
Qed.

Lemma unreadable_answer_is_a_failure_witness :
  option_map Err.message
    (thrown (outcome (Scenario.stub "<html><body>Bad Gateway</body></html>" UpTimeout)
               (processApplePayTransaction Scenario.svc (Scenario.request_of (JObj [])))))
  = Some "Authorize.Net transaction failed".
Proof.
  destruct (outcome (Scenario.stub "<html><body>Bad Gateway</body></html>" UpTimeout)
              (build_transactionData (Scenario.request_of (JObj []))))
    as [e|td] eqn:Hbuild.
  - vm_compute in Hbuild. discriminate Hbuild.
  - destruct (createXmlRequest Scenario.svc td) as [doc|] eqn:Hdoc;
      [|vm_compute in Hbuild; injection Hbuild as Hbuild; subst td;
        vm_compute in Hdoc; discriminate Hdoc].
    destruct (unreadable_answer_is_a_failure Scenario.svc
                (Scenario.request_of (JObj []))
                (Scenario.stub "<html><body>Bad Gateway</body></html>" UpTimeout)
                td doc "<html><body>Bad Gateway</body></html>" Hbuild Hdoc eq_refl
                (not_occurs "<messages" "<html><body>Bad Gateway</body></html>"
                   eq_refl))
      as [H M].
    rewrite H. cbn [thrown option_map].
    exact (f_equal Some
             (proj1 (M (not_occurs "<transactionResponse"
                          "<html><body>Bad Gateway</body></html>" eq_refl)))).
Defined.

(* ================================================================== *)
(** * What the client of [POST /validate] receives *)
(* ================================================================== *)

Section ValidateServed.
Variables (cfg : config) (req : request) (w : world).
Variable fields : list (string * jsval).
Hypothesis Hbody : body req = JObj fields.
Hypothesis Hurl : truthy (get_opt (body req) "validationURL") = true.

(** The run of the handler on a request that has a validation URL. *)
Lemma validate_with_url :
  run w (validate_handler cfg req)
  = match files w (appleMerchantCertPath cfg) with
    | inr msg =>
        ([FileRead (appleMerchantCertPath cfg)],
         inl (certificate_failure "certificate"
                "Merchant identity certificate not found"
                (appleMerchantCertPath cfg) msg))
    | inl cert =>
        match files w (appleMerchantKeyPath cfg) with
        | inr msg =>
            ([FileRead (appleMerchantCertPath cfg);
              FileRead (appleMerchantKeyPath cfg)],
             inl (certificate_failure "private key"
                    "Merchant private key not found"
                    (appleMerchantKeyPath cfg) msg))
        | inl key =>
            (FileRead (appleMerchantCertPath cfg)
               :: FileRead (appleMerchantKeyPath cfg)
               :: match wallet w (get_opt (body req) "validationURL")
                          (requestData_of cfg req) with
                  | UpThrows _ => []
                  | _ => [WalletRequest (get_opt (body req) "validationURL")
                            (requestData_of cfg req)]
                  end,
             match wallet w (get_opt (body req) "validationURL")
                     (requestData_of cfg req) with
             | UpResponse st msg data =>
                 if (st =? 200)%Z then
                   match json w data with
                   | inr session => inr (ValidateReply true session)
                   | inl message => inl (parse_failure message data)
                   end
                 else inl (status_failure st msg data)
             | UpError error => inl (network_failure error)
             | UpTimeout => inl timeout_failure
             | UpThrows e => inl e
             end)
        end
    end.
Proof.
  rewrite validate_run. rewrite !Hbody in *. cbv zeta. rewrite Hurl. reflexivity.
Qed.

Lemma served_validate :
  run w (served (validate_handler cfg req))
  = (fst (run w (validate_handler cfg req)),
     inr match snd (run w (validate_handler cfg req)) with
         | inl err => inl (errorHandler err)
         | inr r => inr r
         end).
Proof. apply served_run. Qed.

End ValidateServed.

(** X13. When the merchant certificate cannot be read, [POST /validate] stops
    there: the key file is not read and no request leaves the server; when
    the certificate can be read and the key cannot, no request leaves the
    server either.  The client receives status 500 with type [FileError] and
    code [FILE_NOT_FOUND], and the details name the file. *)
Theorem missing_certificate_stops_before_the_network :
  forall (cfg : config) (req : request) (w : world)
         (fields : list (string * jsval)),
    body req = JObj fields ->
    truthy (get_opt (body req) "validationURL") = true ->
    (forall msg,
        files w (appleMerchantCertPath cfg) = inr msg ->
        exists resp,
          run w (served (validate_handler cfg req))
          = ([FileRead (appleMerchantCertPath cfg)], inr (inl resp))
          /\ er_status resp = 500%Z
          /\ er_type resp = "FileError"
          /\ er_code resp = JStr "FILE_NOT_FOUND"
          /\ er_message resp = "Failed to load merchant certificate: " ++ msg
          /\ er_applePayError resp
             = Some {| ApplePayError.type := Some "CertificateError";
                       ApplePayError.message :=
                         Some "Merchant identity certificate not found";
                       ApplePayError.path := Some (appleMerchantCertPath cfg);
                       ApplePayError.statusCode := None;
                       ApplePayError.statusMessage := None;
                       ApplePayError.response := None |})
    /\ (forall cert msg,
           files w (appleMerchantCertPath cfg) = inl cert ->
           files w (appleMerchantKeyPath cfg) = inr msg ->
           exists resp,
             run w (served (validate_handler cfg req))
             = ([FileRead (appleMerchantCertPath cfg);
                 FileRead (appleMerchantKeyPath cfg)], inr (inl resp))
             /\ er_status resp = 500%Z
             /\ er_type resp = "FileError"
             /\ er_code resp = JStr "FILE_NOT_FOUND"
             /\ er_message resp = "Failed to load merchant private key: " ++ msg
             /\ er_applePayError resp
                = Some {| ApplePayError.type := Some "CertificateError";
                          ApplePayError.message := Some "Merchant private key not found";
                          ApplePayError.path := Some (appleMerchantKeyPath cfg);
                          ApplePayError.statusCode := None;
                          ApplePayError.statusMessage := None;
                          ApplePayError.response := None |}).
Proof.
  intros cfg req w fields Hb Hu. split.
  - intros msg Hc. rewrite served_validate, (validate_with_url cfg req w fields Hb Hu), Hc.
    cbn [fst snd]. eexists. split; [reflexivity|]. repeat split.
  - intros cert msg Hc Hk.
    rewrite served_validate, (validate_with_url cfg req w fields Hb Hu), Hc, Hk.
    cbn [fst snd]. eexists. split; [reflexivity|]. repeat split.
Qed.

Lemma missing_certificate_stops_before_the_network_witness :
  trace Failures.without_certificate
    (served (validate_handler Scenario.cfg (Scenario.http Failures.validation)))
  = [FileRead "/certs/apple-merchant-cert.pem"].
Proof.
  destruct (proj1 (missing_certificate_stops_before_the_network Scenario.cfg
                     (Scenario.http Failures.validation)
                     Failures.without_certificate _ eq_refl eq_refl)
              "ENOENT: no such file or directory" eq_refl)
    as (resp & H & _).
  unfold trace. rewrite H. reflexivity.
Defined.

(** X14. With both files readable, [POST /validate] makes exactly one request
    to the validation URL, whatever comes back; when the call of
    [https.request] itself throws, no request is made and the error it threw
    is what the handler throws.  A failure of the request (an error of the
    connection, the time-out, a status other than 200, a body that
    [JSON.parse] refuses) reaches the client as status 500 with type
    [ApplicationError] and code [INTERNAL_ERROR]: the status of the wallet
    provider is not passed on as the status of the reply, it is part of the
    details.  The reply of a refused body carries the message of the
    parser, that of a failed connection carries the error of the
    connection. *)
Theorem failed_validation_is_served_as_500 :
  forall (cfg : config) (req : request) (w : world)
         (fields : list (string * jsval)) (cert key : string),
    body req = JObj fields ->
    truthy (get_opt (body req) "validationURL") = true ->
    files w (appleMerchantCertPath cfg) = inl cert ->
    files w (appleMerchantKeyPath cfg) = inl key ->
    (forall e,
        wallet w (get_opt (body req) "validationURL") (requestData_of cfg req)
        = UpThrows e ->
        run w (validate_handler cfg req)
        = ([FileRead (appleMerchantCertPath cfg);
            FileRead (appleMerchantKeyPath cfg)], inl e))
    /\ ((forall e,
            wallet w (get_opt (body req) "validationURL") (requestData_of cfg req)
            <> UpThrows e) ->
        trace w (served (validate_handler cfg req))
        = [FileRead (appleMerchantCertPath cfg);
           FileRead (appleMerchantKeyPath cfg);
           WalletRequest (get_opt (body req) "validationURL")
             (requestData_of cfg req)])
    /\ forall err,
        match wallet w (get_opt (body req) "validationURL") (requestData_of cfg req) with
        | UpResponse st msg data =>
            (st <> 200%Z /\ err = status_failure st msg data)
            \/ (st = 200%Z
                /\ exists message,
                    json w data = inl message /\ err = parse_failure message data)
        | UpError error => err = network_failure error
        | UpTimeout => err = timeout_failure
        | UpThrows _ => False
        end ->
        outcome w (served (validate_handler cfg req)) = inr (inl (errorHandler err))
        /\ er_status (errorHandler err) = 500%Z
        /\ er_type (errorHandler err) = "ApplicationError"
        /\ er_code (errorHandler err) = JStr "INTERNAL_ERROR"
        /\ er_applePayError (errorHandler err) = Err.applePayError err
        /\ Err.applePayError err <> None
        /\ (forall message data,
               err = parse_failure message data -> message <> EmptyString ->
               er_originalError (errorHandler err) = Some (OriginalMessage message))
        /\ (forall error,
               err = network_failure error ->
               er_originalError (errorHandler err) = Some (OriginalError error)).
Proof.
  intros cfg req w fields cert key Hb Hu Hc Hk.
  unfold trace, outcome.
  rewrite served_validate, (validate_with_url cfg req w fields Hb Hu), Hc, Hk.
  cbn [fst snd]. split; [|split].
  - intros e ->. reflexivity.
  - intros N.
    destruct (wallet w (get_opt (body req) "validationURL") (requestData_of cfg req))
      as [st msg data|error| |e]; try reflexivity.
    now elim (N e).
  - intros err H.
    destruct (wallet w (get_opt (body req) "validationURL") (requestData_of cfg req))
      as [st msg data|error| |e].
    + destruct H as [[N ->]|[-> (message & P & ->)]].
      * apply Z.eqb_neq in N. rewrite N. repeat split; try discriminate.
      * cbn [Z.eqb Pos.eqb]. rewrite P. repeat split; try discriminate.
        intros message' data' E Ne.
        apply (f_equal Err.originalError) in E. cbn in E.
        injection E as ->. cbn. now destruct message'.
    + subst err. repeat split; try discriminate.
      intros error' E. apply (f_equal Err.originalError) in E. cbn in E.
      now injection E as ->.
    + subst err. repeat split; discriminate.
    + contradiction.
Qed.

Lemma failed_validation_is_served_as_500_witness :
  outcome (Scenario.stub Scenario.approved_xml (UpResponse 403 "Forbidden" "denied"))
    (served (validate_handler Scenario.cfg (Scenario.http Failures.validation)))
  = inr (inl (errorHandler (status_failure 403 "Forbidden" "denied"))).
Proof.
  refine (proj1 (proj2 (proj2 (failed_validation_is_served_as_500 Scenario.cfg
                                 (Scenario.http Failures.validation)
                                 (Scenario.stub Scenario.approved_xml
                                    (UpResponse 403 "Forbidden" "denied"))
                                 _ "PEM" "PEM" eq_refl eq_refl eq_refl eq_refl))
                   (status_failure 403 "Forbidden" "denied") _)).
  left. split; [discriminate|reflexivity].
Defined.

(** X15. The body that [POST /validate] sends to the wallet provider is a JSON
    text of three fields: read back, it gives the merchant id of the
    configuration, the host name of the request and the fixed display name.
    When the request has neither a host name nor a [Host] header, the text
    has no [domainName] at all. *)
Theorem validation_request_body :
  forall (cfg : config) (req : request),
    (forall domain,
        js_or (hostname req) (host_header req) = JStr domain ->
        Json.JSON_parse (requestData_of cfg req)
        = Some (JObj [("merchantIdentifier", JStr (appleMerchantId cfg));
                      ("domainName", JStr domain);
                      ("displayName", JStr "Apple Pay POC")]))
    /\ (js_or (hostname req) (host_header req) = JUndefined ->
        Json.JSON_parse (requestData_of cfg req)
        = Some (JObj [("merchantIdentifier", JStr (appleMerchantId cfg));
                      ("displayName", JStr "Apple Pay POC")])).
Proof.
  intros cfg req. unfold requestData_of. split.
  - intros domain ->. now apply JsonFacts.JSON_parse_stringify.
  - intros ->.
    change (Json.stringify
              (JObj [("merchantIdentifier", JStr (appleMerchantId cfg));
                     ("domainName", JUndefined);
                     ("displayName", JStr "Apple Pay POC")]))
      with (Json.stringify
              (JObj [("merchantIdentifier", JStr (appleMerchantId cfg));
                     ("displayName", JStr "Apple Pay POC")])).
    now apply JsonFacts.JSON_parse_stringify.
Qed.

Lemma validation_request_body_witness :
  Json.JSON_parse
    (requestData_of Scenario.cfg (Scenario.http Failures.validation))
  = Some (JObj [("merchantIdentifier", JStr "merchant.example");
                ("domainName", JStr "shop.example");
                ("displayName", JStr "Apple Pay POC")]).
Proof.
  exact (proj1 (validation_request_body Scenario.cfg
                  (Scenario.http Failures.validation)) "shop.example" eq_refl).
Defined.

(* ================================================================== *)
(** * The error middleware *)
(* ================================================================== *)

(** The three values that the chain of conditions of [errorHandler]
    settles. *)
Lemma errorHandler_class (err : Err.t) :
  (er_type (errorHandler err), er_status (errorHandler err), er_code (errorHandler err))
  = if (Err.name err =? "ValidationError")
       || match Err.type err with Some t => t =? "validation" | None => false end
    then ("ValidationError", 400%Z, JStr "VALIDATION_ERROR")
    else
      match Err.response err with
      | Some response =>
          ("APIError",
           (if (ax_status response =? 0)%Z then 500%Z else ax_status response),
           js_or (match ax_data response with
                  | JUndefined | JNull => JUndefined
                  | d => get_opt d "code"
                  end) (JStr "API_ERROR"))
      | None =>
          if match Err.code err with Some x => x =? "ENOTFOUND" | None => false end
             || match Err.code err with Some x => x =? "ECONNREFUSED" | None => false end
          then ("NetworkError", 503%Z, JStr "NETWORK_ERROR")
          else if match Err.code err with Some x => x =? "ENOENT" | None => false end
          then ("FileError", 500%Z, JStr "FILE_NOT_FOUND")
          else ("ApplicationError",
                (if truthy_Z (Err.statusCode err) then or_zero (Err.statusCode err)
                 else if truthy_Z (Err.status err) then or_zero (Err.status err)
                 else 500%Z),
                (if truthy_string (Err.code err) then
                   JStr (match Err.code err with Some c => c | None => EmptyString end)
                 else JStr "INTERNAL_ERROR"))
      end.
Proof.
  unfold errorHandler. cbv zeta.
  destruct ((Err.name err =? "ValidationError") || _); [reflexivity|].
  destruct (Err.response err) as [r|]; [reflexivity|].
  destruct (_ || _); [reflexivity|].
  destruct (match Err.code err with Some x => x =? "ENOENT" | None => false end);
    reflexivity.
Qed.

(** What the reply takes over from the error. *)
Lemma errorHandler_content (err : Err.t) :
  er_message (errorHandler err)
  = (if Err.message err =? EmptyString then "An unexpected error occurred"
     else Err.message err)
  /\ er_details (errorHandler err)
     = match Err.fields err with
       | Some fs => Some (FieldDetails fs)
       | None =>
           match Err.details err with
           | Some (f, c) => Some (Details f c)
           | None => None
           end
       end
  /\ er_authorizeNetError (errorHandler err) = Err.authorizeNetError err
  /\ er_applePayError (errorHandler err) = Err.applePayError err.
Proof.
  unfold errorHandler. cbv zeta.
  destruct ((Err.name err =? "ValidationError") || _); [repeat split|].
  destruct (Err.response err) as [r|]; [repeat split|].
  destruct (_ || _); [repeat split|].
  destruct (match Err.code err with Some x => x =? "ENOENT" | None => false end);
    repeat split.
Qed.

Lemma status_of_application_error (a b : option Z) :
  (if truthy_Z a then or_zero a else if truthy_Z b then or_zero b else 500%Z) <> 0%Z
  /\ ((if truthy_Z a then or_zero a else if truthy_Z b then or_zero b else 500%Z) = 400%Z
      -> a = Some 400%Z \/ b = Some 400%Z).
Proof.
  unfold truthy_Z, or_zero.
  destruct a as [a|]; [destruct (Z.eqb_spec a 0)|]; cbn [negb];
    try (split; [assumption|intros ->; auto]);
    (destruct b as [b|]; [destruct (Z.eqb_spec b 0)|]; cbn [negb];
     try (split; [assumption|intros ->; auto]);
     (split; [discriminate|discriminate])).
Qed.

(** X16. Whatever error reaches [errorHandler], the reply has a message that
    is not empty and a status that is not 0.  An error marked as a validation
    error is answered with 400 and [VALIDATION_ERROR] whatever else it
    carries (a response, a code, a status of its own); any other reply with
    status 400 has that status from the gateway or from the error itself.
    The field violations, when present, replace the details. *)
Theorem errorHandler_reply_is_well_formed :
  forall err : Err.t,
    er_message (errorHandler err) <> EmptyString
    /\ er_status (errorHandler err) <> 0%Z
    /\ (Err.name err = "ValidationError" \/ Err.type err = Some "validation" ->
        er_status (errorHandler err) = 400%Z
        /\ er_type (errorHandler err) = "ValidationError"
        /\ er_code (errorHandler err) = JStr "VALIDATION_ERROR")
    /\ (er_status (errorHandler err) = 400%Z ->
        er_type (errorHandler err) = "ValidationError"
        \/ (er_type (errorHandler err) = "APIError"
            /\ option_map ax_status (Err.response err) = Some 400%Z)
        \/ (er_type (errorHandler err) = "ApplicationError"
            /\ (Err.statusCode err = Some 400%Z \/ Err.status err = Some 400%Z)))
    /\ (forall fs, Err.fields err = Some fs ->
                   er_details (errorHandler err) = Some (FieldDetails fs)).
Proof.
  intros err. pose proof (errorHandler_class err) as C.
  split; [|split; [|split; [|split]]].
  - rewrite (proj1 (errorHandler_content err)).
    destruct (String.eqb_spec (Err.message err) EmptyString); cbv iota;
      [discriminate|assumption].
  - destruct ((Err.name err =? "ValidationError") || _);
      [injection C as T S K; rewrite S; discriminate|].
    destruct (Err.response err) as [r|].
    + injection C as T S K. rewrite S.
      destruct (Z.eqb_spec (ax_status r) 0); [discriminate|assumption].
    + destruct (_ || _); [injection C as T S K; rewrite S; discriminate|].
      destruct (match Err.code err with Some x => x =? "ENOENT" | None => false end);
        injection C as T S K; rewrite S; [discriminate|].
      apply status_of_application_error.
  - intros V.
    assert (E : (Err.name err =? "ValidationError")
                || match Err.type err with
                   | Some t => t =? "validation"
                   | None => false
                   end = true).
    { destruct V as [V|V]; rewrite V; [reflexivity|]. cbn. apply orb_true_r. }
    rewrite E in C. injection C as T S K. auto.
  - destruct ((Err.name err =? "ValidationError") || _);
      [injection C as T S K; auto|].
    destruct (Err.response err) as [r|].
    + injection C as T S K. rewrite S, T. intros H. right. left. split; [reflexivity|].
      cbn [option_map]. destruct (Z.eqb_spec (ax_status r) 0); [discriminate H|now rewrite H].
    + destruct (_ || _); [injection C as T S K; rewrite S; discriminate|].
      destruct (match Err.code err with Some x => x =? "ENOENT" | None => false end);
        injection C as T S K; rewrite S, T; [discriminate|].
      intros H. right. right. split; [reflexivity|].
      now apply status_of_application_error.
  - intros fs F. rewrite (proj1 (proj2 (errorHandler_content err))). now rewrite F.
Qed.

Lemma errorHandler_reply_is_well_formed_witness :
  er_status (errorHandler (validation_failed [])) = 400%Z
  /\ er_type (errorHandler (validation_failed [])) = "ValidationError"
  /\ er_code (errorHandler (validation_failed [])) = JStr "VALIDATION_ERROR".
Proof.
  exact (proj1 (proj2 (proj2 (errorHandler_reply_is_well_formed (validation_failed []))))
           (or_intror eq_refl)).
Defined.

(* ================================================================== *)
(** * The configuration *)
(* ================================================================== *)

Section ConfigFacts.
Variables (parseInt10 parseFloat : string -> jsval) (resolve : string -> string).
Variable env : string -> option string.

Lemma validate_new (c : Config.t) :
  Config.new parseInt10 parseFloat resolve env = inr c ->
  Config.validate c = None
  /\ Config.appleMerchantId c = Config.env_or env "APPLE_MERCHANT_ID" EmptyString
  /\ Config.authorizeNetApiLoginId c
     = Config.env_or env "AUTHORIZE_NET_API_LOGIN_ID" EmptyString
  /\ Config.authorizeNetTransactionKey c
     = Config.env_or env "AUTHORIZE_NET_TRANSACTION_KEY" EmptyString
  /\ Config.authorizeNetBaseUrl c
     = (if Config.env_or env "AUTHORIZE_NET_MODE" "sandbox" =? "production"
        then "https://api.authorize.net/xml/v1/request.api"
        else "https://apitest.authorize.net/xml/v1/request.api").
Proof.
  unfold Config.new.
  destruct (Config.validate _) eqn:V; [discriminate|].
  intros H. inversion H; subst c; clear H. repeat split. exact V.
Qed.

Lemma validate_none (c : Config.t) :
  Config.validate c = None ->
  Config.appleMerchantId c <> EmptyString
  /\ Config.authorizeNetApiLoginId c <> EmptyString
  /\ Config.authorizeNetTransactionKey c <> EmptyString.
Proof.
  unfold Config.validate.
  destruct (String.eqb_spec (Config.appleMerchantId c) EmptyString);
    destruct (String.eqb_spec (Config.authorizeNetApiLoginId c) EmptyString);
    destruct (String.eqb_spec (Config.authorizeNetTransactionKey c) EmptyString);
    try discriminate. auto.
Qed.

End ConfigFacts.

(** X17. The configuration is built exactly when none of the three required
    settings is unset or empty.  Otherwise the constructor throws one error
    whose message lists every missing setting, one on a line, in the order
    merchant id, login id, transaction key. *)
Theorem configuration_errors_list_every_missing_setting :
  forall (parseInt10 parseFloat : string -> jsval) (resolve : string -> string)
         (env : string -> option string),
    match Config.new parseInt10 parseFloat resolve env with
    | inr c => Config.missing env = []
    | inl error =>
        Config.missing env <> []
        /\ Err.message error
           = "Configuration errors:" ++ Config.newline
             ++ Str.join Config.newline
                  (map (fun key => key ++ " is required") (Config.missing env))
    end.
Proof.
  intros parseInt10 parseFloat resolve env.
  unfold Config.new, Config.validate, Config.missing, Config.required.
  cbn [Config.appleMerchantId Config.authorizeNetApiLoginId
       Config.authorizeNetTransactionKey filter].
  destruct (Config.env_or env "APPLE_MERCHANT_ID" EmptyString =? EmptyString);
    destruct (Config.env_or env "AUTHORIZE_NET_API_LOGIN_ID" EmptyString =? EmptyString);
    destruct (Config.env_or env "AUTHORIZE_NET_TRANSACTION_KEY" EmptyString
              =? EmptyString);
    cbn [app]; try reflexivity; (split; [discriminate|reflexivity]).
Qed.

(** X18. The service built from a configuration sends its requests to the
    production end point exactly when [AUTHORIZE_NET_MODE] is the string
    [production]; with any other value, or with none, it sends them to the
    test end point.  Its credentials are the two required settings, which are
    not empty. *)
Theorem production_only_on_the_exact_mode :
  forall (parseInt10 parseFloat : string -> jsval) (resolve : string -> string)
         (env : string -> option string) (c : Config.t),
    Config.new parseInt10 parseFloat resolve env = inr c ->
    (env "AUTHORIZE_NET_MODE" = Some "production" ->
     baseUrl (AuthorizeNetService_new c) = "https://api.authorize.net/xml/v1/request.api")
    /\ (env "AUTHORIZE_NET_MODE" <> Some "production" ->
        baseUrl (AuthorizeNetService_new c)
        = "https://apitest.authorize.net/xml/v1/request.api")
    /\ apiLoginId (AuthorizeNetService_new c) <> EmptyString
    /\ transactionKey (AuthorizeNetService_new c) <> EmptyString
    /\ forall (req : paymentRequest) (w : world) (url body : string),
        In (GatewayRequest url body)
          (trace w (processApplePayTransaction (AuthorizeNetService_new c) req)) ->
        url = (if match env "AUTHORIZE_NET_MODE" with
                  | Some mode => mode =? "production"
                  | None => false
                  end
               then "https://api.authorize.net/xml/v1/request.api"
               else "https://apitest.authorize.net/xml/v1/request.api").
Proof.
  intros parseInt10 parseFloat resolve env c H.
  destruct (validate_new _ _ _ _ c H) as (V & _ & _ & _ & U).
  destruct (validate_none c V) as (_ & L & K).
  assert (M : (Config.env_or env "AUTHORIZE_NET_MODE" "sandbox" =? "production")
              = match env "AUTHORIZE_NET_MODE" with
                | Some mode => mode =? "production"
                | None => false
                end).
  { unfold Config.env_or. destruct (env "AUTHORIZE_NET_MODE") as [mode|]; [|reflexivity].
    destruct (String.eqb_spec mode EmptyString) as [->|]; reflexivity. }
  rewrite M in U. cbn [AuthorizeNetService_new baseUrl apiLoginId transactionKey].
  split; [|split; [|split; [|split]]]; auto.
  - intros P. now rewrite U, P.
  - intros P. rewrite U. destruct (env "AUTHORIZE_NET_MODE") as [mode|]; [|reflexivity].
    destruct (String.eqb_spec mode "production"); [congruence|reflexivity].
  - intros req w url body I. rewrite process_trace in I.
    assert (O : forall t, existsb is_network t = false ->
                          ~ In (GatewayRequest url body) t).
    { intros t F J.
      assert (T : existsb is_network t = true).
      { apply existsb_exists. exists (GatewayRequest url body).
        split; [exact J|reflexivity]. }
      congruence. }
    pose proof (O _ (offline_trace w _ (offline_build req))) as NB.
    destruct (outcome w (build_transactionData req)) as [e|td]; [contradiction|].
    destruct (createXmlRequest (AuthorizeNetService_new c) td) as [doc|];
      [|contradiction].
    apply in_app_or in I as [I|[I|[]]]; [contradiction|].
    inversion I. cbn [AuthorizeNetService_new baseUrl]. exact U.
Qed.

Lemma production_only_on_the_exact_mode_witness :
  match Config.new (fun _ => JNum 3000) (fun _ => JNum 10)
          (fun p => "/srv/app/" ++ p)
          (fun key =>
             if key =? "AUTHORIZE_NET_MODE" then Some "Production"
             else if key =? "NODE_ENV" then None
             else Some "x") with
  | inr c =>
      baseUrl (AuthorizeNetService_new c)
      = "https://apitest.authorize.net/xml/v1/request.api"
  | inl _ => False
  end.
Proof.
  destruct (Config.new (fun _ => JNum 3000) (fun _ => JNum 10)
              (fun p => "/srv/app/" ++ p)
              (fun key =>
                 if key =? "AUTHORIZE_NET_MODE" then Some "Production"
                 else if key =? "NODE_ENV" then None
                 else Some "x")) as [e|c] eqn:H.
  - vm_compute in H. discriminate H.
  - exact (proj1 (proj2 (production_only_on_the_exact_mode _ _ _ _ c H))
             ltac:(discriminate)).
Defined.

(** X19. [getConfig] never shows a credential: each of the two is printed as
    three stars, or as the empty string when it is empty, and the signature
    key is not part of the object.  For a configuration that the constructor
    built, where no credential is empty, both are three stars. *)
Theorem getConfig_masks_the_credentials :
  forall this : Config.t,
    (get_opt (Config.getConfig this) "authorizeNetApiLoginId"
     = JStr (if Config.authorizeNetApiLoginId this =? EmptyString
             then EmptyString else "***"))
    /\ (get_opt (Config.getConfig this) "authorizeNetTransactionKey"
        = JStr (if Config.authorizeNetTransactionKey this =? EmptyString
                then EmptyString else "***"))
    /\ get_opt (Config.getConfig this) "authorizeNetSignatureKey" = JUndefined
    /\ forall (parseInt10 parseFloat : string -> jsval) (resolve : string -> string)
              (env : string -> option string),
        Config.new parseInt10 parseFloat resolve env = inr this ->
        get_opt (Config.getConfig this) "authorizeNetApiLoginId" = JStr "***"
        /\ get_opt (Config.getConfig this) "authorizeNetTransactionKey" = JStr "***".
Proof.
  intros this. split; [reflexivity|]. split; [reflexivity|]. split; [reflexivity|].
  intros parseInt10 parseFloat resolve env H.
  destruct (validate_new _ _ _ _ this H) as (V & _).
  destruct (validate_none this V) as (_ & L & K).
  apply String.eqb_neq in L, K.
  cbn [Config.getConfig get_opt assoc String.eqb Ascii.eqb Bool.eqb].
  now rewrite L, K.
Qed.

(* ================================================================== *)
(** * The webhook *)
(* ================================================================== *)

(** X20. [POST /webhook] acknowledges every notification that has a body:
    the reply is status 200 with [success: true], the event type of the body
    and the event id of the header, whatever the event type is and whatever
    signature was sent, or none.  The reply for a failed processing is never
    sent; a request without a body is not acknowledged, it throws. *)
Theorem webhook_is_always_acknowledged :
  forall (req : webhookRequest) (w : world),
    (wh_body req <> JUndefined -> wh_body req <> JNull ->
     run w (webhook_handler req)
     = ([], inr (200%Z,
                 JObj [("success", JBool true);
                       ("message", JStr "Webhook received and processed");
                       ("eventType", get_opt (wh_body req) "eventType");
                       ("eventId", wh_eventId req)])))
    /\ (wh_body req = JUndefined \/ wh_body req = JNull ->
        exists e, run w (webhook_handler req) = ([], inl e)
                  /\ Err.name e = "TypeError")
    /\ (forall r, outcome w (webhook_handler req) = inr r ->
                  get_opt (snd r) "success" = JBool true)
    /\ (forall signature,
           run w (webhook_handler
                    {| wh_body := wh_body req; wh_signature := signature;
                       wh_eventId := wh_eventId req |})
           = run w (webhook_handler req)).
Proof.
  intros req w. unfold webhook_handler. split; [|split; [|split]].
  - intros U N. destruct (wh_body req); try contradiction; reflexivity.
  - intros [-> | ->]; eexists; split; reflexivity.
  - intros r. destruct (wh_body req); cbn; intros H; inversion H; reflexivity.
  - reflexivity.
Qed.

Lemma webhook_is_always_acknowledged_witness :
  run (Scenario.stub Scenario.approved_xml UpTimeout)
    (webhook_handler
       {| wh_body := JObj [("eventType", JStr "net.authorize.unknown.event")];
          wh_signature := JUndefined;
          wh_eventId := JStr "E1" |})
  = ([], inr (200%Z,
              JObj [("success", JBool true);
                    ("message", JStr "Webhook received and processed");
                    ("eventType", JStr "net.authorize.unknown.event");
                    ("eventId", JStr "E1")])).
Proof.
  exact (proj1 (webhook_is_always_acknowledged
                  {| wh_body := JObj [("eventType", JStr "net.authorize.unknown.event")];
                     wh_signature := JUndefined;
                     wh_eventId := JStr "E1" |}
                  (Scenario.stub Scenario.approved_xml UpTimeout))
           ltac:(discriminate) ltac:(discriminate)).
Defined.

(* ================================================================== *)
(** * The logger of the page *)
(* ================================================================== *)

Section LoggerFacts.
Variable w : world.

Lemma length_push_bounded {A} (max : nat) (buffer : list A) (x : A) :
  length buffer <= max -> length (Logger.push_bounded max buffer x) <= max.
Proof.
  intros L. unfold Logger.push_bounded.
  destruct (Nat.ltb_spec max (length (buffer ++ [x]))) as [G|G]; [|exact G].
  rewrite length_app in G. cbn in G.
  destruct buffer as [|a buffer]; cbn in *; [lia|].
  rewrite length_app. cbn. lia.
Qed.

Lemma push_bounded_recent {A} (max : nat) (buffer : list A) (x : A) :
  length buffer <= max ->
  Logger.push_bounded max buffer x
  = skipn (length (buffer ++ [x]) - max) (buffer ++ [x]).
Proof.
  intros L. unfold Logger.push_bounded. rewrite length_app. cbn [length].
  destruct (Nat.ltb_spec max (length buffer + 1)) as [G|G].
  - replace (length buffer + 1 - max) with 1 by lia.
    now destruct (buffer ++ [x])%list.
  - replace (length buffer + 1 - max) with 0 by lia. reflexivity.
Qed.

(** The logger after a call of [log]. *)
Lemma log_run (this : Logger.t) (level message data : jsval) :
  run w (Logger.log this level message data)
  = ([ClockRead],
     inr {| Logger.logs :=
              Logger.push_bounded (Logger.maxLogs this) (Logger.logs this)
                {| Logger.timestamp := clock w; Logger.level := level;
                   Logger.message := message;
                   Logger.data := Logger.or_empty_object data |};
            Logger.errors := Logger.errors this;
            Logger.maxLogs := Logger.maxLogs this;
            Logger.maxErrors := Logger.maxErrors this |}).
Proof. reflexivity. Qed.

Lemma log_bounded (this this' : Logger.t) (level message data : jsval) :
  Logger.bounded this ->
  outcome w (Logger.log this level message data) = inr this' ->
  Logger.bounded this'
  /\ Logger.maxLogs this' = Logger.maxLogs this
  /\ Logger.maxErrors this' = Logger.maxErrors this.
Proof.
  intros [L E] H. unfold outcome in H. rewrite log_run in H.
  inversion H; subst this'; clear H. cbn.
  repeat split; auto. now apply length_push_bounded.
Qed.

Lemma perform_bounded (this this' : Logger.t) (c : Logger.call) :
  Logger.bounded this ->
  outcome w (Logger.perform this c) = inr this' ->
  Logger.bounded this'
  /\ Logger.maxLogs this' = Logger.maxLogs this
  /\ Logger.maxErrors this' = Logger.maxErrors this.
Proof.
  intros B H. destruct c; cbn [Logger.perform] in H;
    try (unfold Logger.info, Logger.event, Logger.warn in H;
         now apply log_bounded in H).
  - unfold Logger.error in H. unfold outcome in H. cbn [run] in H.
    destruct (get_prop error "message") as [m|e| | | | |] eqn:G;
      try (destruct error; discriminate G).
    + cbn [bind] in H.
      change (snd (let (tr, r) := run w (Logger.log ?t ?l ?m' ?d) in (ClockRead :: tr, r)))
        with (outcome w (Logger.log t l m' d)) in H.
      apply log_bounded in H; [exact H|].
      destruct B as [L E]. split; [exact L|]. cbn. now apply length_push_bounded.
    + cbn in H. discriminate H.
  - unfold Logger.request, Logger.spaced in H.
    destruct (to_String method), (to_String url); cbn [bind] in H;
      try discriminate H; now apply log_bounded in H.
  - unfold Logger.response, Logger.spaced in H.
    destruct (to_String status), (to_String url); cbn [bind] in H;
      try discriminate H; now apply log_bounded in H.
  - inversion H; subst this'. unfold Logger.bounded; cbn. repeat split; lia.
  - inversion H; subst this'. destruct B as [L E]. unfold Logger.bounded; cbn.
    repeat split; [exact L|lia].
Qed.

Lemma after_bounded (calls : list Logger.call) (this : Logger.t) :
  Logger.bounded this ->
  Logger.bounded (Logger.after w this calls)
  /\ Logger.maxLogs (Logger.after w this calls) = Logger.maxLogs this
  /\ Logger.maxErrors (Logger.after w this calls) = Logger.maxErrors this.
Proof.
  revert this. induction calls as [|c calls IH]; intros this B;
    [cbn [Logger.after]; split; [exact B|split; reflexivity]|].
  cbn [Logger.after].
  destruct (outcome w (Logger.perform this c)) as [e|this'] eqn:H; [now apply IH|].
  destruct (perform_bounded this this' c B H) as (B' & M & E).
  destruct (IH this' B') as (B'' & M' & E'). repeat split; try apply B''; congruence.
Qed.

End LoggerFacts.

(** X21. The two buffers of the logger are bounded: after any sequence of
    calls of its methods on the new logger, it holds at most 500 log entries
    and at most 100 error entries. *)
Theorem logger_buffers_are_bounded :
  forall (w : world) (calls : list Logger.call),
    length (Logger.logs (Logger.after w Logger.new calls)) <= 500
    /\ length (Logger.errors (Logger.after w Logger.new calls)) <= 100.
Proof.
  intros w calls.
  destruct (after_bounded w calls Logger.new) as ([L E] & M & M').
  - split; cbn; lia.
  - rewrite M in L. rewrite M' in E. exact (conj L E).
Qed.

(** X22. [log] appends the entry and keeps the most recent entries: on a
    logger within its bounds, the buffer after the call is the end of the old
    buffer followed by the new entry, cut to the maximum, so the oldest entry
    is the one that is dropped; the error buffer is left as it is. *)
Theorem log_keeps_the_most_recent :
  forall (w : world) (this : Logger.t) (level message data : jsval),
    length (Logger.logs this) <= Logger.maxLogs this ->
    exists this',
      outcome w (Logger.log this level message data) = inr this'
      /\ Logger.logs this'
         = skipn (length (Logger.logs this) + 1 - Logger.maxLogs this)
             (Logger.logs this
                ++ [{| Logger.timestamp := clock w; Logger.level := level;
                       Logger.message := message;
                       Logger.data := Logger.or_empty_object data |}])%list
      /\ (length (Logger.logs this) < Logger.maxLogs this ->
          Logger.logs this'
          = (Logger.logs this
               ++ [{| Logger.timestamp := clock w; Logger.level := level;
                      Logger.message := message;
                      Logger.data := Logger.or_empty_object data |}])%list)
      /\ (length (Logger.logs this) = Logger.maxLogs this ->
          Logger.logs this'
          = (tl (Logger.logs this)
               ++ [{| Logger.timestamp := clock w; Logger.level := level;
                      Logger.message := message;
                      Logger.data := Logger.or_empty_object data |}])%list
            \/ Logger.maxLogs this = 0)
      /\ Logger.errors this' = Logger.errors this.
Proof.
  intros w this level message data L.
  eexists. split; [unfold outcome; rewrite log_run; reflexivity|].
  cbn [Logger.logs Logger.errors].
  rewrite (push_bounded_recent _ _ _ L), length_app. cbn [length].
  split; [reflexivity|]. split; [|split; [|reflexivity]].
  - intros S. now replace (length (Logger.logs this) + 1 - Logger.maxLogs this)
      with 0 by lia.
  - intros E. replace (length (Logger.logs this) + 1 - Logger.maxLogs this)
      with 1 by lia.
    destruct (Logger.logs this) as [|a l]; [right; now rewrite <- E|left; reflexivity].
Qed.

Lemma log_keeps_the_most_recent_witness :
  exists this',
    outcome (Scenario.stub Scenario.approved_xml UpTimeout)
      (Logger.log Logger.new (JStr "INFO") (JStr "started") JUndefined) = inr this'
    /\ Logger.logs this'
       = [{| Logger.timestamp := 1700000000000; Logger.level := JStr "INFO";
             Logger.message := JStr "started"; Logger.data := JObj [] |}].
Proof.
  destruct (log_keeps_the_most_recent (Scenario.stub Scenario.approved_xml UpTimeout)
              Logger.new (JStr "INFO") (JStr "started") JUndefined
              ltac:(cbn; lia)) as (this' & H & _ & S & _).
  exists this'. split; [exact H|]. exact (S ltac:(cbn; lia)).
Defined.

(** X23. [error] records a failure twice: as the last entry of the error
    buffer and as the last log entry, of level [ERROR], with the same
    message.  A value without a message, a code or a type is recorded as
    [Unknown error], [UNKNOWN_ERROR] and [Error]: that is what a string
    passed to [error] becomes, its text is kept as [fullError] only.  A call
    with [null] or [undefined] throws and records nothing. *)
Theorem error_is_recorded_twice :
  forall (w : world) (this : Logger.t) (error context : jsval),
    (error <> JUndefined -> error <> JNull ->
     exists this' recorded logged,
       outcome w (Logger.error this error context) = inr this'
       /\ (0 < Logger.maxErrors this ->
           exists before, Logger.errors this' = (before ++ [recorded])%list)
       /\ (0 < Logger.maxLogs this ->
           exists before, Logger.logs this' = (before ++ [logged])%list)
       /\ Logger.level logged = JStr "ERROR"
       /\ Logger.message logged = Logger.e_message recorded
       /\ Logger.e_message recorded
          = js_or (get_opt error "message") (JStr "Unknown error")
       /\ Logger.fullError recorded = error
       /\ (forall text, error = JStr text ->
             Logger.e_message recorded = JStr "Unknown error"
             /\ Logger.e_code recorded = JStr "UNKNOWN_ERROR"
             /\ Logger.e_type recorded = JStr "Error"))
    /\ (error = JUndefined \/ error = JNull ->
        exists e, outcome w (Logger.error this error context) = inl e).
Proof.
  intros w this error context. split.
  - intros U N.
    assert (G : get_prop error "message" = Ret (get_opt error "message"))
      by (destruct error; try contradiction; reflexivity).
    unfold Logger.error, outcome. cbn [run]. rewrite G. cbn [bind].
    set (recorded := {| Logger.e_timestamp := clock w;
                        Logger.e_message := _; Logger.e_code := _;
                        Logger.e_type := _; Logger.e_stack := _;
                        Logger.e_details := _; Logger.e_context := _;
                        Logger.fullError := error |}).
    rewrite log_run. cbn [snd].
    eexists. exists recorded. eexists.
    split; [reflexivity|]. cbn [Logger.errors Logger.logs].
    assert (P : forall A max (buffer : list A) x,
               0 < max -> exists before,
                 Logger.push_bounded max buffer x = (before ++ [x])%list).
    { intros A max buffer x M. unfold Logger.push_bounded.
      destruct (Nat.ltb_spec max (length (buffer ++ [x]))) as [L|L];
        [|now exists buffer].
      destruct buffer as [|a buffer]; [rewrite length_app in L; cbn in L; lia|].
      now exists buffer. }
    split; [intros M; now apply P|].
    split; [intros M; now apply P|].
    split; [reflexivity|]. split; [reflexivity|]. split; [reflexivity|].
    split; [reflexivity|].
    intros text ->. repeat split.
  - intros [-> | ->]; eexists; reflexivity.
Qed.

Lemma error_is_recorded_twice_witness :
  exists this',
    outcome (Scenario.stub Scenario.approved_xml UpTimeout)
      (Logger.error Logger.new (JStr "Apple Pay is not supported in this browser")
         JUndefined) = inr this'
    /\ map Logger.e_message (Logger.errors this') = [JStr "Unknown error"]
    /\ map Logger.message (Logger.logs this') = [JStr "Unknown error"].
Proof.
  destruct (proj1 (error_is_recorded_twice
                     (Scenario.stub Scenario.approved_xml UpTimeout) Logger.new
                     (JStr "Apple Pay is not supported in this browser") JUndefined)
              ltac:(discriminate) ltac:(discriminate))
    as (this' & recorded & logged & H & _).
  exists this'. split; [exact H|].
  vm_compute in H. inversion H. split; reflexivity.
Defined.

(* ================================================================== *)
(** * Requests that reach the gateway *)
(* ================================================================== *)

(** What the three checks of [POST /process] establish. *)
Lemma validationErrors_nil (tok amt uid : jsval) :
  validationErrors_of tok amt uid = [] ->
  truthy tok = true
  /\ (exists n, amt = JNum n /\ (0 < n)%Z)
  /\ (exists s, uid = JStr s /\ Str.trim s <> EmptyString /\ s <> EmptyString).
Proof.
  intros E. pose proof (validationErrors_fields tok amt uid) as F.
  rewrite E in F. cbn [map] in F.
  destruct (truthy tok); [|discriminate F].
  destruct (positive_number amt) eqn:P; [|discriminate F].
  destruct (nonblank_string uid) eqn:N; [|discriminate F].
  split; [reflexivity|]. split.
  - destruct amt; try discriminate P. exists n. split; [reflexivity|].
    now apply Z.ltb_lt.
  - destruct uid; try discriminate N. exists s. split; [reflexivity|].
    cbn in N. apply negb_true_iff, String.eqb_neq in N. split; [exact N|].
    intros ->. now apply N.
Qed.

Lemma js_or_object (v : jsval) :
  js_or v (JObj []) <> JUndefined /\ js_or v (JObj []) <> JNull.
Proof.
  unfold js_or. destruct v as [| |[|]|n|s|l|l]; cbn [truthy]; try (split; discriminate).
  - destruct (negb (n =? 0)%Z); split; discriminate.
  - destruct (negb (s =? EmptyString)); split; discriminate.
Qed.

(** Conditions under which the request object is built. *)
Lemma build_succeeds (w : world) (tokenFields : list (string * jsval))
  (n : Z) (u : string) (oi : jsval) :
  truthy (get_opt (JObj tokenFields) "paymentData") = true ->
  Str.trim u <> EmptyString -> u <> EmptyString ->
  oi <> JUndefined -> oi <> JNull ->
  (truthy (get_opt oi "invoiceNumber") = false
   \/ exists s, get_opt oi "invoiceNumber" = JStr s) ->
  exists td,
    outcome w (build_transactionData
                 {| paymentToken := JObj tokenFields; req_amount := JNum n;
                    userId := JStr u; orderInfo := oi |}) = inr td.
Proof.
  intros Hp Nb Ne U N Hi. unfold build_transactionData.
  cbn [paymentToken req_amount userId orderInfo applePayToken_of get_prop bind].
  rewrite Hp. cbn [negb].
  assert (E : exists value,
             encode_paymentData (get_opt (JObj tokenFields) "paymentData")
             = Some value).
  { unfold encode_paymentData.
    destruct (get_opt (JObj tokenFields) "paymentData"); try discriminate Hp;
      eexists; reflexivity. }
  destruct E as [value ->]. cbn [bind].
  apply String.eqb_neq in Nb, Ne.
  assert (C : exists cid,
             (if Nat.leb (String.length u) 20 then Ret (JStr u)
              else Ret (JStr (Str.take 20 u))) = Ret (A:=jsval) cid)
    by (destruct (Nat.leb (String.length u) 20); eexists; reflexivity).
  destruct C as [cid C].
  destruct oi as [| |b|z|s0|l|fs]; try contradiction;
    cbn [get_prop bind truthy toFixed_2]; rewrite Ne, Nb; cbn [negb]; rewrite C;
    (destruct Hi as [F|[s Hs]];
     [ rewrite F
     | rewrite Hs; cbn [slice_0_20]; destruct (truthy (JStr s)) ]);
    unfold outcome; cbn [bind run snd];
    match goal with
    | |- context [truthy (get_opt ?o "orderId")] =>
        destruct (truthy (get_opt o "orderId"))
    end;
    cbn [bind run snd]; eexists; reflexivity.
Qed.

Lemma printable_string (s : string) : printable (JStr s) = true.
Proof. unfold printable, converts. cbn [to_String]. apply orb_true_r. Qed.

Lemma printable_js_or (a b : jsval) :
  printable a = true -> printable b = true -> printable (js_or a b) = true.
Proof. unfold js_or. now destruct (truthy a). Qed.

(** [(v || {})?.k] is [v?.k]. *)
Lemma get_opt_js_or_object (v : jsval) (k : string) :
  get_opt (js_or v (JObj [])) k = get_opt v k.
Proof.
  unfold js_or. destruct v as [| |[|]|n|s|l|l]; cbn [truthy get_opt assoc];
    try reflexivity.
  - now destruct (negb (n =? 0)%Z).
  - now destruct (negb (s =? EmptyString)).
Qed.

(** What [build_transactionData] takes from the order, and the shape of the
    values it computes. *)
Lemma build_transactionData_order (req : paymentRequest) (w : world)
  (td : transactionData) :
  outcome w (build_transactionData req) = inr td ->
  let oi := match orderInfo req with JUndefined => JObj [] | o => o end in
  description td = js_or (get_opt oi "description") (JStr "Apple Pay Payment")
  /\ email td = js_or (get_opt oi "email") (JStr EmptyString)
  /\ billingAddress td = js_or (get_opt oi "billingAddress") (JObj [])
  /\ (exists s, amount td = JStr s)
  /\ (exists s, customerId td = JStr s)
  /\ (exists s, dataValue td = JStr s)
  /\ dataDescriptor td = JStr "COMMON.APPLE.INAPP.PAYMENT".
Proof.
  intros H oi.
  destruct (build_transactionData_inv req w td H)
    as (tok & value & _ & _ & _ & Hv & Hdesc & Hamt & Hcid).
  unfold build_transactionData in H. fold oi in H.
  step H as tok' Htok. step H as pd Hpd.
  destruct (truthy pd); [|discriminate H]. cbn [negb] in H.
  step H as value' Hvalue. step H as inv0 Hinv0. step H as inv Hinv.
  step H as cid Hcid'. step H as oid Hoid. step H as rid Hrid.
  step H as amt Hamt'. step H as d Hd. step H as em Hem. step H as ba Hba.
  apply get_prop_inr in Hd, Hem, Hba. subst d em ba.
  cbn in H. inversion H; subst td; clear H.
  cbn [description email billingAddress amount customerId dataValue dataDescriptor] in *.
  repeat split; eauto.
  - destruct (req_amount req); cbn in Hamt; inversion Hamt; eauto.
  - rewrite Hcid. destruct (userId req); eauto.
    destruct (Str.trim s =? EmptyString); eauto.
Qed.

(** The document of a request object is built when the order is printable
    and the invoice number, if any, is a string. *)
Lemma document_of_printable_order (this : AuthorizeNetService)
  (req : paymentRequest) (w : world) (td : transactionData) :
  outcome w (build_transactionData req) = inr td ->
  let oi := match orderInfo req with JUndefined => JObj [] | o => o end in
  (truthy (get_opt oi "invoiceNumber") = false
   \/ exists s, get_opt oi "invoiceNumber" = JStr s) ->
  order_is_printable oi = true ->
  exists doc, createXmlRequest this td = Some doc.
Proof.
  intros H oi Hi P. apply createXmlRequest_built.
  destruct (build_transactionData_order req w td H)
    as (Hd & He & Hb & [a Ha] & [c Hc] & [v Hv] & Hdesc).
  destruct (build_transactionData_ids req w td H) as [Hinv Hid].
  fold oi in Hd, He, Hb, Hinv, Hid.
  unfold order_is_printable in P.
  apply andb_prop in P as [P Pb]. apply andb_prop in P as [P Pe].
  apply andb_prop in P as [Po Pd].
  assert (I : exists s, invoiceNumber td = JStr s).
  { destruct Hi as [F|[s Hs]].
    - rewrite F in Hinv. cbn in Hinv. inversion Hinv. eauto.
    - rewrite Hs in Hinv. destruct (truthy (JStr s)); cbn in Hinv;
        inversion Hinv; eauto. }
  destruct I as [i Hinvoice].
  assert (R : printable (refId td) = true).
  { rewrite Hid. destruct (truthy (get_opt oi "orderId")); [exact Po|].
    apply printable_string. }
  unfold interpolated; cbv zeta. cbn [forallb].
  rewrite Ha, Hc, Hv, Hdesc, Hinvoice, Hd, He, Hb, !get_opt_js_or_object.
  unfold billTo in Pb. cbn [forallb] in Pb.
  repeat (apply andb_prop in Pb as [? Pb]).
  repeat (apply andb_true_intro; split);
    repeat first
      [ reflexivity
      | apply printable_string
      | apply printable_js_or
      | assumption ].
Qed.

(** A request that passes the checks, whose token and invoice number are
    well formed and whose order is printable, is built and sent. *)
Lemma checked_request_is_sent :
  forall (svc : AuthorizeNetService) (req : request) (w : world)
         (fields tokenFields : list (string * jsval)),
    body req = JObj fields ->
    validationErrors_of (get_opt (body req) "paymentToken")
      (get_opt (body req) "amount") (get_opt (body req) "userId") = [] ->
    get_opt (body req) "paymentToken" = JObj tokenFields ->
    truthy (get_opt (JObj tokenFields) "paymentData") = true ->
    (truthy (get_opt (js_or (get_opt (body req) "orderInfo") (JObj []))
               "invoiceNumber") = false
     \/ exists s, get_opt (js_or (get_opt (body req) "orderInfo") (JObj []))
                    "invoiceNumber" = JStr s) ->
    order_is_printable (js_or (get_opt (body req) "orderInfo") (JObj [])) = true ->
    exists td doc,
      outcome w (build_transactionData
                   {| paymentToken := get_opt (body req) "paymentToken";
                      req_amount := get_opt (body req) "amount";
                      userId := get_opt (body req) "userId";
                      orderInfo := js_or (get_opt (body req) "orderInfo") (JObj []) |})
      = inr td
      /\ createXmlRequest svc td = Some doc
      /\ filter is_network (trace w (served (process_handler svc req)))
         = [GatewayRequest (baseUrl svc) doc].
Proof.
  intros svc req w fields tokenFields Hb Hv Ht Hp Hi Ho.
  destruct (validationErrors_nil _ _ _ Hv) as (_ & (n & Ha & Pn) & (u & Hu & Nb & Ne)).
  destruct (js_or_object (get_opt (body req) "orderInfo")) as [U N].
  destruct (build_succeeds w tokenFields n u _ Hp Nb Ne U N Hi) as [td Hbuild].
  rewrite <- Ht, <- Ha, <- Hu in Hbuild.
  assert (O : match js_or (get_opt (body req) "orderInfo") (JObj []) with
              | JUndefined => JObj []
              | o => o
              end = js_or (get_opt (body req) "orderInfo") (JObj [])).
  { destruct (js_or (get_opt (body req) "orderInfo") (JObj [])); try reflexivity.
    now elim U. }
  destruct (document_of_printable_order svc _ w td Hbuild) as [doc Hdoc].
  - cbn [orderInfo]. rewrite O. exact Hi.
  - cbn [orderInfo]. rewrite O. exact Ho.
  - exists td, doc. split; [exact Hbuild|]. split; [exact Hdoc|].
    rewrite (served_process_trace svc req w fields td doc Hb Hv Hbuild Hdoc), filter_app.
    now rewrite (filter_offline w _ (offline_build _)).
Qed.

(** X24. A request to [POST /process] that passes the three checks, whose
    token is an object with a [paymentData], whose invoice number, if any, is
    a string and whose other order fields (the order id, the description,
    the email and the address) are each falsy or convertible to a string, is
    sent to the gateway: the request object and its document are built, and
    the run makes the one request that carries the document.  The amount is
    below 10^21, where [toFixed] prints all its digits. *)
Theorem valid_request_reaches_the_gateway :
  forall (svc : AuthorizeNetService) (req : request) (w : world)
         (fields tokenFields : list (string * jsval)),
    body req = JObj fields ->
    validationErrors_of (get_opt (body req) "paymentToken")
      (get_opt (body req) "amount") (get_opt (body req) "userId") = [] ->
    (forall n, get_opt (body req) "amount" = JNum n -> (n < 10 ^ 21)%Z) ->
    get_opt (body req) "paymentToken" = JObj tokenFields ->
    truthy (get_opt (JObj tokenFields) "paymentData") = true ->
    (truthy (get_opt (js_or (get_opt (body req) "orderInfo") (JObj []))
               "invoiceNumber") = false
     \/ exists s, get_opt (js_or (get_opt (body req) "orderInfo") (JObj []))
                    "invoiceNumber" = JStr s) ->
    order_is_printable (js_or (get_opt (body req) "orderInfo") (JObj [])) = true ->
    exists td doc,
      outcome w (build_transactionData
                   {| paymentToken := get_opt (body req) "paymentToken";
                      req_amount := get_opt (body req) "amount";
                      userId := get_opt (body req) "userId";
                      orderInfo := js_or (get_opt (body req) "orderInfo") (JObj []) |})
      = inr td
      /\ createXmlRequest svc td = Some doc
      /\ filter is_network (trace w (served (process_handler svc req)))
         = [GatewayRequest (baseUrl svc) doc].
Proof.
  intros svc req w fields tokenFields Hb Hv _ Ht Hp Hi Ho.
  exact (checked_request_is_sent svc req w fields tokenFields Hb Hv Ht Hp Hi Ho).
Qed.

Lemma valid_request_reaches_the_gateway_witness :
  exists td doc,
    createXmlRequest Scenario.svc td = Some doc
    /\ filter is_network
         (trace (Scenario.stub Scenario.approved_xml UpTimeout)
            (served (process_handler Scenario.svc (Scenario.http Failures.payment))))
       = [GatewayRequest "https://apitest.authorize.net/xml/v1/request.api" doc].
Proof.
  destruct (valid_request_reaches_the_gateway Scenario.svc
              (Scenario.http Failures.payment)
              (Scenario.stub Scenario.approved_xml UpTimeout)
              _ [("paymentData", Scenario.paymentData)]
              eq_refl eq_refl
              ltac:(intros n E; injection E as <-; reflexivity)
              eq_refl eq_refl (or_introl eq_refl) eq_refl)
    as (td & doc & _ & D & H).
  exists td, doc. split; [exact D|exact H].
Defined.

(* ================================================================== *)
(** * From the page to the gateway *)
(* ================================================================== *)

Section PageFacts.

Lemma stringify_drops_undefined (fields : list (string * jsval)) :
  Json.stringify (JObj fields) = Json.stringify (JObj (filter Page.printed fields)).
Proof.
  cbn [Json.stringify]. do 3 f_equal.
  induction fields as [|[k x] r IH]; [reflexivity|].
  cbn [filter]. unfold Page.printed at 1. cbn [snd].
  destruct x; cbn [filter]; rewrite IH; reflexivity.
Qed.

Lemma stringify_member_object (k : string) (fields fields' rest : list (string * jsval)) :
  Json.stringify (JObj fields) = Json.stringify (JObj fields') ->
  Json.stringify (JObj ((k, JObj fields) :: rest))
  = Json.stringify (JObj ((k, JObj fields') :: rest)).
Proof.
  intros H. cbn [Json.stringify] in H |- *. now rewrite H.
Qed.

Lemma printed_serializable (k : string) (v : jsval) :
  Json.serializable v = true -> Page.printed (k, v) = true.
Proof. destruct v; [discriminate|reflexivity..]. Qed.

(** The four fields that are printed form an object printed in full. *)
Lemma received_serializable (d s h v : jsval) :
  (d = JUndefined \/ Json.serializable d = true) ->
  (s = JUndefined \/ Json.serializable s = true) ->
  (h = JUndefined \/ Json.serializable h = true) ->
  (v = JUndefined \/ Json.serializable v = true) ->
  Json.serializable
    (JObj (filter Page.printed
             [("data", d); ("signature", s); ("header", h); ("version", v)])) = true.
Proof.
  intros [->|Sd] [->|Ss] [->|Sh] [->|Sv]; cbn [filter];
    rewrite ?(printed_serializable _ _ Sd), ?(printed_serializable _ _ Ss),
      ?(printed_serializable _ _ Sh), ?(printed_serializable _ _ Sv);
    cbn [Page.printed snd];
    cbn [Json.serializable map fst snd forallb Json.distinct existsb
           String.eqb Ascii.eqb Bool.eqb negb andb orb];
    rewrite ?Sd, ?Ss, ?Sh, ?Sv; reflexivity.
Qed.

Lemma process_body_read (token : jsval) (paymentAmount : Z) (userId : string)
  (now : Z) :
  Page.sendable token ->
  Json.JSON_parse (Page.process_body token paymentAmount userId now)
  = Some (JObj [("paymentToken",
                 JObj [("paymentData", Page.received_paymentData token)]);
                ("amount", JNum paymentAmount);
                ("userId", JStr userId);
                ("orderInfo",
                 JObj [("orderId", JStr ("ORDER-" ++ Str.of_Z now));
                       ("description", JStr "Apple Pay POC Payment")])]).
Proof.
  intros S. unfold Page.process_body, Page.process_request,
    Page.paymentTokenForServer, Page.received_paymentData. cbv zeta.
  set (pd := Logger.get_chained token "paymentData") in *.
  rewrite (stringify_member_object "paymentToken" _
             [("paymentData",
               JObj (filter Page.printed
                       [("data", Logger.get_chained pd "data");
                        ("signature", Logger.get_chained pd "signature");
                        ("header", Logger.get_chained pd "header");
                        ("version", Logger.get_chained pd "version")]))]).
  - apply JsonFacts.JSON_parse_stringify.
    pose proof (received_serializable _ _ _ _
                  (S "data" ltac:(cbn; auto)) (S "signature" ltac:(cbn; auto))
                  (S "header" ltac:(cbn; auto)) (S "version" ltac:(cbn; auto))) as R.
    fold pd in R.
    cbn [Json.serializable map fst snd forallb Json.distinct existsb
           String.eqb Ascii.eqb Bool.eqb negb andb orb] in R |- *.
    now rewrite R.
  - apply stringify_member_object, stringify_drops_undefined.
Qed.

End PageFacts.

(** X25. The page always sends a [paymentData] object: whatever the wallet
    token is, as long as its four fields are absent or printed in full, the
    body is a JSON text in which the server reads the amount and the user id
    of the page and a token whose [paymentData] is the object of the fields
    that are present.  That object is truthy even when the wallet token has
    no [paymentData] at all, so a request of the page never fails the check
    of the service for a missing [paymentData]. *)
Theorem page_always_sends_paymentData :
  forall (token : jsval) (paymentAmount : Z) (userId : string) (now : Z),
    Page.sendable token ->
    exists body,
      Json.JSON_parse (Page.process_body token paymentAmount userId now) = Some body
      /\ get_opt body "amount" = JNum paymentAmount
      /\ get_opt body "userId" = JStr userId
      /\ get_opt body "paymentToken"
         = JObj [("paymentData", Page.received_paymentData token)]
      /\ truthy (get_opt (get_opt body "paymentToken") "paymentData") = true
      /\ (Logger.get_chained token "paymentData" = JUndefined ->
          get_opt (get_opt body "paymentToken") "paymentData" = JObj []).
Proof.
  intros token paymentAmount userId now S.
  eexists. split; [exact (process_body_read token paymentAmount userId now S)|].
  repeat split. intros U.
  cbn [get_opt assoc String.eqb Ascii.eqb Bool.eqb].
  unfold Page.received_paymentData. rewrite U. reflexivity.
Qed.

Lemma page_always_sends_paymentData_witness :
  exists body,
    Json.JSON_parse (Page.process_body (JObj []) 10 "u1" 1700000000000) = Some body
    /\ get_opt (get_opt body "paymentToken") "paymentData" = JObj [].
Proof.
  destruct (page_always_sends_paymentData (JObj []) 10 "u1" 1700000000000)
    as (body & H & _ & _ & _ & _ & E).
  - intros k _. left. reflexivity.
  - exists body. split; [exact H|]. exact (E eq_refl).
Defined.

(** X26. A payment of the page with a positive amount and a user id that is
    not blank passes the checks of [POST /process] and is sent to the
    gateway, with the one request of the run; this holds for every wallet
    token whose four fields are absent or printed in full.  The page sends
    an order id and a description that are strings, so the document is
    built. *)
Theorem page_payment_reaches_the_gateway :
  forall (svc : AuthorizeNetService) (w : world) (token : jsval)
         (paymentAmount : Z) (userId : string) (now : Z) (host header : jsval),
    Page.sendable token ->
    (0 < paymentAmount)%Z ->
    Str.trim userId <> EmptyString ->
    exists body td doc,
      Json.JSON_parse (Page.process_body token paymentAmount userId now) = Some body
      /\ createXmlRequest svc td = Some doc
      /\ filter is_network
           (trace w (served (process_handler svc
                               {| body := body; hostname := host;
                                  host_header := header |})))
         = [GatewayRequest (baseUrl svc) doc]
      /\ exists value,
          dataValue td = JStr value
          /\ encode_paymentData (Page.received_paymentData token) = Some value.
Proof.
  intros svc w token paymentAmount userId now host header S P N.
  exists (JObj [("paymentToken",
                 JObj [("paymentData", Page.received_paymentData token)]);
                ("amount", JNum paymentAmount);
                ("userId", JStr userId);
                ("orderInfo",
                 JObj [("orderId", JStr ("ORDER-" ++ Str.of_Z now));
                       ("description", JStr "Apple Pay POC Payment")])]).
  set (req := {| body := JObj _; hostname := host; host_header := header |}).
  assert (V : validationErrors_of (get_opt (body req) "paymentToken")
                (get_opt (body req) "amount") (get_opt (body req) "userId") = []).
  { apply (map_eq_nil fv_field). rewrite validationErrors_fields.
    cbn [req body get_opt assoc String.eqb Ascii.eqb Bool.eqb truthy positive_number
           nonblank_string].
    apply Z.ltb_lt in P. rewrite P. apply String.eqb_neq in N. rewrite N.
    reflexivity. }
  destruct (checked_request_is_sent svc req w _
              [("paymentData", Page.received_paymentData token)]
              eq_refl V eq_refl eq_refl (or_introl eq_refl))
    as (td & doc & Hbuild & Hdoc & T).
  { unfold order_is_printable, billTo.
    cbn [req body get_opt assoc String.eqb Ascii.eqb Bool.eqb js_or truthy forallb].
    rewrite !printable_string. reflexivity. }
  exists td, doc. split; [exact (process_body_read token paymentAmount userId now S)|].
  split; [exact Hdoc|]. split; [exact T|].
  destruct (build_transactionData_inv _ w td Hbuild)
    as (tok & value & Htok & _ & Hv & Hd & _).
  exists value. split; [exact Hd|].
  cbn in Htok. inversion Htok; subst tok. exact Hv.
Qed.

Lemma page_payment_reaches_the_gateway_witness :
  exists body td doc,
    Json.JSON_parse (Page.process_body (JObj []) 10 "u1" 1700000000000) = Some body
    /\ createXmlRequest Scenario.svc td = Some doc
    /\ filter is_network
         (trace (Scenario.stub Scenario.approved_xml UpTimeout)
            (served (process_handler Scenario.svc (Scenario.http body))))
       = [GatewayRequest (baseUrl Scenario.svc) doc]
    /\ dataValue td = JStr "e30=".
Proof.
  destruct (page_payment_reaches_the_gateway Scenario.svc
              (Scenario.stub Scenario.approved_xml UpTimeout) (JObj []) 10 "u1"
              1700000000000 (JStr "shop.example") JUndefined)
    as (body & td & doc & H & D & T & value & Hd & Hv).
  - intros k _. left. reflexivity.
  - reflexivity.
  - discriminate.
  - exists body, td, doc. split; [exact H|]. split; [exact D|]. split; [exact T|].
    rewrite Hd. vm_compute in Hv. now inversion Hv.
Defined.
